(** * Sailinit: the port allocation and registry subsystem

    A shallow embedding of [portmanager.go] and of the range validator and
    [RemoveProject] that live next to it, together with the properties of
    the registry that the specification states. The port probe, the
    listing of the registry and [setupEnv], which rewrites the environment
    file of a project, are embedded as well, with properties read off the
    code.

    The Go standard library calls the program relies on are modelled by
    their documented behaviour:
    - [int] is the 64-bit two's-complement integer of a 64-bit host,
      carried as a [Z] with the wrap-around written out ([wrap]);
    - a Go [string] is a byte sequence, carried as a [string]; text is read
      as UTF-8, so the white space runes of [strings.TrimSpace] and of
      [fmt]'s scanner are matched by their UTF-8 byte patterns;
    - [encoding/json] is modelled at the level of the JSON document it
      writes and reads (type [json]), not of the bytes of its text; a
      string goes out and comes in coerced to UTF-8, every byte that starts
      no rune replaced by U+FFFD ([utf8_coerce]), so a key that is not
      UTF-8 text does not read back as it was written;
    - the file system and the process environment form the [World] that
      every operation takes and returns; the state file is the only part
      of it the operations of the registry write, and [setupEnv] writes
      the environment file of a project, under every path that names
      it. *)

From Stdlib Require Import ZArith String Ascii List Bool Lia.
From Stdlib Require DecimalString DecimalPos.
From stdpp Require Import gmap strings list fin_maps sorting.

Open Scope string_scope.
Open Scope Z_scope.

(** ** Go's [int] *)

Definition int_min : Z := - 2 ^ 63.
Definition int_max : Z := 2 ^ 63 - 1.

(** Reduction of a mathematical integer to the 64-bit signed range. *)
Definition wrap (z : Z) : Z := (z + 2 ^ 63) mod 2 ^ 64 - 2 ^ 63.

Definition int_add (x y : Z) : Z := wrap (x + y).
Definition int_sub (x y : Z) : Z := wrap (x - y).

(** [in_int z]: the value [z] is representable as an [int]. *)
Definition in_int (z : Z) : bool := (int_min <=? z) && (z <=? int_max).

Definition int_ok (z : Z) : Prop := int_min <= z <= int_max.

(** ** Errors and results *)

(** The error values the subsystem returns, one constructor per origin. *)
Inductive error : Type :=
  | ErrSuffixNegative (suffix : Z)
      (* "suffix must be non-negative, got %d" *)
  | ErrSuffixTooLarge (suffix highest : Z)
      (* "suffix %d too large: highest port would be %d (max 65535)" *)
  | ErrNotRegistered (absDir : string)
      (* "project not registered: %s" *)
  | ErrUserHomeDir      (* os.UserHomeDir failed *)
  | ErrReadFile         (* os.ReadFile failed, the file exists *)
  | ErrUnmarshal        (* json.Unmarshal failed *)
  | ErrWriteFile        (* os.WriteFile failed *)
  | ErrGetwd.           (* filepath.Abs failed: no working directory *)

(** Outcome of a call: a value, a returned error, or a run-time panic. *)
Inductive result (A : Type) : Type :=
  | Ok (a : A)
  | Err (e : error)
  | Panic.

Arguments Ok {A} a.
Arguments Err {A} e.
Arguments Panic {A}.

(** ** Port-range validator *)

(** MaxPortSuffix is the highest valid suffix (65535 - 18100). *)
Definition MaxPortSuffix : Z := 47435.

(** [ValidateSuffix]: [None] is Go's [nil] error. *)
Definition ValidateSuffix (suffix : Z) : option error :=
  if suffix <? 0 then Some (ErrSuffixNegative suffix)
  else if suffix >? MaxPortSuffix
       then Some (ErrSuffixTooLarge suffix (int_add 18100 suffix))
       else None.

(** The two errors of [ValidateSuffix] are the range errors. *)
Definition is_range_error (e : error) : bool :=
  match e with
  | ErrSuffixNegative _ | ErrSuffixTooLarge _ _ => true
  | _ => false
  end.

(** ** Bytes and white space *)

Definition LF : ascii := "010"%char.
Definition CR : ascii := "013"%char.

Definition code (c : ascii) : N := N_of_ascii c.

(** The ASCII white space of [unicode.IsSpace]: tab, LF, VT, FF, CR, space. *)
Definition space1 (a : ascii) : bool :=
  ((9 <=? code a) && (code a <=? 13))%N || (code a =? 32)%N.

(** U+0085 and U+00A0, as the two bytes of their UTF-8 encoding. *)
Definition space2 (a b : ascii) : bool :=
  (code a =? 194)%N && ((code b =? 133)%N || (code b =? 160)%N).

(** U+1680, U+2000..U+200A, U+2028, U+2029, U+202F, U+205F and U+3000, as
    the three bytes of their UTF-8 encoding. *)
Definition space3 (a b c : ascii) : bool :=
  ((code a =? 225)%N && (code b =? 154)%N && (code c =? 128)%N)
  || ((code a =? 226)%N && (code b =? 128)%N
      && (((128 <=? code c) && (code c <=? 138))%N
          || (code c =? 168)%N || (code c =? 169)%N || (code c =? 175)%N))
  || ((code a =? 226)%N && (code b =? 129)%N && (code c =? 159)%N)
  || ((code a =? 227)%N && (code b =? 128)%N && (code c =? 128)%N).

(** Removal of the white space runes at the front of a byte sequence; the
    three predicates recognise a rune of one, two and three bytes. *)
Fixpoint trim_front (p1 : ascii -> bool) (p2 : ascii -> ascii -> bool)
    (p3 : ascii -> ascii -> ascii -> bool) (s : string) : string :=
  match s with
  | EmptyString => EmptyString
  | String a r1 =>
      if p1 a then trim_front p1 p2 p3 r1
      else match r1 with
           | EmptyString => s
           | String b r2 =>
               if p2 a b then trim_front p1 p2 p3 r2
               else match r2 with
                    | EmptyString => s
                    | String c r3 =>
                        if p3 a b c then trim_front p1 p2 p3 r3 else s
                    end
           end
  end.

Definition rev_string (s : string) : string :=
  string_of_list_ascii (rev (list_ascii_of_string s)).

Definition TrimLeftSpace (s : string) : string :=
  trim_front space1 space2 space3 s.

(** From the end the bytes of a rune are met last byte first. *)
Definition TrimRightSpace (s : string) : string :=
  rev_string
    (trim_front space1 (fun a b => space2 b a) (fun a b c => space3 c b a)
       (rev_string s)).

(** [strings.TrimSpace] *)
Definition TrimSpace (s : string) : string :=
  TrimRightSpace (TrimLeftSpace s).

(** [strings.HasPrefix] *)
Definition HasPrefix (s pre : string) : bool := String.prefix pre s.

(** ** [splitLines] *)

(** [s[start:end]] with one carriage return dropped from its end; [line] is
    the slice with its bytes in reverse order. *)
Definition drop_cr (line : list ascii) : list ascii :=
  match line with
  | c :: rest => if Ascii.eqb c CR then rest else line
  | [] => []
  end.

Definition close_line (line : list ascii) : string :=
  string_of_list_ascii (rev (drop_cr line)).

(** The loop of [splitLines]: [cur] holds the bytes since [start], last byte
    first. A line is closed at every LF; what follows the last LF is a line
    only when it is not empty. *)
Fixpoint splitLines_from (s : string) (cur : list ascii) : list string :=
  match s with
  | EmptyString =>
      match cur with
      | [] => []
      | _ => [close_line cur]
      end
  | String c rest =>
      if Ascii.eqb c LF
      then close_line cur :: splitLines_from rest []
      else splitLines_from rest (c :: cur)
  end.

Definition splitLines (s : string) : list string := splitLines_from s [].

(** ** [fmt.Sscanf] with the format "APP_PORT=%d" *)

(** [SkipSpace] of the scanner: white space is passed over, a newline is an
    error ([None]). *)
Fixpoint SkipSpace (s : string) : option string :=
  match s with
  | EmptyString => Some EmptyString
  | String a r1 =>
      if Ascii.eqb a LF then None
      else if space1 a then SkipSpace r1
      else match r1 with
           | EmptyString => Some s
           | String b r2 =>
               if space2 a b then SkipSpace r2
               else match r2 with
                    | EmptyString => Some s
                    | String c r3 =>
                        if space3 a b c then SkipSpace r3 else Some s
                    end
           end
  end.

Definition digit_value (c : ascii) : option Z :=
  if ((48 <=? code c) && (code c <=? 57))%N
  then Some (Z.of_N (code c) - 48) else None.

(** The longest run of decimal digits at the front of [s], read in base
    ten on top of [acc]; [seen] tells whether a digit was read. *)
Fixpoint scan_digits (s : string) (acc : Z) (seen : bool) : option Z :=
  match s with
  | EmptyString => if seen then Some acc else None
  | String c rest =>
      match digit_value c with
      | Some d => scan_digits rest (10 * acc + d) true
      | None => if seen then Some acc else None
      end
  end.

(** The verb [%d] into an [int]: white space, an optional sign, digits;
    a value outside the [int] range is an error. What follows the digits is
    left unread. *)
Definition scanInt (s : string) : option Z :=
  match SkipSpace s with
  | None => None
  | Some s1 =>
      let '(neg, s2) :=
        match s1 with
        | String c rest =>
            if Ascii.eqb c "+"%char then (false, rest)
            else if Ascii.eqb c "-"%char then (true, rest)
            else (false, s1)
        | EmptyString => (false, s1)
        end in
      match scan_digits s2 0 false with
      | None => None
      | Some v =>
          let i := if neg then - v else v in
          if in_int i then Some i else None
      end
  end.

Fixpoint strip_prefix (pre s : string) : option string :=
  match pre, s with
  | EmptyString, _ => Some s
  | String a pre', String b s' =>
      if Ascii.eqb a b then strip_prefix pre' s' else None
  | String _ _, EmptyString => None
  end.

(** [fmt.Sscanf(line, "APP_PORT=%d", &p)]: [Some p] when [err == nil]. *)
Definition Sscanf_APP_PORT (line : string) : option Z :=
  match strip_prefix "APP_PORT=" line with
  | None => None
  | Some rest => scanInt rest
  end.

(** The loop of [extractSuffixFromEnv] over the lines of the file. *)
Fixpoint scanEnvLines (lines : list string) : Z * bool :=
  match lines with
  | [] => (0, false)
  | line :: rest =>
      let line := TrimSpace line in
      if HasPrefix line "APP_PORT="
      then match Sscanf_APP_PORT line with
           | Some p =>
               if 8000 <=? p then (int_sub p 8000, true)
               else scanEnvLines rest
           | None => scanEnvLines rest
           end
      else scanEnvLines rest
  end.

(** ** [path/filepath] on a Unix host *)

(** The elements of a path between its separators. *)
Fixpoint split_slash (s : string) (cur : list ascii) : list string :=
  match s with
  | EmptyString => [string_of_list_ascii (rev cur)]
  | String c rest =>
      if Ascii.eqb c "/"%char
      then string_of_list_ascii (rev cur) :: split_slash rest []
      else split_slash rest (c :: cur)
  end.

(** The pass of [filepath.Clean] over the elements; [out] is the cleaned
    path so far, last element first. Empty and "." elements are dropped;
    ".." removes the element before it, is dropped at the root, and is kept
    at the front of a relative path. *)
Fixpoint clean_elems (rooted : bool) (elems out : list string) : list string :=
  match elems with
  | [] => rev out
  | e :: rest =>
      if String.eqb e "" || String.eqb e "." then clean_elems rooted rest out
      else if String.eqb e ".."
      then match out with
           | top :: below =>
               if String.eqb top ".."
               then clean_elems rooted rest (e :: out)
               else clean_elems rooted rest below
           | [] =>
               if rooted then clean_elems rooted rest []
               else clean_elems rooted rest [e]
           end
      else clean_elems rooted rest (e :: out)
  end.

(** [filepath.IsAbs] *)
Definition IsAbs (path : string) : bool := HasPrefix path "/".

(** [filepath.Clean] *)
Definition Clean (path : string) : string :=
  let rooted := IsAbs path in
  let out := clean_elems rooted (split_slash path []) [] in
  if rooted then "/" ++ String.concat "/" out
  else match out with
       | [] => "."
       | _ => String.concat "/" out
       end.

(** [filepath.Join] of two elements. *)
Definition Join (a b : string) : string :=
  if negb (String.eqb a "") then Clean (a ++ "/" ++ b)
  else if negb (String.eqb b "") then Clean b
  else "".

(** ** The registry and its JSON document *)

(** [PortState]; a Go map is [None] when it is [nil]. *)
Record PortState : Type := mkPortState {
  MaxSuffix : Z;
  Projects : option (gmap string Z)
}.

(** [state.Projects[k]] with its [ok] flag: a nil map has no entry. *)
Definition project (st : PortState) (k : string) : option Z :=
  match Projects st with
  | Some m => m !! k
  | None => None
  end.

(** The entries a [range] over the map visits, in some order. *)
Definition entries (st : PortState) : list (string * Z) :=
  match Projects st with
  | Some m => map_to_list m
  | None => []
  end.

(** A JSON document. [JInt] is a number written as an integer literal,
    [JFrac] one written with a fraction or an exponent. *)
#[warnings="-register-all"]
Inductive json : Type :=
  | JNull
  | JBool (b : bool)
  | JInt (z : Z)
  | JFrac (literal : string)
  | JString (s : string)
  | JArray (items : list json)
  | JObject (members : list (string * json)).

(** ** UTF-8, as [encoding/json] writes and reads strings

    [utf8.DecodeRune] on the bytes at hand: a byte below 128 is a rune; a
    leading byte from 194 to 223, from 224 to 239 or from 240 to 244 starts
    a rune of two, three or four bytes when the bytes that follow are
    continuation bytes, the first of them in the range the leading byte
    allows (no overlong form, no surrogate, nothing above U+10FFFF). *)
Definition utf8_cont (b : ascii) : bool :=
  ((128 <=? code b) && (code b <=? 191))%N.

Definition utf8_seq1 (a : ascii) : bool := (code a <? 128)%N.

Definition utf8_seq2 (a b : ascii) : bool :=
  ((194 <=? code a) && (code a <=? 223))%N && utf8_cont b.

Definition utf8_seq3 (a b c : ascii) : bool :=
  (((code a =? 224) && (160 <=? code b) && (code b <=? 191))%N
   || ((225 <=? code a) && (code a <=? 236))%N && utf8_cont b
   || ((code a =? 237) && (128 <=? code b) && (code b <=? 159))%N
   || ((238 <=? code a) && (code a <=? 239))%N && utf8_cont b)
  && utf8_cont c.

Definition utf8_seq4 (a b c d : ascii) : bool :=
  (((code a =? 240) && (144 <=? code b) && (code b <=? 191))%N
   || ((241 <=? code a) && (code a <=? 243))%N && utf8_cont b
   || ((code a =? 244) && (128 <=? code b) && (code b <=? 143))%N)
  && utf8_cont c && utf8_cont d.

(** The string with every byte that starts no rune replaced by U+FFFD,
    the replacement character (bytes 239, 191, 189). This is what the
    encoder writes for a string (the escape of U+FFFD for such a byte) and
    what the decoder makes of the bytes of a string literal. *)
Fixpoint utf8_coerce (s : string) : string :=
  match s with
  | EmptyString => EmptyString
  | String a r1 =>
      if utf8_seq1 a then String a (utf8_coerce r1)
      else
        let replaced :=
          String "239" (String "191" (String "189" (utf8_coerce r1))) in
        match r1 with
        | EmptyString => replaced
        | String b r2 =>
            if utf8_seq2 a b then String a (String b (utf8_coerce r2))
            else
              match r2 with
              | EmptyString => replaced
              | String c r3 =>
                  if utf8_seq3 a b c
                  then String a (String b (String c (utf8_coerce r3)))
                  else
                    match r3 with
                    | EmptyString => replaced
                    | String d r4 =>
                        if utf8_seq4 a b c d
                        then String a (String b (String c
                               (String d (utf8_coerce r4))))
                        else replaced
                    end
              end
        end
  end.

(** A string that is UTF-8 text: the coercion leaves it as it is. *)
Definition valid_utf8 (s : string) : Prop := utf8_coerce s = s.

(** Go's order on strings, byte by byte. *)
Definition key_le (x y : string * Z) : Prop := String.leb x.1 y.1 = true.

#[global] Instance key_le_dec (x y : string * Z) : Decision (key_le x y).
Proof. unfold key_le. apply _. Defined.

(** [json.MarshalIndent(s, "", "  ")]: the two tagged fields in order, the
    map as an object with its keys sorted, a nil map as [null]. The keys
    are sorted as they are in the map and then written as JSON strings,
    coerced to UTF-8; two keys that become the same text give two members
    of the same name. *)
Definition Marshal (s : PortState) : json :=
  JObject
    [ ("max_suffix", JInt (MaxSuffix s));
      ("projects",
        match Projects s with
        | None => JNull
        | Some m =>
            JObject (map (fun kv : string * Z =>
                            (utf8_coerce kv.1, JInt kv.2))
                       (merge_sort key_le (map_to_list m)))
        end) ].

(** Case folding of an object key, as [encoding/json] matches keys with
    field names: ASCII letters fold to lower case, and the long s (U+017F)
    and the Kelvin sign (U+212A) fold to s and k. The name of a member is
    folded as it stands in the text: a name with a byte that starts no
    rune folds to no field name, with that byte or with U+FFFD in its
    place. *)
Fixpoint fold_key (s : string) : string :=
  match s with
  | EmptyString => EmptyString
  | String a r1 =>
      if ((65 <=? code a) && (code a <=? 90))%N
      then String (ascii_of_N (code a + 32)) (fold_key r1)
      else match r1 with
           | EmptyString => s
           | String b r2 =>
               if ((code a =? 197) && (code b =? 191))%N
               then String "s"%char (fold_key r2)
               else match r2 with
                    | String c r3 =>
                        if ((code a =? 226) && (code b =? 132)
                            && (code c =? 170))%N
                        then String "k"%char (fold_key r3)
                        else String a (fold_key r1)
                    | EmptyString => String a (fold_key r1)
                    end
           end
  end.

Inductive field : Type := FMaxSuffix | FProjects.

Definition field_of_key (key : string) : option field :=
  if String.eqb (fold_key key) "max_suffix" then Some FMaxSuffix
  else if String.eqb (fold_key key) "projects" then Some FProjects
  else None.

(** Decoding a value into an [int] that holds [old]: [null] leaves it, an
    integer literal in range sets it, anything else is an error. *)
Definition store_int (v : json) (old : Z) : option Z :=
  match v with
  | JNull => Some old
  | JInt z => if in_int z then Some z else None
  | _ => None
  end.

(** Decoding the members of an object into a map, in order; each value is
    decoded into a zero element that is then stored under the key, the
    name of the member coerced to UTF-8. A later member of the same name
    replaces an earlier one. *)
Fixpoint store_entries (kvs : list (string * json)) (m : gmap string Z)
    : option (gmap string Z) :=
  match kvs with
  | [] => Some m
  | (k, v) :: rest =>
      match store_int v 0 with
      | Some z => store_entries rest (<[utf8_coerce k := z]> m)
      | None => None
      end
  end.

(** Decoding a value into the map field: [null] makes it nil, an object is
    decoded into the map already there (a fresh one when it is nil). *)
Definition store_projects (v : json) (old : option (gmap string Z))
    : option (option (gmap string Z)) :=
  match v with
  | JNull => Some None
  | JObject kvs =>
      match store_entries kvs (default ∅ old) with
      | Some m => Some (Some m)
      | None => None
      end
  | _ => None
  end.

Fixpoint store_fields (members : list (string * json)) (st : PortState)
    : option PortState :=
  match members with
  | [] => Some st
  | (k, v) :: rest =>
      match field_of_key k with
      | Some FMaxSuffix =>
          match store_int v (MaxSuffix st) with
          | Some z => store_fields rest (mkPortState z (Projects st))
          | None => None
          end
      | Some FProjects =>
          match store_projects v (Projects st) with
          | Some ps => store_fields rest (mkPortState (MaxSuffix st) ps)
          | None => None
          end
      | None => store_fields rest st
      end
  end.

(** [json.Unmarshal(data, state)] on well-formed JSON: [None] when it
    returns an error. [null] leaves the state as it is; only an object
    decodes into the struct. *)
Definition Unmarshal (doc : json) (state : PortState) : option PortState :=
  match doc with
  | JNull => Some state
  | JObject members => store_fields members state
  | _ => None
  end.

(** ** The world: state file, file system, working directory *)

(** The file at [getPortStatePath()]: the dot file in the home directory,
    or the path a test has put in its place. *)
Inductive StateFile : Type :=
  | PathError          (* the home directory cannot be determined *)
  | FileMissing        (* os.IsNotExist *)
  | FileUnreadable     (* any other read error *)
  | FileGarbage        (* content that is not JSON *)
  | FileJSON (doc : json).

(** What [os.Stat] answers for a path. *)
Inductive stat_result : Type := StatOk | StatNotExist | StatError.

(** How [os.WriteFile] on the state file will end: the content is written;
    the file cannot be opened for writing and stays as it is; or the write
    breaks off after the file was truncated, which leaves the beginning of
    a JSON text at most, never a whole one. *)
Inductive write_outcome : Type := WriteDone | WriteRefused | WriteTorn.

Record World : Type := mkWorld {
  stateFile : StateFile;
  onWrite : write_outcome;              (* os.WriteFile, state file *)
  cwd : option string;                  (* os.Getwd *)
  statOf : string -> stat_result;       (* os.Stat *)
  readFileOf : string -> option string  (* os.ReadFile, other files *)
}.

Definition with_stateFile (w : World) (f : StateFile) : World :=
  mkWorld f (onWrite w) (cwd w) (statOf w) (readFileOf w).

(** [filepath.Abs] *)
Definition Abs (w : World) (path : string) : result string :=
  if IsAbs path then Ok (Clean path)
  else match cwd w with
       | Some wd => Ok (Join wd path)
       | None => Err ErrGetwd
       end.

(** The state [loadPortState] starts from. *)
Definition emptyState : PortState := mkPortState 0 (Some ∅).

Definition loadPortState (w : World) : result (PortState * bool) :=
  match stateFile w with
  | PathError => Err ErrUserHomeDir
  | FileMissing => Ok (emptyState, false)
  | FileUnreadable => Err ErrReadFile
  | FileGarbage => Err ErrUnmarshal
  | FileJSON doc =>
      match Unmarshal doc emptyState with
      | Some state => Ok (state, true)
      | None => Err ErrUnmarshal
      end
  end.

(** [(s *PortState).save()]: the returned error and the world after. The
    whole file is replaced by the document of [s]. *)
Definition save (s : PortState) (w : World) : option error * World :=
  match stateFile w with
  | PathError => (Some ErrUserHomeDir, w)
  | _ =>
      match onWrite w with
      | WriteDone => (None, with_stateFile w (FileJSON (Marshal s)))
      | WriteRefused => (Some ErrWriteFile, w)
      | WriteTorn => (Some ErrWriteFile, with_stateFile w FileGarbage)
      end
  end.

(** ** Suffix allocator *)

Definition extractSuffixFromEnv (w : World) (envPath : string) : Z * bool :=
  match readFileOf w envPath with
  | None => (0, false)
  | Some content => scanEnvLines (splitLines content)
  end.

Definition getSuggestedSuffix (w : World) (projectDir : string)
    : result (Z * bool * bool) :=
  match loadPortState w with
  | Err e => Err e
  | Panic => Panic
  | Ok (state, existed) =>
      match Abs w projectDir with
      | Err e => Err e
      | Panic => Panic
      | Ok absDir =>
          (* 3. Suggest new allocation *)
          let fresh := Ok (int_add (MaxSuffix state) 1, false, existed) in
          (* 1. Try to find in state by project directory *)
          match project state absDir with
          | Some suffix => Ok (suffix, true, existed)
          | None =>
              (* 2. Try to find in .env if it exists *)
              let envPath := Join projectDir ".env" in
              match statOf w envPath with
              | StatOk =>
                  let (suffix, found) := extractSuffixFromEnv w envPath in
                  if found then Ok (suffix, true, existed) else fresh
              | _ => fresh
              end
          end
      end
  end.

Definition saveProjectSuffix (w : World) (projectDir : string) (suffix : Z)
    : result unit * World :=
  match loadPortState w with
  | Err e => (Err e, w)
  | Panic => (Panic, w)
  | Ok (state, _) =>
      match Abs w projectDir with
      | Err e => (Err e, w)
      | Panic => (Panic, w)
      | Ok absDir =>
          match Projects state with
          | None => (Panic, w)   (* assignment to entry in nil map *)
          | Some m =>
              let state' :=
                mkPortState
                  (if suffix >? MaxSuffix state then suffix
                   else MaxSuffix state)
                  (Some (<[absDir := suffix]> m)) in
              match save state' w with
              | (Some e, w') => (Err e, w')
              | (None, w') => (Ok tt, w')
              end
          end
      end
  end.

(** ** Collision checker *)

(** The loop of [isSuffixInUseByOther] over the entries as [range] visits
    them. *)
Fixpoint findOther (order : list (string * Z)) (absDir : string) (suffix : Z)
    : string * bool :=
  match order with
  | [] => ("", false)
  | (path, s) :: rest =>
      if (s =? suffix) && negb (String.eqb path absDir) then (path, true)
      else findOther rest absDir suffix
  end.

(** The order of a [range] over a Go map is not fixed: [order] is the one
    this call takes, an enumeration of the entries of the loaded map. *)
Definition isSuffixInUseByOther (w : World) (order : list (string * Z))
    (projectDir : string) (suffix : Z) : string * bool :=
  match loadPortState w with
  | Ok (state, _) =>
      match Abs w projectDir with
      | Ok absDir => findOther order absDir suffix
      | _ => ("", false)
      end
  | _ => ("", false)
  end.

(** [order] is a possible order of a [range] over the map of [st]. *)
Definition range_order (st : PortState) (order : list (string * Z)) : Prop :=
  order ≡ₚ entries st.

(** ** Registry maintenance *)

Definition isNotExist (r : stat_result) : bool :=
  match r with
  | StatNotExist => true
  | _ => false
  end.

(** The first loop of [CleanOrphanedProjects]: the paths [os.Stat] reports
    as not existing, in the order of the visit. *)
Definition orphans (w : World) (order : list (string * Z)) : list string :=
  filter (fun path => isNotExist (statOf w path) = true) (map fst order).

(** [delete(state.Projects, path)]; on a nil map it does nothing. *)
Definition delete_key (ps : option (gmap string Z)) (path : string)
    : option (gmap string Z) :=
  match ps with
  | Some m => Some (delete path m)
  | None => None
  end.

(** The second loop: the entry of every collected path is deleted. (The
    line it prints for each goes to standard output only.) *)
Definition deleteAll (removed : list string) (ps : option (gmap string Z))
    : option (gmap string Z) :=
  fold_left delete_key removed ps.

Definition CleanOrphanedProjects (w : World) (order : list (string * Z))
    : result Z * World :=
  match loadPortState w with
  | Err e => (Err e, w)
  | Panic => (Panic, w)
  | Ok (state, _) =>
      let removed := orphans w order in
      let state' :=
        mkPortState (MaxSuffix state) (deleteAll removed (Projects state)) in
      if (0 <? length removed)%nat
      then match save state' w with
           | (Some e, w') => (Err e, w')
           | (None, w') => (Ok (Z.of_nat (length removed)), w')
           end
      else (Ok (Z.of_nat (length removed)), w)
  end.

Definition RemoveProject (w : World) (projectDir : string)
    : result unit * World :=
  match loadPortState w with
  | Err e => (Err e, w)
  | Panic => (Panic, w)
  | Ok (state, _) =>
      match Abs w projectDir with
      | Err e => (Err e, w)
      | Panic => (Panic, w)
      | Ok absDir =>
          match project state absDir with
          | None => (Err (ErrNotRegistered absDir), w)
          | Some _ =>
              let state' :=
                mkPortState (MaxSuffix state)
                  (delete_key (Projects state) absDir) in
              match save state' w with
              | (Some e, w') => (Err e, w')
              | (None, w') => (Ok tt, w')
              end
          end
      end
  end.

(** ** Notions the properties are stated with *)

(** A registry of Go values: every integer in it is an [int]. *)
Definition wf_state (st : PortState) : Prop :=
  int_ok (MaxSuffix st) /\ forall k v, project st k = Some v -> int_ok v.

(** A registry whose keys are UTF-8 text, as every registry read from a
    JSON document is. *)
Definition utf8_state (st : PortState) : Prop :=
  forall k v, project st k = Some v -> valid_utf8 k.

(** The absolute path of [p] is UTF-8 text. *)
Definition utf8_dir (w : World) (p : string) : Prop :=
  forall absDir, Abs w p = Ok absDir -> valid_utf8 absDir.

(** A map as it reads back from the document [Marshal] writes for it: the
    entries in the order of their keys, each stored under its key coerced
    to UTF-8. *)
Definition read_back (m : gmap string Z) : gmap string Z :=
  fold_left (fun acc kv => <[utf8_coerce kv.1 := kv.2]> acc)
    (merge_sort key_le (map_to_list m)) ∅.

(** What one turn of the loop of [extractSuffixFromEnv] reads on a line:
    the integer scanned after "APP_PORT=", when the trimmed line starts with
    that key and the scan succeeds. *)
Definition app_port_value (line : string) : option Z :=
  if HasPrefix (TrimSpace line) "APP_PORT="
  then Sscanf_APP_PORT (TrimSpace line) else None.

(** [lines] recover suffix [s]: some line carries an APP_PORT value of at
    least 8000, [s] is that value minus 8000, and no line above it carries
    such a value. *)
Definition lines_recover (lines : list string) (s : Z) : Prop :=
  exists (i : nat) (line : string) (v : Z),
    lines !! i = Some line /\ app_port_value line = Some v
    /\ 8000 <= v /\ s = v - 8000
    /\ forall (j : nat) (line' : string) (v' : Z),
         (j < i)%nat -> lines !! j = Some line' ->
         app_port_value line' = Some v' -> v' < 8000.

(** Suffix [s] is recoverable from the environment file of [projectDir]:
    the file [.env] in it exists, can be read, and its lines recover [s]. *)
Definition env_recovers (w : World) (projectDir : string) (s : Z) : Prop :=
  statOf w (Join projectDir ".env") = StatOk
  /\ exists content,
       readFileOf w (Join projectDir ".env") = Some content
       /\ lines_recover (splitLines content) s.

(** The text of a sequence of decimal digits, and the number it denotes. *)
Definition digit_char (d : Z) : ascii := ascii_of_N (Z.to_N (48 + d)).

Definition digits_text (ds : list Z) : string :=
  string_of_list_ascii (map digit_char ds).

Definition digits_number (ds : list Z) : Z :=
  fold_left (fun acc d => 10 * acc + d) ds 0.

(** A run of white space as the scanner passes over it before a number:
    runes of white space, none of them a line feed. *)
Inductive blank_run : string -> Prop :=
  | blank_run_nil : blank_run ""
  | blank_run_1 (a : ascii) (r : string) :
      space1 a = true -> a <> LF -> blank_run r -> blank_run (String a r)
  | blank_run_2 (a b : ascii) (r : string) :
      space2 a b = true -> blank_run r ->
      blank_run (String a (String b r))
  | blank_run_3 (a b c : ascii) (r : string) :
      space3 a b c = true -> blank_run r ->
      blank_run (String a (String b (String c r))).

(** A text that does not start with a decimal digit. *)
Definition no_digit_first (s : string) : Prop :=
  match s with
  | EmptyString => True
  | String c _ => digit_value c = None
  end.

(** [number_text s v]: the text [s] is white space, an optional sign, and
    a run of decimal digits that ends where [s] ends or where a byte that
    is no digit follows; [v] is the number the digits denote, with the
    sign, and is an [int]. What follows the digits is free. *)
Definition number_text (s : string) (v : Z) : Prop :=
  exists (sp sg : string) (ds : list Z) (rest : string),
    s = sp ++ sg ++ digits_text ds ++ rest
    /\ blank_run sp
    /\ (sg = "" \/ sg = "+" \/ sg = "-")
    /\ ds <> [] /\ Forall (fun d => 0 <= d <= 9) ds
    /\ no_digit_first rest
    /\ v = (if String.eqb sg "-" then - digits_number ds
            else digits_number ds)
    /\ int_ok v.

(** A run of white space, as [strings.TrimSpace] takes it off the front of
    a line: runes of white space. *)
Inductive white_run : string -> Prop :=
  | white_run_nil : white_run ""
  | white_run_1 (a : ascii) (r : string) :
      space1 a = true -> white_run r -> white_run (String a r)
  | white_run_2 (a b : ascii) (r : string) :
      space2 a b = true -> white_run r ->
      white_run (String a (String b r))
  | white_run_3 (a b c : ascii) (r : string) :
      space3 a b c = true -> white_run r ->
      white_run (String a (String b (String c r))).

(** [reads line v]: the line is white space, then "APP_PORT=", then a text
    that denotes the number [v]. White space at the end of the line is
    part of what follows the digits. *)
Definition reads (line : string) (v : Z) : Prop :=
  exists l s,
    line = l ++ "APP_PORT=" ++ s /\ white_run l /\ number_text s v.

(** A byte of a rune of white space: a byte of ASCII white space, or a
    byte of a rune of several bytes. *)
Definition space_byte (c : ascii) : bool :=
  space1 c || (128 <=? code c)%N.

Definition space_bytes (t : string) : Prop :=
  Forall (fun c => space_byte c = true) (list_ascii_of_string t).

(** [recovers lines s]: some line reads a value of at least 8000, [s] is
    that value minus 8000, and no line above it reads such a value. *)
Definition recovers (lines : list string) (s : Z) : Prop :=
  exists (i : nat) (line : string) (v : Z),
    lines !! i = Some line /\ reads line v
    /\ 8000 <= v /\ s = v - 8000
    /\ forall (j : nat) (line' : string) (v' : Z),
         (j < i)%nat -> lines !! j = Some line' ->
         reads line' v' -> v' < 8000.

(** The reading of the claim: the value of a line is the whole decimal
    numeral that follows "APP_PORT=" at once and runs to the end of the
    line; the suffix is recovered from the first line whose value is at
    least 8000. *)
Definition claimed_value (line : string) : option Z :=
  if String.prefix "APP_PORT=" line
  then
    match list_ascii_of_string
            (String.substring 9 (String.length line - 9) line) with
    | [] => None
    | cs =>
        if forallb (fun c => (48 <=? code c) && (code c <=? 57))%N cs
        then Some (fold_left (fun acc c => 10 * acc + (Z.of_N (code c) - 48))
                     cs 0)
        else None
    end
  else None.

Fixpoint claimed_recover (lines : list string) : Z * bool :=
  match lines with
  | [] => (0, false)
  | line :: rest =>
      match claimed_value line with
      | Some v =>
          if 8000 <=? v then (v - 8000, true) else claimed_recover rest
      | None => claimed_recover rest
      end
  end.

(** What an operation leaves in the state file never lowers the high-water
    mark: the file is as it was, or a write broke off and left no registry
    at all, or it holds the document of a registry whose [MaxSuffix] is at
    least the one the operation loaded. *)
Definition hwm_not_lowered (w w' : World) : Prop :=
  stateFile w' = stateFile w
  \/ stateFile w' = FileGarbage
  \/ exists st existed st',
       loadPortState w = Ok (st, existed)
       /\ stateFile w' = FileJSON (Marshal st')
       /\ MaxSuffix st <= MaxSuffix st'.

(** Two directories whose names are not UTF-8 text: "/t/" followed by the
    byte 255, and by the byte 254. *)
Definition byteDir255 : string := "/t/" ++ String "255" "".
Definition byteDir254 : string := "/t/" ++ String "254" "".

(** A registry of two such directories. *)
Definition twoByteDirs : PortState :=
  mkPortState 2 (Some (<[byteDir255 := 1]> (<[byteDir254 := 2]> ∅))).

(** The registry of the collision scenario: "/a" holds 51, "/b" holds 52. *)
Definition twoProjects : PortState :=
  mkPortState 52 (Some (<["/a" := 51]> (<["/b" := 52]> ∅))).

(** Two concrete worlds. In [world0] the tool has never run: there is no
    state file and no project directory. In [worldTwo] the state file holds
    [twoProjects]; "/a" and "/c" exist, "/b" is gone, and "/c" has an
    environment file with the line APP_PORT=8051. *)
Definition world0 : World :=
  mkWorld FileMissing WriteDone (Some "/home/dev")
    (fun _ => StatNotExist) (fun _ => None).

Definition worldTwo : World :=
  mkWorld (FileJSON (Marshal twoProjects)) WriteDone (Some "/home/dev")
    (fun path =>
       if String.eqb path "/a" || String.eqb path "/c"
          || String.eqb path "/c/.env"
       then StatOk else StatNotExist)
    (fun path =>
       if String.eqb path "/c/.env" then Some "APP_PORT=8051" else None).

(** ** Listing the registry *)

(** [ProjectInfo] *)
Record ProjectInfo : Type := mkProjectInfo {
  Path : string;
  Suffix : Z;
  Exists : bool
}.

(** [ListProjects]: one entry per assignment, in the order [range] visits
    the map; a project exists unless [os.Stat] reports that it does not. *)
Definition ListProjects (w : World) (order : list (string * Z))
    : result (list ProjectInfo) :=
  match loadPortState w with
  | Err e => Err e
  | Panic => Panic
  | Ok (state, _) =>
      Ok (map (fun entry : string * Z =>
                 mkProjectInfo entry.1 entry.2
                   (if isNotExist (statOf w entry.1) then false else true))
            order)
  end.

(** ** Probing the ports of a suffix *)

(** [CheckPortAvailable]: [listen port] tells whether [net.Listen] on the
    port succeeds; the listener is closed at once. *)
Definition CheckPortAvailable (listen : Z -> bool) (port : Z) : bool :=
  if listen port then true else false.

(** [BusyPort] *)
Record BusyPort : Type := mkBusyPort {
  Name : string;
  Port : Z
}.

(** The table of [CheckSuffixPortsAvailable]: the seven ports of a suffix
    with their names, in the order they are checked. *)
Definition suffixPorts (suffix : Z) : list (string * Z) :=
  [ ("APP_PORT", int_add 8000 suffix);
    ("FORWARD_DB_PORT", int_add 3300 suffix);
    ("FORWARD_REDIS_PORT", int_add 6300 suffix);
    ("FORWARD_MEILISEARCH_PORT", int_add 7700 suffix);
    ("FORWARD_MAILPIT_DASHBOARD_PORT", int_add 18100 suffix);
    ("FORWARD_MAILPIT_PORT", int_add 1000 suffix);
    ("VITE_PORT", int_add 5100 suffix) ].

(** The loop of [CheckSuffixPortsAvailable] over the table. *)
Fixpoint busyPorts (listen : Z -> bool) (ports : list (string * Z))
    : list BusyPort :=
  match ports with
  | [] => []
  | (name, port) :: rest =>
      if negb (CheckPortAvailable listen port)
      then mkBusyPort name port :: busyPorts listen rest
      else busyPorts listen rest
  end.

Definition CheckSuffixPortsAvailable (listen : Z -> bool) (suffix : Z)
    : list BusyPort :=
  busyPorts listen (suffixPorts suffix).

(** The registry keeps its high-water mark above its assignments. *)
Definition hwm_covers (st : PortState) : Prop :=
  forall k v, project st k = Some v -> v <= MaxSuffix st.

(** ** Rewriting the environment file *)

(** [fmt.Sprintf("%d", n)]: the decimal numeral of [n], with a minus sign
    when it is negative. *)
Definition Sprintf_d (n : Z) : string :=
  DecimalString.NilZero.string_of_int (Z.to_int n).

(** [portKeys] *)
Definition portKeys : list string :=
  [ "APP_PORT"; "FORWARD_DB_PORT"; "FORWARD_REDIS_PORT";
    "FORWARD_MEILISEARCH_PORT"; "FORWARD_MAILPIT_DASHBOARD_PORT";
    "FORWARD_MAILPIT_PORT"; "VITE_PORT" ].

(** The entries of the map [coreUpdates]. *)
Definition coreUpdates : list (string * string) :=
  [ ("DB_CONNECTION", "mysql"); ("DB_HOST", "mysql"); ("DB_PORT", "3306");
    ("DB_DATABASE", "laravel"); ("DB_USERNAME", "sail");
    ("DB_PASSWORD", "password") ].

(** The seven lines of the port block, each with the value [portValues]
    holds for its key. *)
Definition portLines (suffix : Z) : list string :=
  [ "APP_PORT=" ++ Sprintf_d (int_add 8000 suffix);
    "FORWARD_DB_PORT=" ++ Sprintf_d (int_add 3300 suffix);
    "FORWARD_REDIS_PORT=" ++ Sprintf_d (int_add 6300 suffix);
    "FORWARD_MEILISEARCH_PORT=" ++ Sprintf_d (int_add 7700 suffix);
    "FORWARD_MAILPIT_DASHBOARD_PORT=" ++ Sprintf_d (int_add 18100 suffix);
    "FORWARD_MAILPIT_PORT=" ++ Sprintf_d (int_add 1000 suffix);
    "VITE_PORT=" ++ Sprintf_d (int_add 5100 suffix) ].

(** Whether a trimmed line is a port or debug entry to be dropped. *)
Definition isSkipKey (trimmedLine : string) : bool :=
  existsb (fun pk => HasPrefix trimmedLine (pk ++ "=")) portKeys
  || HasPrefix trimmedLine "SAIL_XDEBUG_MODE=".

(** The inner loop over [coreUpdates]: the first entry, in the order of
    this [range], whose key and "=" start the trimmed line. *)
Definition matchCore (order : list (string * string)) (trimmedLine : string)
    : option (string * string) :=
  List.find (fun kv => HasPrefix trimmedLine (kv.1 ++ "=")) order.

(** The first pass of [setupEnv] over the lines, from line number [i] on:
    port and debug entries are dropped; when the database settings are
    applied, a line that sets one of them is replaced and its key noted in
    [seen]; every other line is kept. [orders i] is the order the [range]
    over [coreUpdates] takes at line [i]. *)
Fixpoint firstPass (applyDbSettings : bool)
    (orders : nat -> list (string * string)) (i : nat) (lines : list string)
    (newLines : list string) (seen : gset string)
    : list string * gset string :=
  match lines with
  | [] => (newLines, seen)
  | line :: rest =>
      let trimmedLine := TrimSpace line in
      if isSkipKey trimmedLine
      then firstPass applyDbSettings orders (S i) rest newLines seen
      else
        match (if applyDbSettings then matchCore (orders i) trimmedLine
               else None) with
        | Some (key, val) =>
            firstPass applyDbSettings orders (S i) rest
              (newLines ++ [key ++ "=" ++ val]) ({[key]} ∪ seen)
        | None =>
            firstPass applyDbSettings orders (S i) rest
              (newLines ++ [line]) seen
        end
  end.

(** The loop that adds the database settings no line has set, in the
    order of its [range] over [coreUpdates]. *)
Fixpoint addMissing (order : list (string * string)) (seen : gset string)
    (newLines : list string) : list string :=
  match order with
  | [] => newLines
  | (key, val) :: rest =>
      if decide (key ∈ seen) then addMissing rest seen newLines
      else addMissing rest seen (newLines ++ [key ++ "=" ++ val])
  end.

(** Blank lines taken off the front of a list. *)
Fixpoint dropBlank (lines : list string) : list string :=
  match lines with
  | [] => []
  | line :: rest =>
      if String.eqb (TrimSpace line) "" then dropBlank rest else lines
  end.

(** The loop that removes the trailing empty lines. *)
Definition dropTrailingBlank (newLines : list string) : list string :=
  rev (dropBlank (rev newLines)).

(** The lines [setupEnv] keeps from the lines it has read, before the
    final block. *)
Definition envBody (applyDbSettings : bool)
    (orders : nat -> list (string * string)) (order2 : list (string * string))
    (lines : list string) : list string :=
  let (newLines, seen) := firstPass applyDbSettings orders 0 lines [] ∅ in
  dropTrailingBlank
    (if applyDbSettings then addMissing order2 seen newLines else newLines).

(** The final block: an empty line, the port settings, an empty line, and
    the debug mode. *)
Definition envBlock (suffix : Z) : list string :=
  [""] ++ portLines suffix
  ++ [""; "SAIL_XDEBUG_MODE=develop,debug,coverage"].

(** [strings.Join(newLines, "\n") + "\n"] *)
Definition joinLines (newLines : list string) : string :=
  String.concat (String LF "") newLines ++ String LF "".

(** A world in which [path] exists and reads as [data]; every other path
    is as in [w]. It builds the worlds of the examples and is no step of
    the program. *)
Definition with_file (w : World) (path data : string) : World :=
  mkWorld (stateFile w) (onWrite w) (cwd w)
    (fun p => if String.eqb p path then StatOk else statOf w p)
    (fun p => if String.eqb p path then Some data else readFileOf w p).

(** How another path stands to the file that [os.WriteFile] writes: it
    names the same file (another spelling of the path, a link to it); it
    runs through the file as through a directory, which [os.Stat] and
    [os.ReadFile] refuse with an error that is not [os.IsNotExist]; or it
    leads elsewhere. *)
Inductive standing : Type := SameFile | Below | Apart.

(** A file system in which every other path leads elsewhere. *)
Definition noLinks : string -> standing := fun _ => Apart.

(** A file system in which "/a/./.env" is another spelling of the path
    written, "/a/.env", and "/a/.env/x" runs through the file. *)
Definition aliasDot : string -> standing :=
  fun p => if String.eqb p "/a/./.env" then SameFile
           else if String.eqb p "/a/.env/x" then Below
           else Apart.

(** The world after [os.WriteFile] has written [data] to [path]: the file
    exists and reads as [data] under [path] and under every other path
    that names it; a path that runs through it is refused; the paths that
    lead elsewhere are as before. [place] tells how the other paths stand
    to the file. The state file is a file apart from those that
    [readFileOf] reads. *)
Definition written (w : World) (place : string -> standing)
    (path data : string) : World :=
  mkWorld (stateFile w) (onWrite w) (cwd w)
    (fun p => if String.eqb p path then StatOk
              else match place p with
                   | SameFile => StatOk
                   | Below => StatError
                   | Apart => statOf w p
                   end)
    (fun p => if String.eqb p path then Some data
              else match place p with
                   | SameFile => Some data
                   | Below => None
                   | Apart => readFileOf w p
                   end).

(** [os.WriteFile] on the environment file; [ok] tells whether it
    succeeds. What a failing write leaves in the file is not modelled: the
    world is handed back as it was. *)
Definition writeEnvFile (ok : bool) (w : World) (place : string -> standing)
    (path data : string) : option error * World :=
  if ok then (None, written w place path data)
  else (Some ErrWriteFile, w).

(** [setupEnv]. The lines it prints are output only. [createOk] and
    [writeOk] tell whether the write that creates the file and the write
    of the new text succeed; [place] tells how the other paths stand to
    the environment file; [orders] and [order2] are the orders of the [range]s
    over [coreUpdates]. *)
Definition setupEnv (w : World) (createOk writeOk : bool)
    (place : string -> standing)
    (orders : nat -> list (string * string)) (order2 : list (string * string))
    (projectDir : string) (suffix : Z) (resetDb : bool)
    : result unit * World :=
  let envPath := Join projectDir ".env" in
  let envExamplePath := Join projectDir ".env.example" in
  let created : option error * World * bool :=
    if isNotExist (statOf w envPath)
    then
      match statOf w envExamplePath with
      | StatOk =>
          match readFileOf w envExamplePath with
          | None => (Some ErrReadFile, w, true)
          | Some data =>
              (writeEnvFile createOk w place envPath data, true)
          end
      | _ => (writeEnvFile createOk w place envPath "", true)
      end
    else (None, w, false) in
  match created with
  | (Some e, w1, _) => (Err e, w1)
  | (None, w1, envCreated) =>
      match readFileOf w1 envPath with
      | None => (Err ErrReadFile, w1)
      | Some data =>
          let lines := splitLines data in
          let applyDbSettings := envCreated || resetDb in
          let newLines :=
            (envBody applyDbSettings orders order2 lines
             ++ envBlock suffix)%list in
          match writeEnvFile writeOk w1 place envPath
                  (joinLines newLines) with
          | (Some e, w2) => (Err e, w2)
          | (None, w2) => (Ok tt, w2)
          end
      end
  end.

(** The decimal digits of a numeral of the standard library. *)
Fixpoint uint_digits (u : Decimal.uint) : list Z :=
  match u with
  | Decimal.Nil => []
  | Decimal.D0 l => 0 :: uint_digits l
  | Decimal.D1 l => 1 :: uint_digits l
  | Decimal.D2 l => 2 :: uint_digits l
  | Decimal.D3 l => 3 :: uint_digits l
  | Decimal.D4 l => 4 :: uint_digits l
  | Decimal.D5 l => 5 :: uint_digits l
  | Decimal.D6 l => 6 :: uint_digits l
  | Decimal.D7 l => 7 :: uint_digits l
  | Decimal.D8 l => 8 :: uint_digits l
  | Decimal.D9 l => 9 :: uint_digits l
  end.

(** A line without a line feed in it. *)
Definition no_LF (line : string) : Prop :=
  Forall (fun c => c <> LF) (list_ascii_of_string line).

(** A line as [splitLines] hands it back: one carriage return taken off
    its end. *)
Definition chomp (line : string) : string :=
  close_line (rev (list_ascii_of_string line)).

(** A world for the environment file: the directory "/c" has a file
    [.env] with a setting of its own, two database settings, an old port
    entry and trailing blank lines. *)
Definition envWorld : World :=
  with_file world0 "/c/.env"
    ("APP_NAME=MyApp" ++ String LF "DB_HOST=postgres"
     ++ String LF "  APP_PORT=80" ++ String LF "DB_PORT=5432"
     ++ String LF "" ++ String LF "").

(** The order in which [coreUpdates] is written down. *)
Definition sourceOrder : nat -> list (string * string) :=
  fun _ => coreUpdates.

(** The entry a database setting gets: [fmt.Sprintf("%s=%s", key, val)]. *)
Definition setting (kv : string * string) : string := kv.1 ++ "=" ++ kv.2.

(** The test of the first pass: the trimmed line starts with the key and
    an equals sign. *)
Definition sets_key (line key : string) : bool :=
  HasPrefix (TrimSpace line) (key ++ "=").

(** What the first pass makes of one line when the [range] over
    [coreUpdates] runs in the order the source lists the entries: nothing
    for a port or debug entry, the new entry for a database setting that
    is applied, the line itself otherwise. *)
Definition rewriteLine (applyDbSettings : bool) (line : string)
    : option string :=
  if isSkipKey (TrimSpace line) then None
  else if applyDbSettings
       then match matchCore coreUpdates (TrimSpace line) with
            | Some kv => Some (setting kv)
            | None => Some line
            end
       else Some line.

(** The text [setupEnv] starts from: the environment file when there is
    one, else the example file when [os.Stat] finds it, else nothing. *)
Definition envSource (w : World) (projectDir : string) : option string :=
  if isNotExist (statOf w (Join projectDir ".env"))
  then match statOf w (Join projectDir ".env.example") with
       | StatOk => readFileOf w (Join projectDir ".env.example")
       | _ => Some ""
       end
  else readFileOf w (Join projectDir ".env").

(** Whether [setupEnv] applies the database settings. *)
Definition appliesDb (w : World) (projectDir : string) (resetDb : bool)
    : bool :=
  isNotExist (statOf w (Join projectDir ".env")) || resetDb.


(** ** Theorems *)

(** C3 (validate): [ValidateSuffix s] succeeds if and only if
    [0 <= s <= 47435]; every failure is a range error; 47435 passes while
    47436 and -1 fail. *)
Theorem ValidateSuffix_range :
  (forall s : Z, ValidateSuffix s = None <-> 0 <= s <= 47435)
  /\ (forall s e, ValidateSuffix s = Some e -> is_range_error e = true)
  /\ ValidateSuffix 47435 = None
  /\ ValidateSuffix 47436 = Some (ErrSuffixTooLarge 47436 65536)
  /\ ValidateSuffix (-1) = Some (ErrSuffixNegative (-1)).
Proof.
  split; [|split; [|repeat split]].
  - intros s. unfold ValidateSuffix, MaxPortSuffix.
    destruct (s <? 0) eqn:Hn; [split; [discriminate|lia]|].
    destruct (s >? 47435) eqn:Hg; [split; [discriminate|lia]|].
    split; [lia|reflexivity].
  - intros s e. unfold ValidateSuffix.
    destruct (s <? 0); [intros H; inversion H; reflexivity|].
    destruct (s >? MaxPortSuffix); intros H; inversion H; reflexivity.
Qed.

(** ** Integers *)

(** Goals about the bounds of [int]. *)
Ltac int_range := unfold int_ok, int_min, int_max in *; lia.

Lemma in_int_ok (z : Z) : in_int z = true <-> int_ok z.
Proof. unfold in_int, int_ok. rewrite andb_true_iff. lia. Qed.

Lemma wrap_int_ok (z : Z) : int_ok z -> wrap z = z.
Proof. intros H. unfold wrap. rewrite Z.mod_small; int_range. Qed.

Lemma int_add_succ (z : Z) : int_ok z -> z < int_max -> int_add z 1 = z + 1.
Proof. intros Hz Hlt. unfold int_add. apply wrap_int_ok. int_range. Qed.

(** At the largest [int] the addition wraps around. *)
Lemma int_add_wraps : int_add int_max 1 = int_min.
Proof. reflexivity. Qed.

Lemma int_sub_8000 (p : Z) : int_ok p -> 8000 <= p -> int_sub p 8000 = p - 8000.
Proof. intros Hp Hge. unfold int_sub. apply wrap_int_ok. int_range. Qed.

(** ** UTF-8 coercion *)

Section Utf8Steps.
Variables a b c d : ascii.
Variable r : string.

Lemma utf8_coerce_1 :
  utf8_seq1 a = true -> utf8_coerce (String a r) = String a (utf8_coerce r).
Proof. intros H. cbn [utf8_coerce]. by rewrite H. Qed.

Lemma utf8_coerce_2 :
  utf8_seq1 a = false -> utf8_seq2 a b = true ->
  utf8_coerce (String a (String b r)) = String a (String b (utf8_coerce r)).
Proof. intros H1 H2. cbn [utf8_coerce]. by rewrite H1, H2. Qed.

Lemma utf8_coerce_3 :
  utf8_seq1 a = false -> utf8_seq2 a b = false -> utf8_seq3 a b c = true ->
  utf8_coerce (String a (String b (String c r)))
  = String a (String b (String c (utf8_coerce r))).
Proof. intros H1 H2 H3. cbn [utf8_coerce]. by rewrite H1, H2, H3. Qed.

Lemma utf8_coerce_4 :
  utf8_seq1 a = false -> utf8_seq2 a b = false -> utf8_seq3 a b c = false ->
  utf8_seq4 a b c d = true ->
  utf8_coerce (String a (String b (String c (String d r))))
  = String a (String b (String c (String d (utf8_coerce r)))).
Proof. intros H1 H2 H3 H4. cbn [utf8_coerce]. by rewrite H1, H2, H3, H4. Qed.

End Utf8Steps.

(** The replacement character is a rune. *)
Lemma utf8_coerce_replacement (r : string) :
  utf8_coerce (String "239" (String "191" (String "189" r)))
  = String "239" (String "191" (String "189" (utf8_coerce r))).
Proof. by apply utf8_coerce_3. Qed.

(** What the coercion returns is UTF-8 text. *)
Lemma utf8_coerce_idem (s : string) :
  utf8_coerce (utf8_coerce s) = utf8_coerce s.
Proof.
  assert (forall n s, (String.length s <= n)%nat ->
            utf8_coerce (utf8_coerce s) = utf8_coerce s) as Hall;
    [|by apply (Hall (String.length s))].
  clear s. induction n as [|n IH]; intros s Hlen.
  - destruct s; [done|simpl in Hlen; lia].
  - destruct s as [|a r1]; [done|].
    assert (forall t, (String.length t <= String.length r1)%nat ->
              utf8_coerce (utf8_coerce t) = utf8_coerce t) as IH'.
    { intros t Ht. apply IH. simpl in Hlen. lia. }
    assert (utf8_coerce
              (String "239" (String "191" (String "189" (utf8_coerce r1))))
            = String "239" (String "191" (String "189" (utf8_coerce r1))))
      as Hbad.
    { rewrite utf8_coerce_replacement. by rewrite IH'. }
    destruct (utf8_seq1 a) eqn:H1.
    { rewrite (utf8_coerce_1 a r1 H1), (utf8_coerce_1 a _ H1).
      by rewrite IH'. }
    destruct r1 as [|b r2].
    { cbn [utf8_coerce]. rewrite H1. reflexivity. }
    destruct (utf8_seq2 a b) eqn:H2.
    { rewrite (utf8_coerce_2 a b r2 H1 H2), (utf8_coerce_2 a b _ H1 H2).
      rewrite IH'; [done|]. simpl. lia. }
    destruct r2 as [|c r3].
    { assert (utf8_coerce (String a (String b ""))
              = String "239" (String "191" (String "189"
                  (utf8_coerce (String b "")))))
        as -> by (cbn [utf8_coerce]; by rewrite H1, H2).
      exact Hbad. }
    destruct (utf8_seq3 a b c) eqn:H3.
    { rewrite (utf8_coerce_3 a b c r3 H1 H2 H3),
        (utf8_coerce_3 a b c _ H1 H2 H3).
      rewrite IH'; [done|]. simpl. lia. }
    destruct r3 as [|d r4].
    { assert (utf8_coerce (String a (String b (String c "")))
              = String "239" (String "191" (String "189"
                  (utf8_coerce (String b (String c ""))))))
        as -> by (cbn [utf8_coerce]; by rewrite H1, H2, H3).
      exact Hbad. }
    destruct (utf8_seq4 a b c d) eqn:H4.
    { rewrite (utf8_coerce_4 a b c d r4 H1 H2 H3 H4),
        (utf8_coerce_4 a b c d _ H1 H2 H3 H4).
      rewrite IH'; [done|]. simpl. lia. }
    assert (utf8_coerce (String a (String b (String c (String d r4))))
            = String "239" (String "191" (String "189"
                (utf8_coerce (String b (String c (String d r4)))))))
      as -> by (cbn [utf8_coerce]; by rewrite H1, H2, H3, H4).
    exact Hbad.
Qed.

Lemma valid_utf8_coerce (s : string) : valid_utf8 (utf8_coerce s).
Proof. apply utf8_coerce_idem. Qed.

(** ** The JSON document of a registry reads back as the registry *)

Lemma store_entries_ints (l : list (string * Z)) (m0 : gmap string Z) :
  Forall (fun kv => int_ok kv.2) l ->
  store_entries (map (fun kv : string * Z => (utf8_coerce kv.1, JInt kv.2)) l)
    m0
  = Some (fold_left (fun m kv => <[utf8_coerce kv.1 := kv.2]> m) l m0).
Proof.
  intros Hl. revert m0. induction Hl as [|[k v] l Hv _ IH]; intros m0.
  - reflexivity.
  - simpl in *. apply in_int_ok in Hv. rewrite Hv, utf8_coerce_idem.
    apply IH.
Qed.

Lemma fold_insert_list_to_map (l : list (string * Z)) (m0 : gmap string Z) :
  NoDup l.*1 ->
  fold_left (fun m kv => <[kv.1 := kv.2]> m) l m0 = list_to_map l ∪ m0.
Proof.
  revert m0. induction l as [|[k v] l IH]; intros m0 Hnd; simpl.
  - by rewrite (left_id_L ∅ (∪)).
  - apply NoDup_cons in Hnd as [Hk Hnd]. rewrite IH by done.
    rewrite <- insert_union_r, insert_union_l; [done|].
    by apply not_elem_of_list_to_map_1.
Qed.

Lemma sorted_entries_to_map (m : gmap string Z) :
  fold_left (fun m kv => <[kv.1 := kv.2]> m)
    (merge_sort key_le (map_to_list m)) ∅ = m.
Proof.
  pose proof (merge_sort_Permutation key_le (map_to_list m)) as Hp.
  assert (NoDup (merge_sort key_le (map_to_list m)).*1) as Hnd.
  { rewrite Hp. apply NoDup_fst_map_to_list. }
  rewrite fold_insert_list_to_map by done.
  rewrite (right_id_L ∅ (∪)).
  rewrite (list_to_map_proper _ (map_to_list m)) by done.
  apply list_to_map_to_list.
Qed.

(** A map whose keys are UTF-8 text reads back as it is. *)
Lemma read_back_valid (m : gmap string Z) :
  map_Forall (fun k _ => valid_utf8 k) m -> read_back m = m.
Proof.
  intros Hm. unfold read_back.
  rewrite <- (sorted_entries_to_map m) at 2.
  assert (Forall (fun kv : string * Z => valid_utf8 kv.1)
            (merge_sort key_le (map_to_list m))) as Hall.
  { apply Forall_forall. intros [k v] Hin. simpl.
    rewrite (merge_sort_Permutation key_le) in Hin.
    apply elem_of_map_to_list in Hin. by apply (Hm k v). }
  generalize (∅ : gmap string Z).
  induction Hall as [|[k v] l Hk _ IH]; intros m0; [done|].
  cbn [fold_left fst snd]. unfold valid_utf8 in Hk. simpl in Hk.
  rewrite Hk. apply IH.
Qed.

(** Every entry that is read back is an entry of the map, under its key
    coerced to UTF-8. *)
Lemma read_back_elem (m : gmap string Z) (k : string) (v : Z) :
  read_back m !! k = Some v ->
  exists k0, m !! k0 = Some v /\ utf8_coerce k0 = k.
Proof.
  unfold read_back.
  assert (forall (l : list (string * Z)) (m0 : gmap string Z),
            fold_left (fun acc kv => <[utf8_coerce kv.1 := kv.2]> acc) l m0
              !! k = Some v ->
            m0 !! k = Some v
            \/ exists k0, (k0, v) ∈ l /\ utf8_coerce k0 = k) as Hfold.
  { induction l as [|[k1 v1] l IH]; intros m0 H; [by left|].
    cbn [fold_left fst snd] in H. apply IH in H as [H|(k0 & Hin & Hk)].
    - destruct (decide (utf8_coerce k1 = k)) as [Heq|Hne].
      + rewrite Heq, lookup_insert_eq in H. injection H as ->.
        right. exists k1. split; [apply list_elem_of_here|done].
      + rewrite lookup_insert_ne in H by done. by left.
    - right. exists k0. split; [by apply list_elem_of_further|done]. }
  intros H. apply Hfold in H as [H|(k0 & Hin & Hk)]; [done|].
  exists k0. split; [|done].
  rewrite (merge_sort_Permutation key_le) in Hin.
  by apply elem_of_map_to_list.
Qed.

(** What [Unmarshal] makes of the document of a registry of Go values. *)
Lemma Unmarshal_Marshal_read_back (r : PortState) :
  wf_state r ->
  Unmarshal (Marshal r) emptyState
  = Some (mkPortState (MaxSuffix r) (read_back <$> Projects r)).
Proof.
  destruct r as [mx ps]. intros [Hmx Hps]. simpl in Hmx.
  cbn [Unmarshal Marshal store_fields MaxSuffix Projects].
  change (field_of_key "max_suffix") with (Some FMaxSuffix).
  change (field_of_key "projects") with (Some FProjects).
  cbn [store_int]. apply in_int_ok in Hmx. rewrite Hmx.
  cbn [store_fields emptyState MaxSuffix Projects].
  change (field_of_key "projects") with (Some FProjects).
  destruct ps as [m|]; cbn [store_projects default store_fields]; [|done].
  rewrite store_entries_ints; [done|].
  apply Forall_forall. intros [k v] Hin. simpl.
  apply (Hps k v). unfold project. simpl.
  apply elem_of_map_to_list.
  by rewrite <- (merge_sort_Permutation key_le).
Qed.

Lemma Unmarshal_Marshal (r : PortState) :
  wf_state r -> utf8_state r -> Unmarshal (Marshal r) emptyState = Some r.
Proof.
  intros Hwf Hutf. rewrite Unmarshal_Marshal_read_back by done.
  destruct r as [mx [m|]]; [|done]. cbn [MaxSuffix Projects fmap option_fmap
    option_map]. rewrite read_back_valid; [done|].
  intros k v Hkv. apply (Hutf k v). unfold project. by cbn [Projects].
Qed.

Lemma save_written (r : PortState) (w w' : World) :
  save r w = (None, w') -> stateFile w' = FileJSON (Marshal r).
Proof.
  unfold save. destruct (stateFile w), (onWrite w); by intros [= <-].
Qed.

Lemma load_after_save (r : PortState) (w w' : World) :
  wf_state r -> utf8_state r -> save r w = (None, w') ->
  loadPortState w' = Ok (r, true).
Proof.
  intros Hwf Hutf Hs. unfold loadPortState.
  rewrite (save_written r w w' Hs). by rewrite Unmarshal_Marshal.
Qed.

(** Whatever the keys, the registry that is read back has the high-water
    mark that was written and no assignment that was not written. *)
Lemma load_after_save_any (r : PortState) (w w' : World) :
  wf_state r -> save r w = (None, w') ->
  exists st',
    loadPortState w' = Ok (st', true)
    /\ MaxSuffix st' = MaxSuffix r
    /\ forall k v, project st' k = Some v ->
         exists k0, project r k0 = Some v /\ utf8_coerce k0 = k.
Proof.
  intros Hwf Hs. eexists. split; [|split].
  - unfold loadPortState. rewrite (save_written r w w' Hs).
    by rewrite Unmarshal_Marshal_read_back.
  - done.
  - unfold project. cbn [Projects]. destruct (Projects r) as [m|]; [|done].
    cbn [fmap option_fmap option_map]. apply read_back_elem.
Qed.

(** ** A loaded registry holds Go integers *)

Lemma store_int_ok (v : json) (old z : Z) :
  int_ok old -> store_int v old = Some z -> int_ok z.
Proof.
  intros Hold. destruct v; simpl; try discriminate.
  - by intros [= <-].
  - destruct (in_int z0) eqn:Hz; [|discriminate].
    intros [= <-]. by apply in_int_ok.
Qed.

Lemma store_entries_ok (kvs : list (string * json)) (m m' : gmap string Z) :
  map_Forall (fun _ v => int_ok v) m ->
  store_entries kvs m = Some m' ->
  map_Forall (fun _ v => int_ok v) m'.
Proof.
  revert m. induction kvs as [|[k v] kvs IH]; intros m Hm; simpl.
  - by intros [= <-].
  - destruct (store_int v 0) as [z|] eqn:Hz; [|discriminate].
    apply IH. apply map_Forall_insert_2; [|done].
    apply (store_int_ok v 0 z); [int_range|done].
Qed.

Lemma wf_state_intro (mx : Z) (ps : option (gmap string Z)) :
  int_ok mx ->
  (forall m, ps = Some m -> map_Forall (fun _ v => int_ok v) m) ->
  wf_state (mkPortState mx ps).
Proof.
  intros Hmx Hps. split; [done|]. unfold project. simpl.
  destruct ps as [m|]; [|discriminate].
  intros k v Hkv. by apply (Hps m eq_refl k v).
Qed.

Lemma wf_state_elim (st : PortState) (m : gmap string Z) :
  wf_state st -> Projects st = Some m -> map_Forall (fun _ v => int_ok v) m.
Proof.
  intros [_ Hps] Hm k v Hkv. apply (Hps k v). unfold project. by rewrite Hm.
Qed.

Lemma store_fields_wf (members : list (string * json)) (st st' : PortState) :
  wf_state st -> store_fields members st = Some st' -> wf_state st'.
Proof.
  revert st. induction members as [|[k v] members IH]; intros st Hwf; simpl.
  - by intros [= <-].
  - destruct (field_of_key k) as [[]|]; [| |by apply IH].
    + destruct (store_int v (MaxSuffix st)) as [z|] eqn:Hz; [|discriminate].
      apply IH. apply wf_state_intro.
      * eapply store_int_ok; [apply Hwf|done].
      * intros m Hm. by apply (wf_state_elim st).
    + destruct (store_projects v (Projects st)) as [ps|] eqn:Hps;
        [|discriminate].
      apply IH. apply wf_state_intro; [apply Hwf|].
      intros m ->. destruct v; simpl in Hps; try discriminate.
      destruct (store_entries members0 (default ∅ (Projects st)))
        as [m1|] eqn:Hm1; [|discriminate].
      injection Hps as ->.
      eapply store_entries_ok; [|done].
      destruct (Projects st) as [m0|] eqn:Hm0; simpl.
      * by apply (wf_state_elim st).
      * apply map_Forall_empty.
Qed.

Lemma emptyState_wf : wf_state emptyState.
Proof.
  apply wf_state_intro; [int_range|].
  intros m [= <-]. apply map_Forall_empty.
Qed.

Lemma loadPortState_wf (w : World) (st : PortState) (existed : bool) :
  loadPortState w = Ok (st, existed) -> wf_state st.
Proof.
  unfold loadPortState. destruct (stateFile w) as [| | | |doc];
    try discriminate.
  - intros [= <- _]. apply emptyState_wf.
  - destruct (Unmarshal doc emptyState) as [st0|] eqn:Hu; [|discriminate].
    intros [= <- _]. destruct doc; simpl in Hu; try discriminate.
    + injection Hu as <-. apply emptyState_wf.
    + apply (store_fields_wf members emptyState); [apply emptyState_wf|done].
Qed.

(** ** A loaded registry has keys that are UTF-8 text *)

Lemma store_entries_utf8 (kvs : list (string * json)) (m m' : gmap string Z) :
  map_Forall (fun k _ => valid_utf8 k) m ->
  store_entries kvs m = Some m' ->
  map_Forall (fun k _ => valid_utf8 k) m'.
Proof.
  revert m. induction kvs as [|[k v] kvs IH]; intros m Hm; simpl.
  - by intros [= <-].
  - destruct (store_int v 0) as [z|] eqn:Hz; [|discriminate].
    apply IH. apply map_Forall_insert_2; [|done].
    apply valid_utf8_coerce.
Qed.

Lemma utf8_state_intro (mx : Z) (ps : option (gmap string Z)) :
  (forall m, ps = Some m -> map_Forall (fun k _ => valid_utf8 k) m) ->
  utf8_state (mkPortState mx ps).
Proof.
  intros Hps k v. unfold project. simpl.
  destruct ps as [m|]; [|discriminate].
  intros Hkv. by apply (Hps m eq_refl k v).
Qed.

Lemma utf8_state_elim (st : PortState) (m : gmap string Z) :
  utf8_state st -> Projects st = Some m ->
  map_Forall (fun k _ => valid_utf8 k) m.
Proof.
  intros Hps Hm k v Hkv. apply (Hps k v). unfold project. by rewrite Hm.
Qed.

Lemma store_fields_utf8 (members : list (string * json))
    (st st' : PortState) :
  utf8_state st -> store_fields members st = Some st' -> utf8_state st'.
Proof.
  revert st. induction members as [|[k v] members IH]; intros st Hwf; simpl.
  - by intros [= <-].
  - destruct (field_of_key k) as [[]|]; [| |by apply IH].
    + destruct (store_int v (MaxSuffix st)) as [z|] eqn:Hz; [|discriminate].
      apply IH. apply utf8_state_intro.
      intros m Hm. by apply (utf8_state_elim st).
    + destruct (store_projects v (Projects st)) as [ps|] eqn:Hps;
        [|discriminate].
      apply IH. apply utf8_state_intro.
      intros m ->. destruct v; simpl in Hps; try discriminate.
      destruct (store_entries members0 (default ∅ (Projects st)))
        as [m1|] eqn:Hm1; [|discriminate].
      injection Hps as ->.
      eapply store_entries_utf8; [|done].
      destruct (Projects st) as [m0|] eqn:Hm0; simpl.
      * by apply (utf8_state_elim st).
      * apply map_Forall_empty.
Qed.

Lemma emptyState_utf8 : utf8_state emptyState.
Proof.
  apply utf8_state_intro. intros m [= <-]. apply map_Forall_empty.
Qed.

Lemma loadPortState_utf8 (w : World) (st : PortState) (existed : bool) :
  loadPortState w = Ok (st, existed) -> utf8_state st.
Proof.
  unfold loadPortState. destruct (stateFile w) as [| | | |doc];
    try discriminate.
  - intros [= <- _]. apply emptyState_utf8.
  - destruct (Unmarshal doc emptyState) as [st0|] eqn:Hu; [|discriminate].
    intros [= <- _]. destruct doc; simpl in Hu; try discriminate.
    + injection Hu as <-. apply emptyState_utf8.
    + apply (store_fields_utf8 members emptyState);
        [apply emptyState_utf8|done].
Qed.

Lemma loadPortState_not_Panic (w : World) : loadPortState w <> Panic.
Proof.
  unfold loadPortState. destruct (stateFile w); try discriminate.
  destruct (Unmarshal doc emptyState); discriminate.
Qed.

(** ** The scan of the environment file *)

Lemma scanInt_ok (s : string) (p : Z) : scanInt s = Some p -> int_ok p.
Proof.
  unfold scanInt. destruct (SkipSpace s) as [s1|]; [|discriminate].
  destruct (match s1 with
            | String c rest =>
                if Ascii.eqb c "+"%char then (false, rest)
                else if Ascii.eqb c "-"%char then (true, rest)
                else (false, s1)
            | EmptyString => (false, s1)
            end) as [neg s2].
  destruct (scan_digits s2 0 false) as [v|]; [|discriminate].
  destruct (in_int (if neg then - v else v)) eqn:Hi; [|discriminate].
  intros [= <-]. by apply in_int_ok.
Qed.

Lemma app_port_value_ok (line : string) (p : Z) :
  app_port_value line = Some p -> int_ok p.
Proof.
  unfold app_port_value, Sscanf_APP_PORT.
  destruct (HasPrefix (TrimSpace line) "APP_PORT="); [|discriminate].
  destruct (strip_prefix "APP_PORT=" (TrimSpace line)); [|discriminate].
  apply scanInt_ok.
Qed.

(** One turn of the loop, in terms of the value read on the line. *)
Lemma scanEnvLines_cons (line : string) (rest : list string) :
  scanEnvLines (line :: rest)
  = match app_port_value line with
    | Some p => if 8000 <=? p then (p - 8000, true) else scanEnvLines rest
    | None => scanEnvLines rest
    end.
Proof.
  cbn [scanEnvLines]. unfold app_port_value.
  destruct (HasPrefix (TrimSpace line) "APP_PORT=") eqn:Hp; [|done].
  destruct (Sscanf_APP_PORT (TrimSpace line)) as [p|] eqn:Hs; [|done].
  destruct (8000 <=? p) eqn:Hge; [|done].
  rewrite int_sub_8000; [done| |lia].
  apply (app_port_value_ok line). unfold app_port_value. by rewrite Hp.
Qed.

Lemma lines_recover_nil (s : Z) : ~ lines_recover [] s.
Proof. intros (i & line & v & Hi & _). by rewrite lookup_nil in Hi. Qed.

Lemma lines_recover_here (line : string) (rest : list string) (p : Z) :
  app_port_value line = Some p -> 8000 <= p ->
  forall s, lines_recover (line :: rest) s <-> s = p - 8000.
Proof.
  intros Hv Hge s. split.
  - intros (i & line' & v & Hi & Hv' & Hge' & -> & Hfirst).
    destruct i as [|i].
    + simpl in Hi. injection Hi as <-. congruence.
    + specialize (Hfirst 0%nat line p). simpl in Hfirst.
      assert (p < 8000) by (apply Hfirst; [lia|done|done]). lia.
  - intros ->. exists 0%nat, line, p. repeat split; try done. lia.
Qed.

Lemma lines_recover_skip (line : string) (rest : list string) :
  (forall p, app_port_value line = Some p -> p < 8000) ->
  forall s, lines_recover (line :: rest) s <-> lines_recover rest s.
Proof.
  intros Hlow s. split.
  - intros (i & line' & v & Hi & Hv' & Hge' & -> & Hfirst).
    destruct i as [|i].
    + simpl in Hi. injection Hi as <-. apply Hlow in Hv'. lia.
    + exists i, line', v. repeat split; try done.
      intros j l' v' Hj Hl' Hv''. apply (Hfirst (S j) l' v'); [lia|done|done].
  - intros (i & line' & v & Hi & Hv' & Hge' & -> & Hfirst).
    exists (S i), line', v. repeat split; try done.
    intros [|j] l' v' Hj Hl' Hv''.
    + simpl in Hl'. injection Hl' as <-. by apply Hlow.
    + apply (Hfirst j l' v'); [lia|done|done].
Qed.

(** The loop returns [(s, true)] exactly for the suffix the lines recover,
    and [(0, false)] when they recover none. *)
Lemma scanEnvLines_recover (lines : list string) :
  (exists s, scanEnvLines lines = (s, true)
             /\ forall s', lines_recover lines s' <-> s' = s)
  \/ (scanEnvLines lines = (0, false) /\ forall s', ~ lines_recover lines s').
Proof.
  induction lines as [|line rest IH].
  - right. split; [done|]. apply lines_recover_nil.
  - rewrite scanEnvLines_cons.
    destruct (app_port_value line) as [p|] eqn:Hv.
    + destruct (8000 <=? p) eqn:Hge.
      * left. exists (p - 8000). split; [done|].
        apply lines_recover_here; [done|lia].
      * assert (forall q, Some p = Some q -> q < 8000) as Hlow
          by (intros q [= <-]; lia).
        destruct IH as [(s & Hs & Hiff)|[Hnone Hno]].
        -- left. exists s. split; [done|]. intros s'.
           rewrite <- Hv in Hlow.
           by rewrite (lines_recover_skip line rest Hlow s').
        -- right. split; [done|]. intros s'.
           rewrite <- Hv in Hlow.
           rewrite (lines_recover_skip line rest Hlow s'). apply Hno.
    + assert (forall q, app_port_value line = Some q -> q < 8000) as Hlow
        by (intros q Hq; congruence).
      destruct IH as [(s & Hs & Hiff)|[Hnone Hno]].
      * left. exists s. split; [done|]. intros s'.
        by rewrite (lines_recover_skip line rest Hlow s').
      * right. split; [done|]. intros s'.
        rewrite (lines_recover_skip line rest Hlow s'). apply Hno.
Qed.

(** ** A decimal numeral after the key is read as its number *)

Lemma digit_cases (d : Z) :
  0 <= d <= 9 ->
  d = 0 \/ d = 1 \/ d = 2 \/ d = 3 \/ d = 4
  \/ d = 5 \/ d = 6 \/ d = 7 \/ d = 8 \/ d = 9.
Proof. lia. Qed.

Ltac each_digit d H :=
  apply digit_cases in H;
  destruct H as [->|[->|[->|[->|[->|[->|[->|[->|[->| ->]]]]]]]]].

Lemma digit_value_char (d : Z) :
  0 <= d <= 9 -> digit_value (digit_char d) = Some d.
Proof. intros H. each_digit d H; reflexivity. Qed.

Lemma scan_digits_text (ds : list Z) (acc : Z) (seen : bool) :
  Forall (fun d => 0 <= d <= 9) ds ->
  ds <> [] \/ seen = true ->
  scan_digits (digits_text ds) acc seen
  = Some (fold_left (fun a d => 10 * a + d) ds acc).
Proof.
  intros Hds. revert acc seen.
  induction Hds as [|d ds Hd _ IH]; intros acc seen Hne.
  - destruct Hne as [Hne| ->]; [done|reflexivity].
  - unfold digits_text. cbn [map string_of_list_ascii scan_digits].
    rewrite (digit_value_char d Hd). cbn [fold_left].
    apply IH. by right.
Qed.

Lemma SkipSpace_digit (d : Z) (rest : string) :
  0 <= d <= 9 ->
  SkipSpace (String (digit_char d) rest) = Some (String (digit_char d) rest).
Proof.
  intros H. each_digit d H; destruct rest as [|b [|c r]]; reflexivity.
Qed.

Lemma scanInt_digits (ds : list Z) :
  ds <> [] -> Forall (fun d => 0 <= d <= 9) ds ->
  digits_number ds <= int_max ->
  scanInt (digits_text ds) = Some (digits_number ds).
Proof.
  intros Hne Hds Hmax.
  assert (forall l a, Forall (fun d => 0 <= d <= 9) l -> 0 <= a ->
            0 <= fold_left (fun a d => 10 * a + d) l a) as Hpos.
  { induction l as [|x l IHl]; intros a Hl Ha; [done|].
    apply Forall_cons in Hl as [Hx Hl]. simpl. apply IHl; [done|lia]. }
  assert (in_int (digits_number ds) = true) as Hin.
  { apply in_int_ok. split; [|done].
    transitivity 0; [int_range|]. apply Hpos; [done|lia]. }
  destruct ds as [|d ds]; [done|].
  pose proof (scan_digits_text (d :: ds) 0 false Hds (or_introl Hne)) as Hscan.
  apply Forall_cons in Hds as [Hd Hds].
  unfold scanInt, digits_text in *. cbn [map string_of_list_ascii] in *.
  rewrite (SkipSpace_digit d _ Hd).
  assert ((if Ascii.eqb (digit_char d) "+"
           then (false, string_of_list_ascii (map digit_char ds))
           else if Ascii.eqb (digit_char d) "-"
                then (true, string_of_list_ascii (map digit_char ds))
                else (false, String (digit_char d)
                               (string_of_list_ascii (map digit_char ds))))
          = (false, String (digit_char d)
                      (string_of_list_ascii (map digit_char ds)))) as ->.
  { each_digit d Hd; reflexivity. }
  rewrite Hscan. fold (digits_number (d :: ds)). by rewrite Hin.
Qed.

Lemma rev_string_app (s t : string) :
  rev_string (s ++ t) = rev_string t ++ rev_string s.
Proof.
  unfold rev_string.
  assert (forall a b, list_ascii_of_string (a ++ b)
            = (list_ascii_of_string a ++ list_ascii_of_string b)%list) as Happ.
  { induction a as [|c a IHa]; intros b; simpl; [done|]. by rewrite IHa. }
  assert (forall a b, string_of_list_ascii (a ++ b)%list
            = string_of_list_ascii a ++ string_of_list_ascii b) as Hsapp.
  { induction a as [|c a IHa]; intros b; simpl; [done|]. by rewrite IHa. }
  by rewrite Happ, rev_app_distr, Hsapp.
Qed.

Lemma rev_string_involutive (s : string) : rev_string (rev_string s) = s.
Proof.
  unfold rev_string.
  rewrite list_ascii_of_string_of_list_ascii, rev_involutive.
  apply string_of_list_ascii_of_string.
Qed.

Lemma TrimRightSpace_digit_end (s : string) (d : Z) :
  0 <= d <= 9 ->
  TrimRightSpace (s ++ String (digit_char d) "")
  = s ++ String (digit_char d) "".
Proof.
  intros H. unfold TrimRightSpace. rewrite rev_string_app.
  change (rev_string (String (digit_char d) ""))
    with (String (digit_char d) "").
  change (String (digit_char d) "" ++ rev_string s)
    with (String (digit_char d) (rev_string s)).
  assert (trim_front space1 (fun a b => space2 b a)
            (fun a b c => space3 c b a)
            (String (digit_char d) (rev_string s))
          = String (digit_char d) (rev_string s)) as ->.
  { each_digit d H; destruct (rev_string s) as [|b [|c r]];
      cbn [trim_front]; unfold space1, space2, space3;
      cbn [digit_char code N_of_ascii];
      rewrite ?andb_false_r, ?orb_false_r; reflexivity. }
  rewrite <- (rev_string_involutive (s ++ String (digit_char d) "")).
  by rewrite rev_string_app.
Qed.

Lemma digits_text_snoc (ds : list Z) (d : Z) :
  digits_text (ds ++ [d]) = digits_text ds ++ String (digit_char d) "".
Proof.
  unfold digits_text. induction ds as [|x ds IH]; simpl; [done|].
  by rewrite IH.
Qed.

(** The line "APP_PORT=" followed by a decimal numeral carries the number
    the numeral denotes. *)
Lemma app_port_value_digits (ds : list Z) :
  ds <> [] -> Forall (fun d => 0 <= d <= 9) ds ->
  digits_number ds <= int_max ->
  app_port_value ("APP_PORT=" ++ digits_text ds) = Some (digits_number ds).
Proof.
  intros Hne Hds Hmax. unfold app_port_value, TrimSpace.
  assert (TrimLeftSpace ("APP_PORT=" ++ digits_text ds)
          = "APP_PORT=" ++ digits_text ds) as -> by reflexivity.
  assert (TrimRightSpace ("APP_PORT=" ++ digits_text ds)
          = "APP_PORT=" ++ digits_text ds) as ->.
  { destruct (exists_last Hne) as (ds' & d & ->).
    apply Forall_app in Hds as [_ Hd]. apply Forall_cons in Hd as [Hd _].
    rewrite digits_text_snoc.
    change ("APP_PORT=" ++ digits_text ds' ++ String (digit_char d) "")
      with (("APP_PORT=" ++ digits_text ds') ++ String (digit_char d) "").
    by apply TrimRightSpace_digit_end. }
  assert (HasPrefix ("APP_PORT=" ++ digits_text ds) "APP_PORT=" = true)
    as -> by (unfold HasPrefix; simpl; by destruct (digits_text ds)).
  change (Sscanf_APP_PORT ("APP_PORT=" ++ digits_text ds))
    with (scanInt (digits_text ds)).
  by apply scanInt_digits.
Qed.

(** ** The suffix allocator *)

Lemma save_keeps_env (r : PortState) (w w' : World) (e : option error) :
  save r w = (e, w') ->
  onWrite w' = onWrite w /\ cwd w' = cwd w
  /\ statOf w' = statOf w /\ readFileOf w' = readFileOf w.
Proof.
  unfold save, with_stateFile.
  destruct (stateFile w); destruct (onWrite w) eqn:Hw;
    intros H; inversion H; by subst.
Qed.

Lemma Abs_same_cwd (w w' : World) (p : string) :
  cwd w' = cwd w -> Abs w' p = Abs w p.
Proof. unfold Abs. by intros ->. Qed.

Lemma env_recovers_same (w w' : World) (p : string) (s : Z) :
  statOf w' = statOf w -> readFileOf w' = readFileOf w ->
  env_recovers w' p s <-> env_recovers w p s.
Proof. unfold env_recovers. by intros -> ->. Qed.

(** For a directory that is not registered, [getSuggestedSuffix] returns
    the suffix recoverable from the environment file when there is one,
    and the fresh suffix when there is none. *)
Lemma getSuggestedSuffix_unregistered (w : World) (p absDir : string)
    (state : PortState) (existed : bool) :
  loadPortState w = Ok (state, existed) -> Abs w p = Ok absDir ->
  project state absDir = None ->
  (exists s, getSuggestedSuffix w p = Ok (s, true, existed)
             /\ forall s', env_recovers w p s' <-> s' = s)
  \/ (getSuggestedSuffix w p
      = Ok (int_add (MaxSuffix state) 1, false, existed)
      /\ forall s', ~ env_recovers w p s').
Proof.
  intros Hl Ha Hp. unfold getSuggestedSuffix. rewrite Hl, Ha, Hp.
  unfold env_recovers, extractSuffixFromEnv. cbv zeta.
  destruct (statOf w (Join p ".env")) eqn:Hstat;
    try (right; split; [done|]; by intros s' [? _]).
  destruct (readFileOf w (Join p ".env")) as [content|] eqn:Hread.
  - destruct (scanEnvLines_recover (splitLines content))
      as [(s & Hs & Hiff)|[Hnone Hno]].
    + left. exists s. rewrite Hs. split; [done|].
      intros s'. rewrite <- Hiff. split.
      * by intros (_ & c & [= <-] & Hc).
      * intros Hc. split; [done|]. by exists content.
    + right. rewrite Hnone. split; [done|].
      intros s' (_ & c & [= <-] & Hc). by apply (Hno s').
  - right. split; [done|]. by intros s' (_ & c & Hc & _).
Qed.

Lemma getSuggestedSuffix_registered (w : World) (p absDir : string)
    (state : PortState) (existed : bool) (s : Z) :
  loadPortState w = Ok (state, existed) -> Abs w p = Ok absDir ->
  project state absDir = Some s ->
  getSuggestedSuffix w p = Ok (s, true, existed).
Proof. intros Hl Ha Hp. unfold getSuggestedSuffix. by rewrite Hl, Ha, Hp. Qed.


Lemma getSuggestedSuffix_fresh (w : World) (p absDir : string)
    (state : PortState) (existed : bool) :
  loadPortState w = Ok (state, existed) -> Abs w p = Ok absDir ->
  project state absDir = None -> (forall s, ~ env_recovers w p s) ->
  getSuggestedSuffix w p = Ok (int_add (MaxSuffix state) 1, false, existed).
Proof.
  intros Hl Ha Hp Hno.
  destruct (getSuggestedSuffix_unregistered w p absDir state existed Hl Ha Hp)
    as [(s0 & Hs0 & Hiff)|[Hfresh _]]; [|done].
  destruct (Hno s0). by apply Hiff.
Qed.


(** ** Confirming an assignment *)

Lemma save_succeeds (r : PortState) (w : World) :
  stateFile w <> PathError -> onWrite w = WriteDone ->
  save r w = (None, with_stateFile w (FileJSON (Marshal r))).
Proof. intros Hf Hw. unfold save. rewrite Hw. by destruct (stateFile w). Qed.

Lemma save_failed (r : PortState) (w w' : World) (e : error) :
  save r w = (Some e, w') ->
  stateFile w' = stateFile w \/ stateFile w' = FileGarbage.
Proof.
  unfold save, with_stateFile.
  destruct (stateFile w) eqn:Hf; destruct (onWrite w);
    intros H; inversion H; subst; cbn [stateFile];
    (by left) || (by right).
Qed.

Lemma loaded_path_ok (w : World) (st : PortState) (existed : bool) :
  loadPortState w = Ok (st, existed) -> stateFile w <> PathError.
Proof. unfold loadPortState. by destruct (stateFile w). Qed.

(** The successful runs of [saveProjectSuffix]. *)
Lemma saveProjectSuffix_ok (w w' : World) (p : string) (s : Z) :
  saveProjectSuffix w p s = (Ok tt, w') ->
  exists state existed absDir m,
    loadPortState w = Ok (state, existed) /\ Abs w p = Ok absDir
    /\ Projects state = Some m
    /\ save (mkPortState
               (if s >? MaxSuffix state then s else MaxSuffix state)
               (Some (<[absDir := s]> m))) w = (None, w').
Proof.
  unfold saveProjectSuffix.
  destruct (loadPortState w) as [[state existed]|e|] eqn:Hl;
    try discriminate.
  destruct (Abs w p) as [absDir|e|] eqn:Ha; try discriminate.
  destruct (Projects state) as [m|] eqn:Hm; try discriminate.
  destruct (save _ w) as [[e|] w1] eqn:Hs; try discriminate.
  intros [= <-]. by exists state, existed, absDir, m.
Qed.

Lemma saved_state_wf (state : PortState) (m : gmap string Z)
    (absDir : string) (s : Z) :
  wf_state state -> Projects state = Some m -> int_ok s ->
  wf_state (mkPortState (if s >? MaxSuffix state then s else MaxSuffix state)
              (Some (<[absDir := s]> m))).
Proof.
  intros Hwf Hm Hs. apply wf_state_intro.
  - destruct (s >? MaxSuffix state); [done|apply Hwf].
  - intros m' [= <-]. apply map_Forall_insert_2; [done|].
    by apply (wf_state_elim state).
Qed.

Lemma saved_state_utf8 (state : PortState) (m : gmap string Z)
    (absDir : string) (s mx : Z) :
  utf8_state state -> Projects state = Some m -> valid_utf8 absDir ->
  utf8_state (mkPortState mx (Some (<[absDir := s]> m))).
Proof.
  intros Hutf Hm Ha. apply utf8_state_intro.
  intros m' [= <-]. apply map_Forall_insert_2; [done|].
  by apply (utf8_state_elim state).
Qed.

Lemma utf8_dir_Abs (w : World) (p absDir : string) :
  Abs w p = Ok absDir -> valid_utf8 absDir -> utf8_dir w p.
Proof. intros Ha Hv a Ha'. rewrite Ha in Ha'. by injection Ha' as <-. Qed.

(** C2 (confirm, then suggest): after a successful
    [saveProjectSuffix p s] the state file holds the document of a
    registry whose [MaxSuffix] is at least [s], and the registry that loads
    from it has a [MaxSuffix] of at least [s] too; when the absolute path
    of [p] is UTF-8 text, [getSuggestedSuffix p] then returns [s] as an
    existing assignment of an existing registry. Starting with no state
    file, saving 48 for "/a" succeeds, after which "/a" is suggested
    [(48, true, true)] and an unregistered "/b" with nothing recoverable
    [(49, false, true)]. *)
Theorem saveProjectSuffix_then_suggest :
  (forall (w w' : World) (p : string) (s : Z),
      int_ok s -> saveProjectSuffix w p s = (Ok tt, w') ->
      (exists onFile st',
         stateFile w' = FileJSON (Marshal onFile)
         /\ s <= MaxSuffix onFile
         /\ loadPortState w' = Ok (st', true)
         /\ s <= MaxSuffix st')
      /\ (utf8_dir w p ->
          getSuggestedSuffix w' p = Ok (s, true, true)))
  /\ (forall w : World,
        stateFile w = FileMissing -> onWrite w = WriteDone ->
        exists w',
          saveProjectSuffix w "/a" 48 = (Ok tt, w')
          /\ getSuggestedSuffix w' "/a" = Ok (48, true, true)
          /\ ((forall s, ~ env_recovers w' "/b" s) ->
              getSuggestedSuffix w' "/b" = Ok (49, false, true))).
Proof.
  assert (forall (w w' : World) (p : string) (s : Z),
      int_ok s -> saveProjectSuffix w p s = (Ok tt, w') -> utf8_dir w p ->
      exists state existed absDir m,
        loadPortState w = Ok (state, existed) /\ Abs w p = Ok absDir
        /\ Projects state = Some m
        /\ loadPortState w'
           = Ok (mkPortState
                   (if s >? MaxSuffix state then s else MaxSuffix state)
                   (Some (<[absDir := s]> m)), true)
        /\ cwd w' = cwd w) as Hrun.
  { intros w w' p s Hs Hsave Hutf.
    destruct (saveProjectSuffix_ok w w' p s Hsave)
      as (state & existed & absDir & m & Hl & Ha & Hm & Hsv).
    exists state, existed, absDir, m. repeat split; try done.
    - apply (load_after_save _ w); [| |done].
      + apply saved_state_wf; [|done|done].
        by apply (loadPortState_wf w state existed).
      + apply (saved_state_utf8 state m); [|done|by apply Hutf].
        by apply (loadPortState_utf8 w state existed).
    - by apply (save_keeps_env _ _ _ _ Hsv). }
  split.
  - intros w w' p s Hs Hsave. split.
    + destruct (saveProjectSuffix_ok w w' p s Hsave)
        as (state & existed & absDir & m & Hl & Ha & Hm & Hsv).
      assert (s <= (if s >? MaxSuffix state then s else MaxSuffix state))
        as Hle by (destruct (Z.gtb_spec s (MaxSuffix state)); lia).
      destruct (load_after_save_any _ w w'
                  (saved_state_wf state m absDir s
                     (loadPortState_wf w state existed Hl) Hm Hs) Hsv)
        as (st' & Hl' & Hmx & _).
      eexists _, st'. split; [by apply (save_written _ w)|].
      split; [exact Hle|]. split; [done|]. by rewrite Hmx.
    + intros Hutf.
      destruct (Hrun w w' p s Hs Hsave Hutf)
        as (state & existed & absDir & m & Hl & Ha & Hm & Hl' & Hcwd).
      apply (getSuggestedSuffix_registered w' p absDir _ true s Hl').
      * by rewrite (Abs_same_cwd w w' p Hcwd).
      * unfold project. simpl. apply lookup_insert_eq.
  - intros w Hmiss Hw.
    assert (loadPortState w = Ok (emptyState, false)) as Hl
      by (unfold loadPortState; by rewrite Hmiss).
    assert (saveProjectSuffix w "/a" 48
            = (Ok tt, with_stateFile w (FileJSON (Marshal
                 (mkPortState 48 (Some (<["/a" := 48]> ∅))))))) as Hsave.
    { unfold saveProjectSuffix. rewrite Hl.
      change (Abs w "/a") with (Ok (A := string) "/a").
      cbn [Projects emptyState MaxSuffix].
      rewrite save_succeeds; [done| |done]. by rewrite Hmiss. }
    eexists. split; [exact Hsave|].
    assert (int_ok 48) as H48 by int_range.
    assert (utf8_dir w "/a") as Hutf by (by intros a [= <-]).
    destruct (Hrun w _ "/a" 48 H48 Hsave Hutf)
      as (state & existed & absDir & m & Hl0 & Ha & Hm & Hl' & Hcwd).
    rewrite Hl in Hl0. injection Hl0 as <- <-.
    injection Hm as <-. injection Ha as <-.
    cbn [MaxSuffix emptyState] in Hl'.
    change (if 48 >? 0 then 48 else 0) with 48 in Hl'. split.
    + apply (getSuggestedSuffix_registered _ "/a" "/a" _ true 48 Hl');
        [done|]. unfold project. simpl. apply lookup_insert_eq.
    + intros Hno.
      apply (getSuggestedSuffix_fresh _ "/b" "/b" _ true Hl'); [done| |done].
      unfold project. simpl. by rewrite lookup_insert_ne.
Qed.

(** ** Round trip through the state file *)

(** C7 (round trip): a registry of Go values whose keys are UTF-8 text,
    written by [save], is the registry [loadPortState] reads back, the same
    [MaxSuffix] and the same map, with the flag that the file existed; and
    [save] does write when the path of the state file resolves and the file
    can be written. Whatever the keys, [MaxSuffix] reads back as written
    and every assignment read back was written, under a key that coerces
    to the one read. *)
Theorem save_load_roundtrip :
  forall (w : World) (r : PortState),
    wf_state r ->
    (utf8_state r ->
     (forall w', save r w = (None, w') -> loadPortState w' = Ok (r, true))
     /\ (stateFile w <> PathError -> onWrite w = WriteDone ->
         exists w', save r w = (None, w')
                    /\ loadPortState w' = Ok (r, true)))
    /\ (forall w', save r w = (None, w') ->
          exists st',
            loadPortState w' = Ok (st', true)
            /\ MaxSuffix st' = MaxSuffix r
            /\ forall k v, project st' k = Some v ->
                 exists k0, project r k0 = Some v /\ utf8_coerce k0 = k).
Proof.
  intros w r Hwf. split.
  - intros Hutf. split.
    + intros w'. by apply load_after_save.
    + intros Hf Hw. eexists. split; [by apply save_succeeds|].
      apply (load_after_save r w); [done|done|]. by apply save_succeeds.
  - intros w'. by apply load_after_save_any.
Qed.

(** ** The collision checker *)

Lemma range_order_elem (st : PortState) (order : list (string * Z))
    (k : string) (v : Z) :
  range_order st order -> (k, v) ∈ order <-> project st k = Some v.
Proof.
  unfold range_order, entries, project. intros ->.
  destruct (Projects st) as [m|].
  - apply elem_of_map_to_list.
  - split; [by intros ?%elem_of_nil|done].
Qed.

Lemma findOther_cases (order : list (string * Z)) (absDir : string)
    (suffix : Z) :
  (findOther order absDir suffix = ("", false)
   /\ forall path, (path, suffix) ∈ order -> path = absDir)
  \/ (exists path, findOther order absDir suffix = (path, true)
                   /\ (path, suffix) ∈ order /\ path <> absDir).
Proof.
  induction order as [|[path s] order IH]; simpl.
  - left. split; [done|]. by intros path ?%elem_of_nil.
  - destruct (Z.eqb_spec s suffix) as [->|Hs]; simpl.
    + destruct (String.eqb_spec path absDir) as [->|Hp]; simpl.
      * destruct IH as [[Hnone Hall]|(q & Hq & Hin & Hne)].
        -- left. split; [done|]. intros q [[= ->]|Hin]%elem_of_cons; [done|].
           by apply Hall.
        -- right. exists q. repeat split; [done| |done].
           by apply list_elem_of_further.
      * right. exists path. repeat split; [|done]. apply list_elem_of_here.
    + destruct IH as [[Hnone Hall]|(q & Hq & Hin & Hne)].
      * left. split; [done|]. intros q [[= -> ->]|Hin]%elem_of_cons; [done|].
        by apply Hall.
      * right. exists q. repeat split; [done| |done].
        by apply list_elem_of_further.
Qed.

Lemma isSuffixInUseByOther_loaded (w : World) (order : list (string * Z))
    (p absDir : string) (s : Z) (st : PortState) (existed : bool) :
  loadPortState w = Ok (st, existed) -> Abs w p = Ok absDir ->
  isSuffixInUseByOther w order p s = findOther order absDir s.
Proof. intros Hl Ha. unfold isSuffixInUseByOther. by rewrite Hl, Ha. Qed.

(** C5 (findConflict): with the registry loaded and whatever order the
    [range] takes, [isSuffixInUseByOther p s] reports nothing when no path
    other than [p]'s own holds [s], and otherwise returns, with
    [found = true], another path that holds [s]. With "/a" at 51 and "/b"
    at 52, the check of 51 for "/c" returns [("/a", true)] and the check of
    51 for "/a" finds nothing. *)
Theorem isSuffixInUseByOther_conflict :
  (forall (w : World) (order : list (string * Z)) (p absDir : string)
          (s : Z) (st : PortState) (existed : bool),
      loadPortState w = Ok (st, existed) -> Abs w p = Ok absDir ->
      range_order st order ->
      ((forall q, q <> absDir -> project st q <> Some s) ->
       isSuffixInUseByOther w order p s = ("", false))
      /\ ((exists q, q <> absDir /\ project st q = Some s) ->
          exists q, isSuffixInUseByOther w order p s = (q, true)
                    /\ q <> absDir /\ project st q = Some s))
  /\ (forall (w : World) (order : list (string * Z)) (existed : bool),
        loadPortState w = Ok (twoProjects, existed) ->
        range_order twoProjects order ->
        isSuffixInUseByOther w order "/c" 51 = ("/a", true)
        /\ isSuffixInUseByOther w order "/a" 51 = ("", false)).
Proof.
  assert (forall (w : World) (order : list (string * Z)) (p absDir : string)
          (s : Z) (st : PortState) (existed : bool),
      loadPortState w = Ok (st, existed) -> Abs w p = Ok absDir ->
      range_order st order ->
      ((forall q, q <> absDir -> project st q <> Some s) ->
       isSuffixInUseByOther w order p s = ("", false))
      /\ ((exists q, q <> absDir /\ project st q = Some s) ->
          exists q, isSuffixInUseByOther w order p s = (q, true)
                    /\ q <> absDir /\ project st q = Some s)) as Hgen.
  { intros w order p absDir s st existed Hl Ha Hord.
    rewrite (isSuffixInUseByOther_loaded w order p absDir s st existed Hl Ha).
    destruct (findOther_cases order absDir s)
      as [[Hnone Hall]|(q & Hq & Hin & Hne)].
    - split; [done|]. intros (q & Hne & Hq). destruct Hne.
      apply Hall. by apply (range_order_elem st).
    - split.
      + intros Hno. destruct (Hno q Hne). by apply (range_order_elem st order).
      + intros _. exists q. repeat split; [done|done|].
        by apply (range_order_elem st order). }
  split; [exact Hgen|].
  intros w order existed Hl Hord.
  assert (forall q, project twoProjects q = Some 51 -> q = "/a") as Hone.
  { intros q. unfold project, twoProjects. simpl.
    destruct (decide (q = "/a")) as [->|Ha]; [done|].
    rewrite lookup_insert_ne by done.
    destruct (decide (q = "/b")) as [->|Hb].
    - by rewrite lookup_insert_eq.
    - rewrite lookup_insert_ne by done. by rewrite lookup_empty. }
  split.
  - destruct (Hgen w order "/c" "/c" 51 twoProjects existed Hl eq_refl Hord)
      as [_ Hsome].
    destruct Hsome as (q & Hq & Hne & Hin).
    + exists "/a". split; [done|]. unfold project, twoProjects. simpl.
      apply lookup_insert_eq.
    + by rewrite <- (Hone q Hin).
  - apply (Hgen w order "/a" "/a" 51 twoProjects existed Hl eq_refl Hord).
    intros q Hne Hq. by apply Hne, Hone.
Qed.

(** C10 (collision check on a failed load): when [loadPortState] fails,
    the file being unreadable, not JSON, or JSON that does not decode, or
    its path unresolved, [isSuffixInUseByOther] returns [("", false)] for
    every directory, suffix and order: the read error is not surfaced and no
    conflict is reported. *)
Theorem isSuffixInUseByOther_load_failure :
  forall (w : World) (order : list (string * Z)) (p : string) (s : Z),
    (forall e, loadPortState w = Err e ->
       isSuffixInUseByOther w order p s = ("", false))
    /\ (stateFile w = FileUnreadable ->
        isSuffixInUseByOther w order p s = ("", false))
    /\ (stateFile w = FileGarbage ->
        isSuffixInUseByOther w order p s = ("", false))
    /\ (forall doc, stateFile w = FileJSON doc ->
          Unmarshal doc emptyState = None ->
          isSuffixInUseByOther w order p s = ("", false)).
Proof.
  intros w order p s.
  assert (forall e, loadPortState w = Err e ->
            isSuffixInUseByOther w order p s = ("", false)) as Herr.
  { intros e He. unfold isSuffixInUseByOther. by rewrite He. }
  split; [exact Herr|]. repeat split.
  - intros Hf. apply (Herr ErrReadFile). unfold loadPortState. by rewrite Hf.
  - intros Hf. apply (Herr ErrUnmarshal). unfold loadPortState. by rewrite Hf.
  - intros doc Hf Hu. apply (Herr ErrUnmarshal). unfold loadPortState.
    by rewrite Hf, Hu.
Qed.

(** ** The operations that write the registry *)

Lemma project_delete_key (mx : Z) (ps : option (gmap string Z))
    (path k : string) :
  project (mkPortState mx (delete_key ps path)) k
  = if decide (k = path) then None else project (mkPortState mx ps) k.
Proof.
  unfold project, delete_key. cbn [Projects].
  destruct ps as [m|]; [|by destruct (decide (k = path))].
  destruct (decide (k = path)) as [->|Hne].
  - apply lookup_delete_eq.
  - by apply lookup_delete_ne.
Qed.

Lemma project_deleteAll (mx : Z) (ps : option (gmap string Z))
    (removed : list string) (k : string) :
  project (mkPortState mx (deleteAll removed ps)) k
  = if decide (k ∈ removed) then None else project (mkPortState mx ps) k.
Proof.
  unfold deleteAll. revert ps.
  induction removed as [|x removed IH]; intros ps; cbn [fold_left].
  - destruct (decide (k ∈ [])) as [Hin|_]; [by apply elem_of_nil in Hin|done].
  - rewrite IH, project_delete_key.
    destruct (decide (k ∈ removed)) as [Hin|Hnin].
    + by rewrite decide_True by by apply list_elem_of_further.
    + destruct (decide (k = x)) as [->|Hne].
      * by rewrite decide_True by apply list_elem_of_here.
      * rewrite decide_False; [done|].
        intros [?|?]%elem_of_cons; done.
Qed.

Lemma deleteAll_wf (st : PortState) (removed : list string) :
  wf_state st ->
  wf_state (mkPortState (MaxSuffix st) (deleteAll removed (Projects st))).
Proof.
  intros [Hmx Hps]. split; [done|]. intros k v.
  rewrite project_deleteAll. case_decide; [done|].
  destruct st as [mx ps]. apply Hps.
Qed.

Lemma deleteAll_utf8 (st : PortState) (removed : list string) :
  utf8_state st ->
  utf8_state (mkPortState (MaxSuffix st) (deleteAll removed (Projects st))).
Proof.
  intros Hps k v.
  rewrite project_deleteAll. case_decide; [done|].
  destruct st as [mx ps]. apply Hps.
Qed.


(** One visit of the map of a registry, in whatever order [range] takes. *)
Section Visit.
Variables (w : World) (st : PortState) (order : list (string * Z)).
Hypothesis Hord : range_order st order.

(** The orphans the visit collects are the registered paths that
    [os.Stat] reports as not existing. *)
Lemma elem_of_orphans (k : string) :
  k ∈ orphans w order
  <-> is_Some (project st k) /\ isNotExist (statOf w k) = true.
Proof.
  unfold orphans. rewrite list_elem_of_filter.
  rewrite list_elem_of_In, in_map_iff. split.
  - intros (Hk & [k' v] & Hfst & Hin). simpl in Hfst. subst k'.
    split; [|done]. exists v. apply (range_order_elem st order); [done|].
    by apply list_elem_of_In.
  - intros ([v Hv] & Hk). split; [done|]. exists (k, v). split; [done|].
    apply list_elem_of_In. by apply (range_order_elem st order).
Qed.


End Visit.

(** The successful runs of [CleanOrphanedProjects]: the count is the number
    of orphans, and the state file is rewritten exactly when there is one. *)
Lemma CleanOrphanedProjects_ok (w w' : World) (st : PortState)
    (existed : bool) (order : list (string * Z)) (n : Z) :
  loadPortState w = Ok (st, existed) ->
  CleanOrphanedProjects w order = (Ok n, w') ->
  n = Z.of_nat (length (orphans w order))
  /\ ((n = 0 /\ orphans w order = [] /\ w' = w)
      \/ (0 < n
          /\ save (mkPortState (MaxSuffix st)
                     (deleteAll (orphans w order) (Projects st))) w
             = (None, w'))).
Proof.
  intros Hl. unfold CleanOrphanedProjects. rewrite Hl.
  destruct (orphans w order) as [|k l] eqn:Ho.
  - simpl. intros [= <- <-]. split; [done|]. by left.
  - cbn [length Nat.ltb Nat.leb].
    destruct (save _ w) as [[e|] w1] eqn:Hs; [discriminate|].
    intros [= <- <-]. split; [done|]. right. split; [lia|done].
Qed.



(** C9 (removeProject): with the registry loaded, [RemoveProject] on a
    directory whose absolute path has no entry returns the not-registered
    error and leaves the world, the state file included, as it was; a
    successful call had an entry to remove, writes the registry at once,
    and that registry is the loaded one without exactly this entry; the
    call succeeds whenever there is an entry and the file can be written. *)
Theorem RemoveProject_exact :
  forall (w : World) (p absDir : string) (st : PortState) (existed : bool),
    loadPortState w = Ok (st, existed) -> Abs w p = Ok absDir ->
    (project st absDir = None ->
     RemoveProject w p = (Err (ErrNotRegistered absDir), w))
    /\ (forall w', RemoveProject w p = (Ok tt, w') ->
          is_Some (project st absDir)
          /\ exists st',
               stateFile w' = FileJSON (Marshal st')
               /\ loadPortState w' = Ok (st', true)
               /\ MaxSuffix st' = MaxSuffix st
               /\ forall k, project st' k
                            = if decide (k = absDir) then None
                              else project st k)
    /\ (is_Some (project st absDir) -> onWrite w = WriteDone ->
        exists w', RemoveProject w p = (Ok tt, w')).
Proof.
  intros w p absDir st existed Hl Ha. unfold RemoveProject.
  rewrite Hl, Ha. repeat split.
  - by intros ->.
  - destruct (project st absDir); [done|]. discriminate.
  - destruct (project st absDir) as [v|]; [|discriminate].
    destruct (save _ w) as [[e|] w1] eqn:Hs; [discriminate|].
    injection H as <-. eexists. split; [by apply (save_written _ w)|].
    split.
    { apply (load_after_save _ w); [| |done].
      - apply (deleteAll_wf st [absDir]).
        by apply (loadPortState_wf w st existed).
      - apply (deleteAll_utf8 st [absDir]).
        by apply (loadPortState_utf8 w st existed). }
    split; [done|]. intros k. rewrite project_delete_key.
    by destruct st.
  - intros [v Hv] Hw. rewrite Hv.
    rewrite save_succeeds; [by eexists| |done].
    by apply (loaded_path_ok w st existed).
Qed.

(** C6 (high-water mark): whatever [saveProjectSuffix], [RemoveProject]
    and [CleanOrphanedProjects] leave in the state file, it is the file as
    it was, or no registry at all after a write that broke off, or the
    document of a registry whose [MaxSuffix] is not smaller than the one
    the operation loaded. *)
Theorem maxSuffix_never_lowered :
  forall w : World,
    (forall p s, hwm_not_lowered w (saveProjectSuffix w p s).2)
    /\ (forall p, hwm_not_lowered w (RemoveProject w p).2)
    /\ (forall order, hwm_not_lowered w (CleanOrphanedProjects w order).2).
Proof.
  intros w.
  assert (forall (st st' : PortState) (existed : bool) (A : Type)
                 (r : A) (f : unit -> result A),
            loadPortState w = Ok (st, existed) ->
            MaxSuffix st <= MaxSuffix st' ->
            hwm_not_lowered w
              (match save st' w with
               | (Some e, w') => (Err e, w')
               | (None, w') => (f tt, w')
               end).2) as Hsave.
  { intros st st' existed A r f Hl Hle.
    destruct (save st' w) as [[e|] w1] eqn:Hs; simpl.
    - destruct (save_failed st' w w1 e Hs) as [Hsame|Htorn];
        [by left|right; by left].
    - right. right. exists st, existed, st'. repeat split; [done| |done].
      by apply (save_written st' w). }
  repeat split.
  - intros p s. unfold saveProjectSuffix.
    destruct (loadPortState w) as [[st existed]|e|] eqn:Hl; try by left.
    destruct (Abs w p) as [absDir|e|]; try by left.
    destruct (Projects st) as [m|]; [|by left].
    apply (Hsave st _ existed unit tt (fun _ => Ok tt) eq_refl). simpl.
    destruct (Z.gtb_spec s (MaxSuffix st)); lia.
  - intros p. unfold RemoveProject.
    destruct (loadPortState w) as [[st existed]|e|] eqn:Hl; try by left.
    destruct (Abs w p) as [absDir|e|]; try by left.
    destruct (project st absDir); [|by left].
    by apply (Hsave st _ existed unit tt (fun _ => Ok tt) eq_refl).
  - intros order. unfold CleanOrphanedProjects.
    destruct (loadPortState w) as [[st existed]|e|] eqn:Hl; try by left.
    destruct (0 <? length (orphans w order))%nat; [|by left].
    by apply (Hsave st _ existed Z 0
                (fun _ => Ok (Z.of_nat (length (orphans w order)))) eq_refl).
Qed.

(** ** Lines and white space *)

Lemma append_assoc (s t u : string) : (s ++ t) ++ u = s ++ (t ++ u).
Proof.
  induction s as [|a s IH]; [done|].
  change (String a ((s ++ t) ++ u) = String a (s ++ t ++ u)).
  by rewrite IH.
Qed.

Lemma list_ascii_app (s t : string) :
  list_ascii_of_string (s ++ t)
  = (list_ascii_of_string s ++ list_ascii_of_string t)%list.
Proof. induction s as [|a s IH]; [done|]. simpl. by rewrite IH. Qed.

(** A line without a line feed, followed by a line feed, is closed by the
    loop of [splitLines] at that line feed. *)
Lemma splitLines_from_line (line rest : string) (cur : list ascii) :
  no_LF line ->
  splitLines_from (line ++ String LF rest) cur
  = close_line (rev (list_ascii_of_string line) ++ cur)
    :: splitLines_from rest [].
Proof.
  revert cur. induction line as [|c line IH]; intros cur Hno.
  - reflexivity.
  - apply Forall_cons in Hno as [Hc Hno].
    change (String c line ++ String LF rest)
      with (String c (line ++ String LF rest)).
    cbn [splitLines_from].
    destruct (Ascii.eqb_spec c LF) as [->|_]; [done|].
    rewrite (IH (c :: cur) Hno). cbn [list_ascii_of_string rev].
    by rewrite <- app_assoc.
Qed.

Lemma joinLines_cons (line : string) (lines : list string) :
  lines <> [] ->
  joinLines (line :: lines) = line ++ String LF (joinLines lines).
Proof.
  intros Hne. unfold joinLines. destruct lines as [|l2 lines]; [done|].
  change (String.concat (String LF "") (line :: l2 :: lines))
    with (line ++ String LF "" ++ String.concat (String LF "") (l2 :: lines)).
  by rewrite !append_assoc.
Qed.

(** Reading back what [strings.Join] with line feeds wrote: the lines as
    they were, each without one carriage return at its end. *)
Lemma splitLines_joinLines_chomp (lines : list string) :
  lines <> [] -> Forall no_LF lines ->
  splitLines (joinLines lines) = map chomp lines.
Proof.
  intros Hne Hno. unfold splitLines.
  induction Hno as [|line lines Hline Hno IH]; [done|].
  destruct lines as [|l2 lines].
  - unfold joinLines. cbn [String.concat map].
    rewrite (splitLines_from_line line "" [] Hline).
    by rewrite app_nil_r.
  - rewrite joinLines_cons; [|done].
    rewrite (splitLines_from_line line _ [] Hline).
    rewrite app_nil_r. cbn [map]. f_equal. by apply IH.
Qed.

Lemma space2_CR (a : ascii) : space2 CR a = false.
Proof. reflexivity. Qed.

Lemma space2_CR_r (a : ascii) : space2 a CR = false.
Proof. unfold space2. apply andb_false_r. Qed.

Lemma space3_CR (a b : ascii) : space3 a b CR = false.
Proof.
  unfold space3.
  change (code CR) with 13%N.
  change (13 =? 128)%N with false. change (128 <=? 13)%N with false.
  change (13 =? 168)%N with false. change (13 =? 169)%N with false.
  change (13 =? 175)%N with false. change (13 =? 159)%N with false.
  by rewrite ?andb_false_r, ?andb_false_l, ?orb_false_r.
Qed.

Section TrimFront.
Variable p1 : ascii -> bool.
Variable p2 : ascii -> ascii -> bool.
Variable p3 : ascii -> ascii -> ascii -> bool.

Lemma trim_front_1 (a : ascii) (r : string) :
  p1 a = true -> trim_front p1 p2 p3 (String a r) = trim_front p1 p2 p3 r.
Proof. intros H. cbn [trim_front]. by rewrite H. Qed.

Lemma trim_front_2 (a b : ascii) (r : string) :
  p1 a = false -> p2 a b = true ->
  trim_front p1 p2 p3 (String a (String b r)) = trim_front p1 p2 p3 r.
Proof. intros H1 H2. cbn [trim_front]. by rewrite H1, H2. Qed.

Lemma trim_front_3 (a b c : ascii) (r : string) :
  p1 a = false -> p2 a b = false -> p3 a b c = true ->
  trim_front p1 p2 p3 (String a (String b (String c r)))
  = trim_front p1 p2 p3 r.
Proof. intros H1 H2 H3. cbn [trim_front]. by rewrite H1, H2, H3. Qed.

Lemma trim_front_stop1 (a : ascii) :
  p1 a = false -> trim_front p1 p2 p3 (String a "") = String a "".
Proof. intros H1. cbn [trim_front]. by rewrite H1. Qed.

Lemma trim_front_stop2 (a b : ascii) :
  p1 a = false -> p2 a b = false ->
  trim_front p1 p2 p3 (String a (String b "")) = String a (String b "").
Proof. intros H1 H2. cbn [trim_front]. by rewrite H1, H2. Qed.

Lemma trim_front_stop3 (a b c : ascii) (r : string) :
  p1 a = false -> p2 a b = false -> p3 a b c = false ->
  trim_front p1 p2 p3 (String a (String b (String c r)))
  = String a (String b (String c r)).
Proof. intros H1 H2 H3. cbn [trim_front]. by rewrite H1, H2, H3. Qed.

End TrimFront.

(** White space at the front of a line: a carriage return at the end of
    the line is white space too, and goes with it when nothing else is
    left. *)
Lemma TrimLeftSpace_CR (s : string) :
  TrimLeftSpace (s ++ String CR "")
  = match TrimLeftSpace s with
    | "" => ""
    | t => t ++ String CR ""
    end.
Proof.
  unfold TrimLeftSpace.
  assert (forall n s, (String.length s <= n)%nat ->
            trim_front space1 space2 space3 (s ++ String CR "")
            = match trim_front space1 space2 space3 s with
              | "" => ""
              | t => t ++ String CR ""
              end) as Hall; [|by apply (Hall (String.length s))].
  clear s. induction n as [|n IH]; intros s Hlen.
  - destruct s; [reflexivity|simpl in Hlen; lia].
  - destruct s as [|a r1]; [reflexivity|].
    change (String a r1 ++ String CR "") with (String a (r1 ++ String CR "")).
    destruct (space1 a) eqn:H1.
    { rewrite !trim_front_1 by done. apply IH. simpl in Hlen. lia. }
    destruct r1 as [|b r2].
    { change ("" ++ String CR "") with (String CR "").
      rewrite trim_front_stop2, trim_front_stop1;
        [done|done|done|apply space2_CR_r]. }
    change (String b r2 ++ String CR "") with (String b (r2 ++ String CR "")).
    destruct (space2 a b) eqn:H2.
    { rewrite !trim_front_2 by done. apply IH. simpl in Hlen. lia. }
    destruct r2 as [|c r3].
    { change ("" ++ String CR "") with (String CR "").
      rewrite trim_front_stop3, trim_front_stop2;
        [done|done|done|done|done|apply space3_CR]. }
    change (String c r3 ++ String CR "") with (String c (r3 ++ String CR "")).
    destruct (space3 a b c) eqn:H3.
    { rewrite !trim_front_3 by done. apply IH. simpl in Hlen. lia. }
    by rewrite !trim_front_stop3.
Qed.

Lemma TrimRightSpace_CR (s : string) :
  TrimRightSpace (s ++ String CR "") = TrimRightSpace s.
Proof.
  unfold TrimRightSpace. rewrite rev_string_app.
  change (rev_string (String CR "")) with (String CR "").
  reflexivity.
Qed.

Lemma TrimSpace_CR (s : string) :
  TrimSpace (s ++ String CR "") = TrimSpace s.
Proof.
  unfold TrimSpace. rewrite TrimLeftSpace_CR.
  destruct (TrimLeftSpace s) as [|a t]; [reflexivity|].
  apply TrimRightSpace_CR.
Qed.

Lemma chomp_cases (line : string) :
  chomp line = line \/ line = chomp line ++ String CR "".
Proof.
  unfold chomp, close_line.
  pose proof (string_of_list_ascii_of_string line) as Hl.
  set (l := list_ascii_of_string line) in *. clearbody l. subst line.
  destruct (rev l) as [|c r] eqn:Hrev;
    apply (f_equal (@rev ascii)) in Hrev;
    rewrite rev_involutive in Hrev; subst l.
  - by left.
  - cbn [drop_cr].
    destruct (Ascii.eqb_spec c CR) as [->|_]; [right|by left].
    cbn [rev]. generalize (rev r). clear.
    induction l as [|x l IH]; [reflexivity|].
    simpl. by rewrite IH.
Qed.

(** The line [splitLines] hands back trims to the same text. *)
Lemma TrimSpace_chomp (line : string) :
  TrimSpace (chomp line) = TrimSpace line.
Proof.
  destruct (chomp_cases line) as [->|H]; [done|].
  rewrite H at 2. by rewrite TrimSpace_CR.
Qed.

Lemma app_port_value_chomp (line : string) :
  app_port_value (chomp line) = app_port_value line.
Proof. unfold app_port_value. by rewrite TrimSpace_chomp. Qed.

Lemma scanEnvLines_skip (pre rest : list string) :
  Forall (fun l => app_port_value l = None) pre ->
  scanEnvLines (pre ++ rest) = scanEnvLines rest.
Proof.
  induction 1 as [|l pre Hl _ IH]; [done|].
  cbn [app]. rewrite scanEnvLines_cons. by rewrite Hl.
Qed.

(** ** The lines of a text *)

(** A text without a line feed is one line, or none when it is empty. *)
Lemma splitLines_from_end (line : string) (cur : list ascii) :
  no_LF line ->
  splitLines_from line cur
  = match (rev (list_ascii_of_string line) ++ cur)%list with
    | [] => []
    | x => [close_line x]
    end.
Proof.
  revert cur. induction line as [|c line IH]; intros cur Hno.
  - by destruct cur.
  - apply Forall_cons in Hno as [Hc Hno]. cbn [splitLines_from].
    destruct (Ascii.eqb_spec c LF) as [->|_]; [done|].
    rewrite (IH (c :: cur) Hno). cbn [list_ascii_of_string rev].
    by rewrite <- app_assoc.
Qed.

(** The lines [splitLines] finds in a text made of parts joined by line
    feeds: every part but the last, and the last unless it is empty, each
    without one carriage return at its end. *)
Lemma splitLines_concat (init : list string) (last : string) :
  Forall no_LF init -> no_LF last ->
  splitLines (String.concat (String LF "") (init ++ [last]))
  = (map chomp init
     ++ (if String.eqb last "" then [] else [chomp last]))%list.
Proof.
  intros Hinit Hlast. unfold splitLines.
  induction Hinit as [|x init Hx _ IH].
  - cbn [app String.concat map]. rewrite splitLines_from_end by done.
    rewrite app_nil_r. destruct last as [|c last]; [done|].
    change (String.eqb (String c last) "") with false. unfold chomp.
    destruct (rev (list_ascii_of_string (String c last))) as [|a l] eqn:Hr;
      [|done].
    cbn [list_ascii_of_string rev] in Hr.
    by apply app_eq_nil in Hr as [_ Hr].
  - assert (String.concat (String LF "") ((x :: init) ++ [last])
            = x ++ String LF (String.concat (String LF "") (init ++ [last])))
      as ->.
    { cbn [app]. destruct (init ++ [last])%list as [|y ys] eqn:Hys.
      - by destruct init.
      - reflexivity. }
    rewrite (splitLines_from_line x _ [] Hx). rewrite app_nil_r.
    cbn [map app]. by rewrite IH.
Qed.

(** Every text is made of parts without a line feed, joined by line
    feeds. *)
Lemma text_parts (content : string) :
  exists parts,
    parts <> [] /\ Forall no_LF parts
    /\ content = String.concat (String LF "") parts.
Proof.
  induction content as [|c content (parts & Hne & Hno & ->)].
  - exists [""]. split; [done|]. split; [|done].
    constructor; [constructor|constructor].
  - destruct parts as [|p ps]; [done|].
    apply Forall_cons in Hno as [Hp Hps].
    destruct (Ascii.eqb_spec c LF) as [->|Hc].
    + exists ("" :: p :: ps). split; [done|]. split; [|done].
      constructor; [constructor|by constructor].
    + exists (String c p :: ps). split; [done|]. split.
      * constructor; [by constructor|done].
      * by destruct ps.
Qed.

Lemma scanEnvLines_chomp (lines : list string) :
  scanEnvLines (map chomp lines) = scanEnvLines lines.
Proof.
  induction lines as [|line lines IH]; [done|].
  cbn [map]. rewrite !scanEnvLines_cons, app_port_value_chomp.
  by rewrite IH.
Qed.

Lemma scanEnvLines_app_none (lines tail : list string) :
  Forall (fun l => app_port_value l = None) tail ->
  scanEnvLines (lines ++ tail) = scanEnvLines lines.
Proof.
  intros Htail. induction lines as [|line lines IH].
  - rewrite <- (app_nil_r ([] ++ tail)). by rewrite scanEnvLines_skip.
  - cbn [app]. rewrite !scanEnvLines_cons. by rewrite IH.
Qed.

(** The loop over the lines of a file is the loop over the parts of its
    text. *)
Lemma scanEnvLines_parts (parts : list string) :
  parts <> [] -> Forall no_LF parts ->
  scanEnvLines (splitLines (String.concat (String LF "") parts))
  = scanEnvLines parts.
Proof.
  intros Hne Hno. destruct (exists_last Hne) as (init & last & ->).
  apply Forall_app in Hno as [Hinit Hlast].
  apply Forall_cons in Hlast as [Hlast _].
  rewrite splitLines_concat by done.
  destruct (String.eqb_spec last "") as [->|_].
  - rewrite app_nil_r, scanEnvLines_chomp. symmetry.
    apply scanEnvLines_app_none. by constructor.
  - rewrite <- (scanEnvLines_chomp (init ++ [last])). by rewrite map_app.
Qed.

(** ** What the scan reads on a line *)

Lemma prefix_app (pre r : string) : String.prefix pre (pre ++ r) = true.
Proof.
  induction pre as [|a pre IH]; [by destruct r|].
  change (String a pre ++ r) with (String a (pre ++ r)).
  cbn [String.prefix]. by destruct (ascii_dec a a).
Qed.

Lemma strip_prefix_app (pre r : string) :
  strip_prefix pre (pre ++ r) = Some r.
Proof.
  induction pre as [|a pre IH]; [by destruct r|].
  change (String a pre ++ r) with (String a (pre ++ r)).
  cbn [strip_prefix]. by rewrite Ascii.eqb_refl.
Qed.

Lemma strip_prefix_inv (pre s r : string) :
  strip_prefix pre s = Some r -> s = pre ++ r.
Proof.
  revert s. induction pre as [|a pre IH]; intros s.
  - destruct s; intros [= <-]; reflexivity.
  - destruct s as [|b s]; [discriminate|]. cbn [strip_prefix].
    destruct (Ascii.eqb_spec a b) as [->|]; [|discriminate].
    intros H. apply IH in H. by rewrite H.
Qed.

Lemma code_eq (a : ascii) (n : N) :
  (code a =? n)%N = true -> a = ascii_of_N n.
Proof.
  intros H. apply N.eqb_eq in H. rewrite <- H. unfold code.
  symmetry. apply ascii_N_embedding.
Qed.

Lemma space2_first (a b : ascii) :
  space2 a b = true -> space1 a = false /\ Ascii.eqb a LF = false.
Proof.
  unfold space2. intros H. apply andb_true_iff in H as [Ha _].
  apply code_eq in Ha. by subst a.
Qed.

Lemma space3_first (a b c : ascii) :
  space3 a b c = true ->
  space1 a = false /\ Ascii.eqb a LF = false
  /\ forall b', space2 a b' = false.
Proof.
  unfold space3. intros H.
  repeat (apply orb_true_iff in H as [H|H]);
    repeat (apply andb_true_iff in H as [H _]);
    apply code_eq in H; by subst a.
Qed.

Section SkipSpaceSteps.
Variables a b c : ascii.
Variable r : string.

Lemma SkipSpace_1 :
  Ascii.eqb a LF = false -> space1 a = true ->
  SkipSpace (String a r) = SkipSpace r.
Proof. intros H0 H1. cbn [SkipSpace]. by rewrite H0, H1. Qed.

Lemma SkipSpace_2 :
  Ascii.eqb a LF = false -> space1 a = false -> space2 a b = true ->
  SkipSpace (String a (String b r)) = SkipSpace r.
Proof. intros H0 H1 H2. cbn [SkipSpace]. by rewrite H0, H1, H2. Qed.

Lemma SkipSpace_3 :
  Ascii.eqb a LF = false -> space1 a = false -> space2 a b = false ->
  space3 a b c = true ->
  SkipSpace (String a (String b (String c r))) = SkipSpace r.
Proof. intros H0 H1 H2 H3. cbn [SkipSpace]. by rewrite H0, H1, H2, H3. Qed.

End SkipSpaceSteps.

(** The scanner passes over a run of white space. *)
Lemma SkipSpace_blank_run (sp s : string) :
  blank_run sp -> SkipSpace (sp ++ s) = SkipSpace s.
Proof.
  induction 1 as [|a r Ha Hlf _ IH|a b r Hab _ IH|a b c r Habc _ IH].
  - reflexivity.
  - change (String a r ++ s) with (String a (r ++ s)).
    rewrite SkipSpace_1; [done| |done]. by apply Ascii.eqb_neq.
  - change (String a (String b r) ++ s) with (String a (String b (r ++ s))).
    destruct (space2_first a b Hab) as [H1 H0].
    by rewrite SkipSpace_2.
  - change (String a (String b (String c r)) ++ s)
      with (String a (String b (String c (r ++ s)))).
    destruct (space3_first a b c Habc) as (H1 & H0 & H2).
    by rewrite SkipSpace_3.
Qed.

(** Where the scanner stops, a run of white space lies behind it. *)
Lemma SkipSpace_inv (s s1 : string) :
  SkipSpace s = Some s1 -> exists sp, blank_run sp /\ s = sp ++ s1.
Proof.
  assert (forall n s, (String.length s <= n)%nat ->
            SkipSpace s = Some s1 ->
            exists sp, blank_run sp /\ s = sp ++ s1) as Hall;
    [|by apply (Hall (String.length s))].
  clear s. induction n as [|n IH]; intros s Hlen Hs.
  - destruct s; [|simpl in Hlen; lia].
    injection Hs as <-. exists "". split; [constructor|done].
  - assert (exists sp, blank_run sp /\ s = sp ++ s) as Hhere
      by (exists ""; split; [constructor|done]).
    destruct s as [|a r1].
    { injection Hs as <-. exact Hhere. }
    cbn [SkipSpace] in Hs.
    destruct (Ascii.eqb_spec a LF) as [|Hlf]; [discriminate|].
    destruct (space1 a) eqn:H1.
    { apply IH in Hs as (sp & Hsp & ->); [|simpl in Hlen; lia].
      exists (String a sp). split; [by constructor|done]. }
    destruct r1 as [|b r2].
    { injection Hs as <-. exact Hhere. }
    destruct (space2 a b) eqn:H2.
    { apply IH in Hs as (sp & Hsp & ->); [|simpl in Hlen; lia].
      exists (String a (String b sp)). split; [by constructor|done]. }
    destruct r2 as [|c r3].
    { injection Hs as <-. exact Hhere. }
    destruct (space3 a b c) eqn:H3.
    { apply IH in Hs as (sp & Hsp & ->); [|simpl in Hlen; lia].
      exists (String a (String b (String c sp))).
      split; [by constructor|done]. }
    injection Hs as <-. exact Hhere.
Qed.

Lemma SkipSpace_sign (c : ascii) (rest : string) :
  c = "+"%char \/ c = "-"%char ->
  SkipSpace (String c rest) = Some (String c rest).
Proof.
  intros [->| ->]; destruct rest as [|b [|c' r]]; reflexivity.
Qed.

Lemma digit_value_inv (c : ascii) (d : Z) :
  digit_value c = Some d -> 0 <= d <= 9 /\ c = digit_char d.
Proof.
  unfold digit_value.
  destruct ((48 <=? code c)%N && (code c <=? 57)%N) eqn:H; [|discriminate].
  intros [= <-]. apply andb_true_iff in H as [Hlo Hhi].
  apply N.leb_le in Hlo, Hhi. split; [lia|].
  unfold digit_char.
  replace (Z.to_N (48 + (Z.of_N (code c) - 48))) with (code c) by lia.
  unfold code. symmetry. apply ascii_N_embedding.
Qed.

Lemma digit_char_no_sign (d : Z) :
  0 <= d <= 9 ->
  Ascii.eqb (digit_char d) "+" = false
  /\ Ascii.eqb (digit_char d) "-" = false.
Proof. intros H. each_digit d H; by split. Qed.

(** The digits of a numeral are read up to the first byte that is no
    digit. *)
Lemma scan_digits_app (ds : list Z) (rest : string) (acc : Z)
    (seen : bool) :
  Forall (fun d => 0 <= d <= 9) ds -> no_digit_first rest ->
  ds <> [] \/ seen = true ->
  scan_digits (digits_text ds ++ rest) acc seen
  = Some (fold_left (fun a d => 10 * a + d) ds acc).
Proof.
  intros Hds Hrest. revert acc seen.
  induction Hds as [|d ds Hd _ IH]; intros acc seen Hne.
  - destruct Hne as [Hne| ->]; [done|].
    change (digits_text [] ++ rest) with rest.
    destruct rest as [|c rest]; [done|]. cbn [scan_digits].
    simpl in Hrest. by rewrite Hrest.
  - change (digits_text (d :: ds) ++ rest)
      with (String (digit_char d) (digits_text ds ++ rest)).
    cbn [scan_digits]. rewrite (digit_value_char d Hd). cbn [fold_left].
    apply IH. by right.
Qed.

Lemma scan_digits_inv (s : string) (acc n : Z) (seen : bool) :
  scan_digits s acc seen = Some n ->
  exists ds rest,
    s = digits_text ds ++ rest
    /\ Forall (fun d => 0 <= d <= 9) ds /\ no_digit_first rest
    /\ n = fold_left (fun a d => 10 * a + d) ds acc
    /\ (seen = false -> ds <> []).
Proof.
  revert acc seen. induction s as [|c s IH]; intros acc seen.
  - cbn [scan_digits]. destruct seen; [|discriminate].
    intros [= <-]. exists [], "". by repeat split.
  - cbn [scan_digits]. destruct (digit_value c) as [d|] eqn:Hc.
    + intros H. apply IH in H as (ds & rest & -> & Hds & Hrest & -> & _).
      apply digit_value_inv in Hc as [Hd ->].
      exists (d :: ds), rest. split; [done|]. split; [by constructor|].
      by repeat split.
    + destruct seen; [|discriminate]. intros [= <-].
      exists [], (String c s). by repeat split.
Qed.

Lemma fold_digits_nonneg (ds : list Z) (acc : Z) :
  Forall (fun d => 0 <= d <= 9) ds -> 0 <= acc ->
  0 <= fold_left (fun a d => 10 * a + d) ds acc.
Proof.
  intros Hds. revert acc.
  induction Hds as [|d ds Hd _ IH]; intros acc Hacc; [done|].
  cbn [fold_left]. apply IH. lia.
Qed.

(** What [%d] scans: exactly the texts that denote a number. *)
Lemma scanInt_number_text (s : string) (v : Z) :
  scanInt s = Some v <-> number_text s v.
Proof.
  split.
  - unfold scanInt. destruct (SkipSpace s) as [s1|] eqn:Hskip;
      [|discriminate].
    apply SkipSpace_inv in Hskip as (sp & Hsp & ->).
    destruct s1 as [|c r].
    { discriminate. }
    destruct (Ascii.eqb_spec c "+") as [->|Hplus];
      [|destruct (Ascii.eqb_spec c "-") as [->|Hminus]].
    + destruct (scan_digits r 0 false) as [n|] eqn:Hscan; [|discriminate].
      destruct (in_int n) eqn:Hin; [|discriminate]. intros [= <-].
      apply scan_digits_inv in Hscan
        as (ds & rest & -> & Hds & Hrest & -> & Hne).
      exists sp, "+", ds, rest. split; [done|]. split; [done|].
      split; [by right; left|]. split; [by apply Hne|].
      split; [done|]. split; [done|]. split; [done|].
      by apply in_int_ok.
    + destruct (scan_digits r 0 false) as [n|] eqn:Hscan; [|discriminate].
      destruct (in_int (- n)) eqn:Hin; [|discriminate]. intros [= <-].
      apply scan_digits_inv in Hscan
        as (ds & rest & -> & Hds & Hrest & -> & Hne).
      exists sp, "-", ds, rest. split; [done|]. split; [done|].
      split; [by right; right|]. split; [by apply Hne|].
      split; [done|]. split; [done|]. split; [done|].
      by apply in_int_ok.
    + destruct (scan_digits (String c r) 0 false) as [n|] eqn:Hscan;
        [|discriminate].
      destruct (in_int n) eqn:Hin; [|discriminate]. intros [= <-].
      apply scan_digits_inv in Hscan
        as (ds & rest & Heq & Hds & Hrest & -> & Hne).
      exists sp, "", ds, rest. rewrite Heq. split; [done|].
      split; [done|]. split; [by left|]. split; [by apply Hne|].
      split; [done|]. split; [done|]. split; [done|].
      by apply in_int_ok.
  - intros (sp & sg & ds & rest & -> & Hsp & Hsg & Hne & Hds & Hrest & -> & Hv).
    unfold scanInt. rewrite SkipSpace_blank_run by done.
    pose proof (scan_digits_app ds rest 0 false Hds Hrest (or_introl Hne))
      as Hscan.
    fold (digits_number ds) in Hscan.
    destruct Hsg as [->|[->| ->]].
    + change ("" ++ digits_text ds ++ rest) with (digits_text ds ++ rest)
        in *.
      destruct ds as [|d ds]; [done|].
      apply Forall_cons in Hds as [Hd Hds].
      change (digits_text (d :: ds) ++ rest)
        with (String (digit_char d) (digits_text ds ++ rest)) in *.
      rewrite (SkipSpace_digit d _ Hd).
      destruct (digit_char_no_sign d Hd) as [-> ->].
      rewrite Hscan. cbn [String.eqb] in Hv.
      apply in_int_ok in Hv. by rewrite Hv.
    + change ("+" ++ digits_text ds ++ rest)
        with (String "+" (digits_text ds ++ rest)).
      rewrite SkipSpace_sign by (by left).
      change (Ascii.eqb "+" "+") with true. cbv iota beta.
      rewrite Hscan. change (String.eqb "+" "-") with false in Hv.
      apply in_int_ok in Hv. by rewrite Hv.
    + change ("-" ++ digits_text ds ++ rest)
        with (String "-" (digits_text ds ++ rest)).
      rewrite SkipSpace_sign by (by right).
      change (Ascii.eqb "-" "+") with false.
      change (Ascii.eqb "-" "-") with true. cbv iota beta.
      rewrite Hscan. change (String.eqb "-" "-") with true in Hv.
      apply in_int_ok in Hv. by rewrite Hv.
Qed.

(** What one turn of the loop reads on a line, said without the scanner. *)
Lemma app_port_value_trimmed (line : string) (v : Z) :
  app_port_value line = Some v
  <-> exists s, TrimSpace line = "APP_PORT=" ++ s /\ number_text s v.
Proof.
  unfold app_port_value, Sscanf_APP_PORT, HasPrefix. split.
  - destruct (String.prefix "APP_PORT=" (TrimSpace line)); [|discriminate].
    destruct (strip_prefix "APP_PORT=" (TrimSpace line)) as [s|] eqn:Hs;
      [|discriminate].
    apply strip_prefix_inv in Hs. intros Hv. exists s. split; [done|].
    by apply scanInt_number_text.
  - intros (s & -> & Hv). rewrite prefix_app, strip_prefix_app.
    by apply scanInt_number_text.
Qed.

Lemma space1_byte (a : ascii) : space1 a = true -> space_byte a = true.
Proof. intros H. unfold space_byte. by rewrite H. Qed.

Lemma space2_bytes (a b : ascii) :
  space2 a b = true -> space_byte a = true /\ space_byte b = true.
Proof.
  unfold space2. intros H. apply andb_true_iff in H as [Ha Hb].
  apply code_eq in Ha. subst a. split; [done|].
  apply orb_true_iff in Hb as [Hb|Hb]; apply code_eq in Hb; by subst b.
Qed.

Lemma space3_bytes (a b c : ascii) :
  space3 a b c = true ->
  space_byte a = true /\ space_byte b = true /\ space_byte c = true.
Proof.
  unfold space3, space_byte. intros H.
  assert ((128 <=? code a)%N = true /\ (128 <=? code b)%N = true
          /\ (128 <=? code c)%N = true) as (-> & -> & ->);
    [|by rewrite !orb_true_r].
  repeat match goal with
         | E : (_ || _) = true |- _ => apply orb_true_iff in E as [E|E]
         | E : (_ && _) = true |- _ => apply andb_true_iff in E as [? ?]
         | E : (code _ =? _)%N = true |- _ => apply N.eqb_eq in E
         | E : (_ <=? code _)%N = true |- _ => apply N.leb_le in E
         | E : (code _ <=? _)%N = true |- _ => apply N.leb_le in E
         end;
    repeat split; apply N.leb_le; lia.
Qed.

Lemma space_byte_no_digit (c : ascii) :
  space_byte c = true -> digit_value c = None.
Proof.
  unfold space_byte, space1, digit_value. intros H.
  destruct ((48 <=? code c)%N && (code c <=? 57)%N) eqn:Hd; [|done].
  apply andb_true_iff in Hd as [Hlo Hhi]. apply N.leb_le in Hlo, Hhi.
  apply orb_true_iff in H as [H|H].
  - apply orb_true_iff in H as [H|H].
    + apply andb_true_iff in H as [_ H]. apply N.leb_le in H. lia.
    + apply N.eqb_eq in H. lia.
  - apply N.leb_le in H. lia.
Qed.

Lemma space_bytes_app (s t : string) :
  space_bytes (s ++ t) <-> space_bytes s /\ space_bytes t.
Proof. unfold space_bytes. rewrite list_ascii_app. apply Forall_app. Qed.

Lemma space_bytes_rev (t : string) :
  space_bytes t -> space_bytes (rev_string t).
Proof.
  unfold space_bytes, rev_string.
  rewrite list_ascii_of_string_of_list_ascii. apply Forall_rev.
Qed.

(** What [trim_front] takes off, when the runes it recognises are made of
    bytes of white space. *)
Lemma trim_front_split (p1 : ascii -> bool) (p2 : ascii -> ascii -> bool)
    (p3 : ascii -> ascii -> ascii -> bool) (s : string) :
  (forall a, p1 a = true -> space_byte a = true) ->
  (forall a b, p2 a b = true -> space_byte a = true /\ space_byte b = true) ->
  (forall a b c, p3 a b c = true ->
     space_byte a = true /\ space_byte b = true /\ space_byte c = true) ->
  exists t, s = t ++ trim_front p1 p2 p3 s /\ space_bytes t.
Proof.
  intros Hp1 Hp2 Hp3.
  assert (forall n s, (String.length s <= n)%nat ->
            exists t, s = t ++ trim_front p1 p2 p3 s /\ space_bytes t)
    as Hall; [|by apply (Hall (String.length s))].
  clear s. induction n as [|n IH]; intros s Hlen.
  - destruct s; [|simpl in Hlen; lia]. exists "". split; [done|constructor].
  - assert (forall x : string, exists t, x = t ++ x /\ space_bytes t) as Hhere
      by (intros x; exists ""; split; [done|constructor]).
    destruct s as [|a r1]; [apply Hhere|].
    destruct (p1 a) eqn:H1.
    { rewrite trim_front_1 by done.
      destruct (IH r1) as (t & Ht & Hsp); [simpl in Hlen; lia|].
      exists (String a t). split.
      - change (String a t ++ trim_front p1 p2 p3 r1)
          with (String a (t ++ trim_front p1 p2 p3 r1)). by rewrite <- Ht.
      - constructor; [by apply Hp1|done]. }
    destruct r1 as [|b r2].
    { rewrite trim_front_stop1 by done. apply Hhere. }
    destruct (p2 a b) eqn:H2.
    { rewrite trim_front_2 by done.
      destruct (IH r2) as (t & Ht & Hsp); [simpl in Hlen; lia|].
      destruct (Hp2 a b H2) as [Ha Hb].
      exists (String a (String b t)). split.
      - change (String a (String b t) ++ trim_front p1 p2 p3 r2)
          with (String a (String b (t ++ trim_front p1 p2 p3 r2))).
        by rewrite <- Ht.
      - constructor; [done|]. by constructor. }
    destruct r2 as [|c r3].
    { rewrite trim_front_stop2 by done. apply Hhere. }
    destruct (p3 a b c) eqn:H3.
    { rewrite trim_front_3 by done.
      destruct (IH r3) as (t & Ht & Hsp); [simpl in Hlen; lia|].
      destruct (Hp3 a b c H3) as (Ha & Hb & Hc).
      exists (String a (String b (String c t))). split.
      - change (String a (String b (String c t)) ++ trim_front p1 p2 p3 r3)
          with (String a (String b (String c (t ++ trim_front p1 p2 p3 r3)))).
        by rewrite <- Ht.
      - constructor; [done|]. constructor; [done|]. by constructor. }
    rewrite trim_front_stop3 by done. apply Hhere.
Qed.

(** [strings.TrimSpace] takes a run of white space off the front. *)
Lemma TrimLeftSpace_split (s : string) :
  exists l, white_run l /\ s = l ++ TrimLeftSpace s.
Proof.
  unfold TrimLeftSpace.
  assert (forall n s, (String.length s <= n)%nat ->
            exists l, white_run l
                      /\ s = l ++ trim_front space1 space2 space3 s)
    as Hall; [|by apply (Hall (String.length s))].
  clear s. induction n as [|n IH]; intros s Hlen.
  - destruct s; [|simpl in Hlen; lia]. exists "". split; [constructor|done].
  - assert (forall x : string, exists l, white_run l /\ x = l ++ x) as Hhere
      by (intros x; exists ""; split; [constructor|done]).
    destruct s as [|a r1]; [apply Hhere|].
    destruct (space1 a) eqn:H1.
    { rewrite trim_front_1 by done.
      destruct (IH r1) as (l & Hl & Heq); [simpl in Hlen; lia|].
      exists (String a l). split; [by constructor|].
      change (String a l ++ trim_front space1 space2 space3 r1)
        with (String a (l ++ trim_front space1 space2 space3 r1)).
      by rewrite <- Heq. }
    destruct r1 as [|b r2].
    { rewrite trim_front_stop1 by done. apply Hhere. }
    destruct (space2 a b) eqn:H2.
    { rewrite trim_front_2 by done.
      destruct (IH r2) as (l & Hl & Heq); [simpl in Hlen; lia|].
      exists (String a (String b l)). split; [by constructor|].
      change (String a (String b l) ++ trim_front space1 space2 space3 r2)
        with (String a (String b (l ++ trim_front space1 space2 space3 r2))).
      by rewrite <- Heq. }
    destruct r2 as [|c r3].
    { rewrite trim_front_stop2 by done. apply Hhere. }
    destruct (space3 a b c) eqn:H3.
    { rewrite trim_front_3 by done.
      destruct (IH r3) as (l & Hl & Heq); [simpl in Hlen; lia|].
      exists (String a (String b (String c l))). split; [by constructor|].
      change (String a (String b (String c l))
              ++ trim_front space1 space2 space3 r3)
        with (String a (String b (String c
                (l ++ trim_front space1 space2 space3 r3)))).
      by rewrite <- Heq. }
    rewrite trim_front_stop3 by done. apply Hhere.
Qed.

(** A run of white space at the front goes. *)
Lemma TrimLeftSpace_white_run (l x : string) :
  white_run l -> TrimLeftSpace (l ++ x) = TrimLeftSpace x.
Proof.
  unfold TrimLeftSpace.
  induction 1 as [|a r Ha _ IH|a b r Hab _ IH|a b c r Habc _ IH].
  - reflexivity.
  - change (String a r ++ x) with (String a (r ++ x)).
    by rewrite trim_front_1.
  - change (String a (String b r) ++ x) with (String a (String b (r ++ x))).
    destruct (space2_first a b Hab) as [H1 _].
    by rewrite trim_front_2.
  - change (String a (String b (String c r)) ++ x)
      with (String a (String b (String c (r ++ x)))).
    destruct (space3_first a b c Habc) as (H1 & _ & H2).
    by rewrite trim_front_3.
Qed.

Lemma TrimLeftSpace_key (s : string) :
  TrimLeftSpace ("APP_PORT=" ++ s) = "APP_PORT=" ++ s.
Proof. reflexivity. Qed.

(** [strings.TrimSpace] takes bytes of white space off the end. *)
Lemma TrimRightSpace_split (s : string) :
  exists t, s = TrimRightSpace s ++ t /\ space_bytes t.
Proof.
  unfold TrimRightSpace.
  destruct (trim_front_split space1 (fun a b => space2 b a)
              (fun a b c => space3 c b a) (rev_string s))
    as (t & Ht & Hsp).
  - apply space1_byte.
  - intros a b H. by destruct (space2_bytes b a H).
  - intros a b c H. by destruct (space3_bytes c b a H) as (? & ? & ?).
  - exists (rev_string t). split; [|by apply space_bytes_rev].
    rewrite <- rev_string_app, <- Ht. by rewrite rev_string_involutive.
Qed.

(** A text that ends in a byte that is no white space stays whole when
    bytes of white space are taken off the end of what follows it. *)
Lemma front_kept (u0 : string) (c : ascii) (rest y t : string) :
  space_byte c = false -> space_bytes t ->
  (u0 ++ String c "") ++ rest = y ++ t ->
  exists rest', y = (u0 ++ String c "") ++ rest' /\ rest = rest' ++ t.
Proof.
  intros Hc Ht. revert y. induction u0 as [|a u0 IH]; intros y Heq.
  - change (("" ++ String c "") ++ rest) with (String c rest) in Heq.
    destruct y as [|b y].
    + change ("" ++ t) with t in Heq. subst t.
      apply Forall_cons in Ht as [Ht _]. congruence.
    + change (String b y ++ t) with (String b (y ++ t)) in Heq.
      injection Heq as <- ->. by exists y.
  - change ((String a u0 ++ String c "") ++ rest)
      with (String a ((u0 ++ String c "") ++ rest)) in Heq.
    destruct y as [|b y].
    + change ("" ++ t) with t in Heq. subst t.
      apply Forall_cons in Ht as [_ Ht].
      apply space_bytes_app in Ht as [Ht _].
      apply space_bytes_app in Ht as [_ Ht].
      apply Forall_cons in Ht as [Ht _]. congruence.
    + change (String b y ++ t) with (String b (y ++ t)) in Heq.
      injection Heq as <- Heq. destruct (IH y Heq) as (rest' & -> & ->).
      by exists rest'.
Qed.

Lemma digit_char_no_space (d : Z) :
  0 <= d <= 9 -> space_byte (digit_char d) = false.
Proof. intros H. each_digit d H; reflexivity. Qed.

(** Bytes of white space after a number do not change what it denotes. *)
Lemma number_text_trim (s t : string) (v : Z) :
  space_bytes t -> number_text (s ++ t) v <-> number_text s v.
Proof.
  intros Ht. split.
  - intros (sp & sg & ds & rest & Heq & Hsp & Hsg & Hne & Hds & Hrest & Hv
            & Hok).
    destruct (exists_last Hne) as (ds0 & d & ->).
    apply Forall_app in Hds as Hds'. destruct Hds' as [_ Hd].
    apply Forall_cons in Hd as [Hd _].
    assert (s ++ t
            = ((sp ++ sg ++ digits_text ds0) ++ String (digit_char d) "")
              ++ rest) as Heq'.
    { rewrite Heq, digits_text_snoc. by rewrite !append_assoc. }
    symmetry in Heq'.
    destruct (front_kept _ _ _ _ _ (digit_char_no_space d Hd) Ht Heq')
      as (rest' & -> & ->).
    exists sp, sg, (ds0 ++ [d])%list, rest'. split.
    { rewrite digits_text_snoc. by rewrite !append_assoc. }
    split; [done|]. split; [done|]. split; [done|]. split; [done|].
    split; [|done]. destruct rest'; [done|exact Hrest].
  - intros (sp & sg & ds & rest & -> & Hsp & Hsg & Hne & Hds & Hrest & Hv
            & Hok).
    exists sp, sg, ds, (rest ++ t). split; [by rewrite !append_assoc|].
    split; [done|]. split; [done|]. split; [done|]. split; [done|].
    split; [|done]. destruct rest as [|c rest]; [|done].
    change ("" ++ t) with t. destruct t as [|c t]; [done|].
    apply Forall_cons in Ht as [Hc _]. by apply space_byte_no_digit.
Qed.

(** What one turn of the loop reads on a line, said without the trimming
    and without the scanner. *)
Lemma app_port_value_reads (line : string) (v : Z) :
  app_port_value line = Some v <-> reads line v.
Proof.
  rewrite app_port_value_trimmed. unfold reads, TrimSpace. split.
  - intros (s & Htrim & Hv).
    destruct (TrimLeftSpace_split line) as (l & Hl & Hline).
    destruct (TrimRightSpace_split (TrimLeftSpace line)) as (t & Hx & Ht).
    rewrite Htrim in Hx. exists l, (s ++ t). split.
    + rewrite Hline at 1. rewrite Hx. by rewrite !append_assoc.
    + split; [done|]. by apply number_text_trim.
  - intros (l & s & -> & Hl & Hv).
    rewrite TrimLeftSpace_white_run, TrimLeftSpace_key by done.
    destruct (TrimRightSpace_split ("APP_PORT=" ++ s)) as (t & Hx & Ht).
    assert (space_byte "=" = false) as Heqc by reflexivity.
    destruct (front_kept "APP_PORT" "=" s _ t Heqc Ht Hx) as (s' & Hy & ->).
    exists s'. split; [exact Hy|]. by apply (number_text_trim s' t).
Qed.

Lemma lines_recover_recovers (lines : list string) (s : Z) :
  lines_recover lines s <-> recovers lines s.
Proof.
  unfold lines_recover, recovers. split.
  - intros (i & line & v & Hi & Hv & Hge & Hs & Hfirst).
    exists i, line, v. split; [done|].
    split; [by apply app_port_value_reads|]. split; [done|].
    split; [done|]. intros j line' v' Hj Hl Hv'.
    apply (Hfirst j line' v' Hj Hl). by apply app_port_value_reads.
  - intros (i & line & v & Hi & Hv & Hge & Hs & Hfirst).
    exists i, line, v. split; [done|].
    split; [by apply app_port_value_reads|]. split; [done|].
    split; [done|]. intros j line' v' Hj Hl Hv'.
    apply (Hfirst j line' v' Hj Hl). by apply app_port_value_reads.
Qed.

(** ** Recovery from the environment file *)

(** What the scan accepts and what it passes over: white space around the
    line and before the number, a sign, and text after the digits are
    tolerated; a quoted value, an empty value, a key that is not at the
    front, and a value outside the [int] range are not read. *)
Example app_port_value_examples :
  app_port_value "APP_PORT=8051" = Some 8051
  /\ app_port_value "   APP_PORT= +8051 # web  " = Some 8051
  /\ app_port_value "APP_PORT=8051.75" = Some 8051
  /\ app_port_value "APP_PORT=-3" = Some (-3)
  /\ app_port_value "APP_PORT='8051'" = None
  /\ app_port_value "APP_PORT=" = None
  /\ app_port_value "export APP_PORT=8051" = None
  /\ app_port_value "APP_PORT=9223372036854775808" = None.
Proof. repeat split; reflexivity. Qed.

(** The lines of the repository's own test file, and a file whose first
    APP_PORT line is below 8000. *)
Example scanEnvLines_examples :
  scanEnvLines ["DEBUG=true"; "APP_PORT=8051"; "DB_DATABASE=testing"]
  = (51, true)
  /\ scanEnvLines ["APP_PORT=500"; "APP_PORT=8051"; "APP_PORT=9000"]
     = (51, true)
  /\ scanEnvLines ["APP_PORT=500"; "APP_PORT=7999"] = (0, false)
  /\ splitLines (String "a" (String CR (String LF (String LF "b"))))
     = ["a"; ""; "b"].
Proof. repeat split; reflexivity. Qed.


Lemma extractSuffixFromEnv_read (w : World) (envPath content : string) :
  readFileOf w envPath = Some content ->
  extractSuffixFromEnv w envPath = scanEnvLines (splitLines content).
Proof. intros Hr. unfold extractSuffixFromEnv. by rewrite Hr. Qed.

(** C4 (recovery from the environment file): every text is made of parts
    without a line feed, joined by line feeds, and [extractSuffixFromEnv]
    goes through the parts of the file from the top: it returns, with
    [found = true], the value minus 8000 of the first part that reads a
    value of at least 8000, and [(0, false)] when no part does or the file
    cannot be read. A part reads the value [v] when it is white space,
    then "APP_PORT=", then white space, an optional sign and a run of
    decimal digits that denote [v], an [int]; the white space may be empty,
    and what follows the digits is not looked at. A part that reads a
    value below 8000 is passed over. The line "APP_PORT=" followed by a
    decimal numeral reads the number of the numeral. A file with the line
    APP_PORT=8051 recovers 51; one with APP_PORT=500 recovers nothing, and
    the suggestion falls through to [MaxSuffix + 1]. *)
Theorem extractSuffixFromEnv_first_line :
  (forall content : string,
      exists parts,
        parts <> [] /\ Forall no_LF parts
        /\ content = String.concat (String LF "") parts)
  /\ (forall (w : World) (envPath : string) (parts : list string),
        parts <> [] -> Forall no_LF parts ->
        readFileOf w envPath = Some (String.concat (String LF "") parts) ->
        (forall s, extractSuffixFromEnv w envPath = (s, true)
                   <-> recovers parts s)
        /\ (extractSuffixFromEnv w envPath = (0, false)
            <-> forall s, ~ recovers parts s))
  /\ (forall (w : World) (envPath : string),
        readFileOf w envPath = None ->
        extractSuffixFromEnv w envPath = (0, false))
  /\ (forall ds : list Z,
        ds <> [] -> Forall (fun d => 0 <= d <= 9) ds ->
        digits_number ds <= int_max ->
        reads ("APP_PORT=" ++ digits_text ds) (digits_number ds))
  /\ (forall (w : World) (envPath : string),
        readFileOf w envPath = Some "APP_PORT=8051" ->
        extractSuffixFromEnv w envPath = (51, true))
  /\ (forall (w : World) (envPath : string),
        readFileOf w envPath = Some "APP_PORT=500" ->
        extractSuffixFromEnv w envPath = (0, false))
  /\ (forall (w : World) (p absDir : string) (state : PortState)
             (existed : bool),
        loadPortState w = Ok (state, existed) -> Abs w p = Ok absDir ->
        project state absDir = None ->
        statOf w (Join p ".env") = StatOk ->
        (readFileOf w (Join p ".env") = Some "APP_PORT=8051" ->
         getSuggestedSuffix w p = Ok (51, true, existed))
        /\ (readFileOf w (Join p ".env") = Some "APP_PORT=500" ->
            getSuggestedSuffix w p
            = Ok (int_add (MaxSuffix state) 1, false, existed))).
Proof.
  split; [exact text_parts|].
  split; [|split; [|split; [|split; [|split]]]].
  - intros w envPath parts Hne Hno Hr.
    rewrite (extractSuffixFromEnv_read w envPath _ Hr).
    rewrite scanEnvLines_parts by done.
    destruct (scanEnvLines_recover parts)
      as [(s0 & Hs0 & Hiff)|[Hnone Hno']].
    + rewrite Hs0. split.
      * intros s. rewrite <- lines_recover_recovers, Hiff.
        split; [by intros [= ->]|by intros ->].
      * split; [discriminate|]. intros Hnot.
        destruct (Hnot s0). by apply lines_recover_recovers, Hiff.
    + rewrite Hnone. split.
      * intros s. split; [discriminate|]. intros Hs.
        destruct (Hno' s). by apply lines_recover_recovers.
      * split; [|done]. intros _ s Hs.
        destruct (Hno' s). by apply lines_recover_recovers.
  - intros w envPath Hr. unfold extractSuffixFromEnv. by rewrite Hr.
  - intros ds Hne Hds Hmax.
    by apply app_port_value_reads, app_port_value_digits.
  - intros w envPath Hr.
    by rewrite (extractSuffixFromEnv_read w envPath _ Hr).
  - intros w envPath Hr.
    by rewrite (extractSuffixFromEnv_read w envPath _ Hr).
  - intros w p absDir state existed Hl Ha Hp Hstat. split.
    + intros Hr. unfold getSuggestedSuffix. rewrite Hl, Ha, Hp, Hstat.
      by rewrite (extractSuffixFromEnv_read w _ _ Hr).
    + intros Hr. unfold getSuggestedSuffix. rewrite Hl, Ha, Hp, Hstat.
      by rewrite (extractSuffixFromEnv_read w _ _ Hr).
Qed.

(** ** The theorems at concrete worlds *)

Lemma int_ok_48 : int_ok 48.
Proof. unfold int_ok, int_min, int_max. lia. Defined.

Lemma twoProjects_wf : wf_state twoProjects.
Proof.
  apply wf_state_intro.
  - unfold int_ok, int_min, int_max. lia.
  - intros m [= <-]. apply map_Forall_insert_2.
    + unfold int_ok, int_min, int_max. lia.
    + apply map_Forall_insert_2; [|apply map_Forall_empty].
      unfold int_ok, int_min, int_max. lia.
Defined.

Lemma worldTwo_loads : loadPortState worldTwo = Ok (twoProjects, true).
Proof. vm_compute. reflexivity. Defined.

Lemma worldTwo_order : range_order twoProjects [("/a", 51); ("/b", 52)].
Proof. unfold range_order. vm_compute. reflexivity. Defined.




Lemma saveProjectSuffix_then_suggest_witness :
  int_ok 48
  /\ saveProjectSuffix world0 "/a" 48
     = (Ok tt, with_stateFile world0
                 (FileJSON (Marshal (mkPortState 48 (Some {["/a" := 48]})))))
  /\ utf8_dir world0 "/a"
  /\ getSuggestedSuffix (with_stateFile world0
                           (FileJSON (Marshal
                              (mkPortState 48 (Some {["/a" := 48]})))))
       "/a"
     = Ok (48, true, true).
Proof.
  assert (utf8_dir world0 "/a") as Hutf by (by intros a [= <-]).
  assert (saveProjectSuffix world0 "/a" 48
          = (Ok tt, with_stateFile world0
                      (FileJSON (Marshal
                         (mkPortState 48 (Some {["/a" := 48]}))))))
    as Hsave by (vm_compute; reflexivity).
  split; [exact int_ok_48|]. split; [exact Hsave|]. split; [exact Hutf|].
  exact (proj2 (proj1 saveProjectSuffix_then_suggest world0 _ "/a" 48
                  int_ok_48 Hsave) Hutf).
Defined.

(** C2, as the claim states it, fails for a directory whose name is not
    UTF-8 text: the save succeeds, but the key is written with U+FFFD in
    place of the byte 255, so the directory is not found again and is
    offered a new suffix. *)
Lemma saveProjectSuffix_then_suggest_counterexample :
  (saveProjectSuffix world0 byteDir255 5).1 = Ok tt
  /\ getSuggestedSuffix (saveProjectSuffix world0 byteDir255 5).2 byteDir255
     = Ok (6, false, true).
Proof. split; vm_compute; reflexivity. Qed.

Lemma ValidateSuffix_range_witness :
  (0 <= 48 <= 47435 /\ ValidateSuffix 48 = None)
  /\ (ValidateSuffix 100000 = Some (ErrSuffixTooLarge 100000 118100)
      /\ is_range_error (ErrSuffixTooLarge 100000 118100) = true).
Proof.
  split.
  - assert (0 <= 48 <= 47435) as H by lia. split; [exact H|].
    exact (proj2 (proj1 ValidateSuffix_range 48) H).
  - split; [reflexivity|].
    exact (proj1 (proj2 ValidateSuffix_range) 100000 _ eq_refl).
Defined.

Lemma extractSuffixFromEnv_first_line_witness :
  (["APP_PORT=500"; "APP_PORT=8051"] <> []
   /\ Forall no_LF ["APP_PORT=500"; "APP_PORT=8051"]
   /\ readFileOf
        (with_file world0 "/c/.env"
           (String.concat (String LF "") ["APP_PORT=500"; "APP_PORT=8051"]))
        "/c/.env"
      = Some (String.concat (String LF "")
                ["APP_PORT=500"; "APP_PORT=8051"])
   /\ (extractSuffixFromEnv
         (with_file world0 "/c/.env"
            (String.concat (String LF "") ["APP_PORT=500"; "APP_PORT=8051"]))
         "/c/.env" = (51, true)
       <-> recovers ["APP_PORT=500"; "APP_PORT=8051"] 51))
  /\ ([8; 0; 5; 1] <> []
      /\ Forall (fun d => 0 <= d <= 9) [8; 0; 5; 1]
      /\ digits_number [8; 0; 5; 1] <= int_max
      /\ reads ("APP_PORT=" ++ digits_text [8; 0; 5; 1])
           (digits_number [8; 0; 5; 1])).
Proof.
  split.
  - assert (["APP_PORT=500"; "APP_PORT=8051"] <> []) as Hne by discriminate.
    assert (Forall no_LF ["APP_PORT=500"; "APP_PORT=8051"]) as Hno
      by (repeat constructor; discriminate).
    split; [exact Hne|]. split; [exact Hno|]. split; [reflexivity|].
    exact (proj1 (proj1 (proj2 extractSuffixFromEnv_first_line)
                    (with_file world0 "/c/.env"
                       (String.concat (String LF "")
                          ["APP_PORT=500"; "APP_PORT=8051"]))
                    "/c/.env" ["APP_PORT=500"; "APP_PORT=8051"] Hne Hno
                    eq_refl) 51).
  - assert ([8; 0; 5; 1] <> []) as Hne by discriminate.
    assert (Forall (fun d => 0 <= d <= 9) [8; 0; 5; 1]) as Hds
      by (repeat constructor; lia).
    assert (digits_number [8; 0; 5; 1] <= int_max) as Hmax
      by (vm_compute; discriminate).
    split; [exact Hne|]. split; [exact Hds|]. split; [exact Hmax|].
    exact (proj1 (proj2 (proj2 (proj2 extractSuffixFromEnv_first_line)))
             [8; 0; 5; 1] Hne Hds Hmax).
Defined.

(** C4, as the claim states it, fails for a file whose first APP_PORT
    line has a blank before the number: the claim takes a value to be a
    whole decimal numeral right after "APP_PORT=", so it passes over that
    line and recovers 51 from the next, while the scan of the code reads
    9000 on the first line and recovers 1000. *)
Lemma extractSuffixFromEnv_first_line_counterexample :
  claimed_value "APP_PORT= 9000" = None
  /\ claimed_recover ["APP_PORT= 9000"; "APP_PORT=8051"] = (51, true)
  /\ extractSuffixFromEnv
       (with_file world0 "/c/.env"
          (String.concat (String LF "") ["APP_PORT= 9000"; "APP_PORT=8051"]))
       "/c/.env" = (1000, true).
Proof. repeat split; vm_compute; reflexivity. Qed.

Lemma isSuffixInUseByOther_conflict_witness :
  (exists q, q <> "/c" /\ project twoProjects q = Some 51)
  /\ (exists q, isSuffixInUseByOther worldTwo [("/a", 51); ("/b", 52)]
                  "/c" 51 = (q, true)
                /\ q <> "/c" /\ project twoProjects q = Some 51)
  /\ isSuffixInUseByOther worldTwo [("/b", 52); ("/a", 51)] "/c" 51
     = ("/a", true).
Proof.
  assert (exists q, q <> "/c" /\ project twoProjects q = Some 51) as Hq.
  { exists "/a". split; [discriminate|reflexivity]. }
  split; [exact Hq|]. split.
  - exact (proj2 (proj1 isSuffixInUseByOther_conflict worldTwo
                    [("/a", 51); ("/b", 52)] "/c" "/c" 51 twoProjects true
                    worldTwo_loads eq_refl worldTwo_order) Hq).
  - apply (proj2 isSuffixInUseByOther_conflict worldTwo
             [("/b", 52); ("/a", 51)] true worldTwo_loads).
    unfold range_order.
    change (entries twoProjects) with [("/a", 51); ("/b", 52)].
    apply perm_swap.
Defined.

Lemma twoProjects_utf8 : utf8_state twoProjects.
Proof.
  apply utf8_state_intro. intros m [= <-].
  apply map_Forall_insert_2; [reflexivity|].
  apply map_Forall_insert_2; [reflexivity|]. apply map_Forall_empty.
Defined.

Lemma save_load_roundtrip_witness :
  wf_state twoProjects /\ utf8_state twoProjects
  /\ save twoProjects world0
     = (None, with_stateFile world0 (FileJSON (Marshal twoProjects)))
  /\ loadPortState (with_stateFile world0 (FileJSON (Marshal twoProjects)))
     = Ok (twoProjects, true).
Proof.
  split; [exact twoProjects_wf|]. split; [exact twoProjects_utf8|].
  split; [reflexivity|].
  exact (proj1 (proj1 (save_load_roundtrip world0 twoProjects twoProjects_wf)
                  twoProjects_utf8) _ eq_refl).
Defined.

(** C7, as the claim states it, fails for a registry whose keys are not
    UTF-8 text: the two keys of [twoByteDirs] are both written as "/t/"
    followed by U+FFFD, and what loads is a registry of one entry. *)
Lemma save_load_roundtrip_counterexample :
  (save twoByteDirs world0).1 = None
  /\ loadPortState (save twoByteDirs world0).2
     = Ok (mkPortState 2
             (Some {[ "/t/" ++ String "239" (String "191" (String "189" ""))
                      := 1 ]}), true)
  /\ project twoByteDirs byteDir255 = Some 1
  /\ project twoByteDirs byteDir254 = Some 2.
Proof. repeat split; vm_compute; reflexivity. Qed.


Lemma RemoveProject_exact_witness :
  (project twoProjects "/c" = None
   /\ RemoveProject worldTwo "/c" = (Err (ErrNotRegistered "/c"), worldTwo))
  /\ (is_Some (project twoProjects "/a") /\ onWrite worldTwo = WriteDone
      /\ exists w', RemoveProject worldTwo "/a" = (Ok tt, w')).
Proof.
  split.
  - split; [reflexivity|].
    exact (proj1 (RemoveProject_exact worldTwo "/c" "/c" twoProjects true
                    worldTwo_loads eq_refl) eq_refl).
  - assert (is_Some (project twoProjects "/a")) as Ha by (by exists 51).
    split; [exact Ha|]. split; [reflexivity|].
    exact (proj2 (proj2 (RemoveProject_exact worldTwo "/a" "/a" twoProjects
                           true worldTwo_loads eq_refl)) Ha eq_refl).
Defined.

Lemma isSuffixInUseByOther_load_failure_witness :
  stateFile (with_stateFile worldTwo FileGarbage) = FileGarbage
  /\ isSuffixInUseByOther (with_stateFile worldTwo FileGarbage)
       [("/a", 51); ("/b", 52)] "/c" 51 = ("", false).
Proof.
  split; [reflexivity|].
  exact (proj1 (proj2 (proj2 (isSuffixInUseByOther_load_failure
                                (with_stateFile worldTwo FileGarbage)
                                [("/a", 51); ("/b", 52)] "/c" 51)))
           eq_refl).
Defined.

(** * Further properties of the code *)

(** ** Ports of a suffix *)

Lemma suffixPorts_exact (s : Z) :
  - 2 ^ 62 <= s <= 2 ^ 62 ->
  suffixPorts s
  = [ ("APP_PORT", 8000 + s); ("FORWARD_DB_PORT", 3300 + s);
      ("FORWARD_REDIS_PORT", 6300 + s);
      ("FORWARD_MEILISEARCH_PORT", 7700 + s);
      ("FORWARD_MAILPIT_DASHBOARD_PORT", 18100 + s);
      ("FORWARD_MAILPIT_PORT", 1000 + s); ("VITE_PORT", 5100 + s) ].
Proof.
  intros Hs. unfold suffixPorts, int_add.
  rewrite !wrap_int_ok by int_range. reflexivity.
Qed.

Lemma wrap_above (z : Z) :
  int_max < z <= int_max + 2 ^ 64 -> wrap z = z - 2 ^ 64.
Proof.
  intros Hz. unfold wrap.
  replace (z + 2 ^ 63) with (z + 2 ^ 63 - 2 ^ 64 + 1 * 2 ^ 64) by lia.
  rewrite Z.mod_add by lia. rewrite Z.mod_small; int_range.
Qed.

Lemma elem_of_suffixPorts (s : Z) (name : string) (port : Z) :
  (name, port) ∈ suffixPorts s
  <-> (name, port) = ("APP_PORT", int_add 8000 s)
      \/ (name, port) = ("FORWARD_DB_PORT", int_add 3300 s)
      \/ (name, port) = ("FORWARD_REDIS_PORT", int_add 6300 s)
      \/ (name, port) = ("FORWARD_MEILISEARCH_PORT", int_add 7700 s)
      \/ (name, port) = ("FORWARD_MAILPIT_DASHBOARD_PORT", int_add 18100 s)
      \/ (name, port) = ("FORWARD_MAILPIT_PORT", int_add 1000 s)
      \/ (name, port) = ("VITE_PORT", int_add 5100 s).
Proof.
  unfold suffixPorts. rewrite !elem_of_cons, elem_of_nil. tauto.
Qed.

Lemma valid_suffix_ports (s : Z) (name : string) (port : Z) :
  0 <= s <= 47435 -> (name, port) ∈ suffixPorts s ->
  port = 8000 + s \/ port = 3300 + s \/ port = 6300 + s \/ port = 7700 + s
  \/ port = 18100 + s \/ port = 1000 + s \/ port = 5100 + s.
Proof.
  intros Hs. rewrite suffixPorts_exact by lia.
  rewrite !elem_of_cons, elem_of_nil.
  intros [H|[H|[H|[H|[H|[H|[H|[]]]]]]]]; injection H as _ ->; tauto.
Qed.

(** X1 (the validator and the ports): for a Go [int] the validator
    accepts a suffix exactly when each of the seven ports that
    [CheckSuffixPortsAvailable] derives from it lies between 1000 and
    65535; so 47435 is the largest suffix all of whose ports are TCP
    ports. *)
Theorem ValidateSuffix_iff_ports_in_range :
  forall s : Z,
    int_ok s ->
    (ValidateSuffix s = None
     <-> forall name port,
           (name, port) ∈ suffixPorts s -> 1000 <= port <= 65535).
Proof.
  intros s Hs.
  assert (ValidateSuffix s = None <-> 0 <= s <= 47435) as ->.
  { unfold ValidateSuffix, MaxPortSuffix.
    destruct (Z.ltb_spec s 0); [split; [discriminate|lia]|].
    destruct (Z.gtb_spec s 47435); [split; [discriminate|lia]|].
    split; [lia|done]. }
  split.
  - intros Hv name port Hin.
    pose proof (valid_suffix_ports s name port Hv Hin). lia.
  - intros Hall.
    assert (1000 <= int_add 1000 s <= 65535) as Hlow.
    { apply (Hall "FORWARD_MAILPIT_PORT"), elem_of_suffixPorts. tauto. }
    assert (1000 <= int_add 18100 s <= 65535) as Hhigh.
    { apply (Hall "FORWARD_MAILPIT_DASHBOARD_PORT"), elem_of_suffixPorts.
      tauto. }
    unfold int_add in *.
    destruct (Z_lt_le_dec s 0) as [Hneg|Hpos].
    + rewrite (wrap_int_ok (1000 + s)) in Hlow by int_range. lia.
    + split; [done|].
      destruct (Z_le_gt_dec (18100 + s) int_max) as [Hfit|Hover].
      * rewrite (wrap_int_ok (18100 + s)) in Hhigh by int_range. lia.
      * rewrite (wrap_above (18100 + s)) in Hhigh by int_range.
        unfold int_ok, int_max in *. lia.
Qed.

Lemma ValidateSuffix_iff_ports_in_range_witness :
  int_ok 47435
  /\ (forall name port,
        (name, port) ∈ suffixPorts 47435 -> 1000 <= port <= 65535)
  /\ ValidateSuffix 47435 = None.
Proof.
  assert (int_ok 47435) as Hs by (unfold int_ok, int_min, int_max; lia).
  assert (ValidateSuffix 47435 = None) as Hv by reflexivity.
  split; [exact Hs|]. split; [|exact Hv].
  exact (proj1 (ValidateSuffix_iff_ports_in_range 47435 Hs) Hv).
Defined.

(** X2 (ports of different suffixes): the seven ports of one valid suffix
    are pairwise different; two valid suffixes less than 300 apart have no
    port in common; at a distance of exactly 300 they have: the
    FORWARD_MEILISEARCH_PORT of the higher one is the APP_PORT of the lower
    one. *)
Theorem suffix_ports_overlap :
  (forall s, 0 <= s <= 47435 -> NoDup (map snd (suffixPorts s)))
  /\ (forall s1 s2 name1 name2 port,
        0 <= s1 <= 47435 -> 0 <= s2 <= 47435 ->
        0 < s2 - s1 < 300 ->
        (name1, port) ∈ suffixPorts s1 -> (name2, port) ∈ suffixPorts s2 ->
        False)
  /\ (forall s, 0 <= s -> s + 300 <= 47435 ->
        ("APP_PORT", 8000 + s) ∈ suffixPorts s
        /\ ("FORWARD_MEILISEARCH_PORT", 8000 + s) ∈ suffixPorts (s + 300)).
Proof.
  split; [|split].
  - intros s Hs. rewrite suffixPorts_exact by lia. cbn [map snd].
    repeat (apply NoDup_cons; split;
            [rewrite ?elem_of_cons, elem_of_nil; lia|]).
    apply NoDup_nil_2.
  - intros s1 s2 name1 name2 port Hs1 Hs2 Hd H1 H2.
    pose proof (valid_suffix_ports s1 name1 port Hs1 H1).
    pose proof (valid_suffix_ports s2 name2 port Hs2 H2). lia.
  - intros s H0 H1. rewrite !suffixPorts_exact by lia. split.
    + apply list_elem_of_here.
    + replace (7700 + (s + 300)) with (8000 + s) by lia.
      do 3 apply list_elem_of_further. apply list_elem_of_here.
Qed.

Lemma suffix_ports_overlap_witness :
  (0 <= 48 /\ 48 + 300 <= 47435
   /\ ("APP_PORT", 8000 + 48) ∈ suffixPorts 48
   /\ ("FORWARD_MEILISEARCH_PORT", 8000 + 48) ∈ suffixPorts (48 + 300))
  /\ (0 <= 48 <= 47435 /\ NoDup (map snd (suffixPorts 48))).
Proof.
  assert (0 <= 48) as H0 by lia.
  assert (48 + 300 <= 47435) as H1 by lia.
  assert (0 <= 48 <= 47435) as H2 by lia.
  split.
  - split; [exact H0|]. split; [exact H1|].
    exact (proj2 (proj2 suffix_ports_overlap) 48 H0 H1).
  - split; [exact H2|]. exact (proj1 suffix_ports_overlap 48 H2).
Defined.

(** ** The port probe *)

Lemma elem_of_busyPorts (listen : Z -> bool) (ports : list (string * Z))
    (b : BusyPort) :
  b ∈ busyPorts listen ports
  <-> (Name b, Port b) ∈ ports /\ listen (Port b) = false.
Proof.
  induction ports as [|[name port] ports IH]; simpl.
  - rewrite elem_of_nil. split; [done|]. by intros [?%elem_of_nil _].
  - unfold CheckPortAvailable. destruct (listen port) eqn:Hl; simpl.
    + rewrite IH, elem_of_cons. split; [tauto|].
      intros [[[= <- <-]|Hin] Hb]; [congruence|done].
    + rewrite !elem_of_cons, IH. split.
      * intros [->|[Hin Hb]]; simpl; [by split; [left|]|by split; [right|]].
      * intros [[[= <- <-]|Hin] Hb]; [left; by destruct b|right; done].
Qed.

Lemma busyPorts_sublist (listen : Z -> bool) (ports : list (string * Z)) :
  sublist (map (fun b => (Name b, Port b)) (busyPorts listen ports)) ports.
Proof.
  induction ports as [|[name port] ports IH]; simpl; [constructor|].
  destruct (negb (CheckPortAvailable listen port)); simpl.
  - by apply sublist_skip.
  - by apply sublist_cons.
Qed.

(** X3 (the port probe): [CheckSuffixPortsAvailable] reports exactly the
    ports of the suffix on which listening fails, each under its name and
    in the order of the table; it reports nothing exactly when all seven
    can be listened on; and for a suffix the validator accepts every
    reported port lies between 1000 and 65535. *)
Theorem CheckSuffixPortsAvailable_busy :
  forall (listen : Z -> bool) (suffix : Z),
    (forall b, b ∈ CheckSuffixPortsAvailable listen suffix
               <-> (Name b, Port b) ∈ suffixPorts suffix
                   /\ listen (Port b) = false)
    /\ sublist (map (fun b => (Name b, Port b))
                  (CheckSuffixPortsAvailable listen suffix))
         (suffixPorts suffix)
    /\ (CheckSuffixPortsAvailable listen suffix = []
        <-> forall name port,
              (name, port) ∈ suffixPorts suffix -> listen port = true)
    /\ (ValidateSuffix suffix = None ->
        forall b, b ∈ CheckSuffixPortsAvailable listen suffix ->
                  1000 <= Port b <= 65535).
Proof.
  intros listen suffix. unfold CheckSuffixPortsAvailable.
  split; [intros b; apply elem_of_busyPorts|].
  split; [apply busyPorts_sublist|]. split.
  - split.
    + intros Hnil name port Hin.
      destruct (listen port) eqn:Hl; [done|].
      assert (mkBusyPort name port ∈ busyPorts listen (suffixPorts suffix))
        as Hb by by apply elem_of_busyPorts.
      rewrite Hnil in Hb. by apply elem_of_nil in Hb.
    + intros Hall.
      destruct (busyPorts listen (suffixPorts suffix)) as [|b l] eqn:Hb;
        [done|].
      assert (b ∈ busyPorts listen (suffixPorts suffix)) as Hin
        by (rewrite Hb; apply list_elem_of_here).
      apply elem_of_busyPorts in Hin as [Hin Hl].
      rewrite (Hall _ _ Hin) in Hl. discriminate.
  - intros Hv b [Hin _]%elem_of_busyPorts.
    assert (0 <= suffix <= 47435) as Hs.
    { revert Hv. unfold ValidateSuffix, MaxPortSuffix.
      destruct (Z.ltb_spec suffix 0); [discriminate|].
      destruct (Z.gtb_spec suffix 47435); [discriminate|]. lia. }
    pose proof (valid_suffix_ports suffix _ _ Hs Hin). lia.
Qed.

Lemma CheckSuffixPortsAvailable_busy_witness :
  ValidateSuffix 48 = None
  /\ CheckSuffixPortsAvailable (fun port => negb (port =? 3348)) 48
     = [mkBusyPort "FORWARD_DB_PORT" 3348]
  /\ (forall b,
        b ∈ CheckSuffixPortsAvailable (fun port => negb (port =? 3348)) 48 ->
        1000 <= Port b <= 65535).
Proof.
  split; [reflexivity|]. split; [reflexivity|].
  exact (proj2 (proj2 (proj2 (CheckSuffixPortsAvailable_busy
                                (fun port => negb (port =? 3348)) 48)))
           eq_refl).
Defined.

(** ** What the writing operations leave behind *)

Lemma gtb_max (s h : Z) : (if s >? h then s else h) = Z.max h s.
Proof. destruct (Z.gtb_spec s h); lia. Qed.

Lemma project_inserted (mx : Z) (m : gmap string Z) (a k : string) (s : Z) :
  project (mkPortState mx (Some (<[a := s]> m))) k
  = if decide (k = a) then Some s else project (mkPortState mx (Some m)) k.
Proof.
  unfold project. cbn [Projects]. destruct (decide (k = a)) as [->|Hne].
  - apply lookup_insert_eq.
  - by apply lookup_insert_ne.
Qed.

(** A successful [saveProjectSuffix]: what was loaded, and what is on file
    afterwards. *)
Lemma saveProjectSuffix_post (w w' : World) (p : string) (s : Z) :
  int_ok s -> utf8_dir w p -> saveProjectSuffix w p s = (Ok tt, w') ->
  exists state existed absDir m,
    loadPortState w = Ok (state, existed) /\ Abs w p = Ok absDir
    /\ Projects state = Some m
    /\ w' = with_stateFile w
              (FileJSON (Marshal (mkPortState (Z.max (MaxSuffix state) s)
                                    (Some (<[absDir := s]> m)))))
    /\ onWrite w = WriteDone
    /\ loadPortState w'
       = Ok (mkPortState (Z.max (MaxSuffix state) s)
               (Some (<[absDir := s]> m)), true).
Proof.
  intros Hs Hutf Hsave.
  destruct (saveProjectSuffix_ok w w' p s Hsave)
    as (state & existed & absDir & m & Hl & Ha & Hm & Hsv).
  rewrite gtb_max in Hsv.
  exists state, existed, absDir, m. repeat split; try done.
  - revert Hsv. unfold save.
    destruct (stateFile w), (onWrite w); by intros [= <-].
  - revert Hsv. unfold save.
    destruct (stateFile w), (onWrite w); by intros [= ?].
  - apply (load_after_save _ w); [| |done].
    + rewrite <- gtb_max. apply saved_state_wf; [|done|done].
      by apply (loadPortState_wf w state existed).
    + apply (saved_state_utf8 state m); [|done|by apply Hutf].
      by apply (loadPortState_utf8 w state existed).
Qed.

(** A successful [RemoveProject]. *)
Lemma RemoveProject_post (w w' : World) (p : string) :
  RemoveProject w p = (Ok tt, w') ->
  exists state existed absDir v,
    loadPortState w = Ok (state, existed) /\ Abs w p = Ok absDir
    /\ project state absDir = Some v
    /\ w' = with_stateFile w
              (FileJSON (Marshal (mkPortState (MaxSuffix state)
                                    (delete_key (Projects state) absDir))))
    /\ onWrite w = WriteDone
    /\ loadPortState w'
       = Ok (mkPortState (MaxSuffix state)
               (delete_key (Projects state) absDir), true).
Proof.
  unfold RemoveProject.
  destruct (loadPortState w) as [[state existed]|e|] eqn:Hl;
    try discriminate.
  destruct (Abs w p) as [absDir|e|] eqn:Ha; try discriminate.
  destruct (project state absDir) as [v|] eqn:Hv; try discriminate.
  destruct (save _ w) as [[e|] w1] eqn:Hs; try discriminate.
  intros [= <-]. exists state, existed, absDir, v.
  repeat split; try done.
  - revert Hs. unfold save.
    destruct (stateFile w), (onWrite w); by intros [= <-].
  - revert Hs. unfold save.
    destruct (stateFile w), (onWrite w); by intros [= ?].
  - apply (load_after_save _ w); [| |done].
    + apply (deleteAll_wf state [absDir]).
      by apply (loadPortState_wf w state existed).
    + apply (deleteAll_utf8 state [absDir]).
      by apply (loadPortState_utf8 w state existed).
Qed.

(** A successful [CleanOrphanedProjects]: the registry on file afterwards
    is the loaded one without the orphans. *)
Lemma CleanOrphanedProjects_post (w w' : World) (st : PortState)
    (existed : bool) (order : list (string * Z)) (n : Z) :
  loadPortState w = Ok (st, existed) ->
  CleanOrphanedProjects w order = (Ok n, w') ->
  n = Z.of_nat (length (orphans w order))
  /\ statOf w' = statOf w
  /\ exists existed',
       loadPortState w'
       = Ok (mkPortState (MaxSuffix st)
               (deleteAll (orphans w order) (Projects st)), existed').
Proof.
  intros Hl Hrun.
  destruct (CleanOrphanedProjects_ok w w' st existed order n Hl Hrun)
    as [Hn [(Hn0 & Ho & ->)|(Hpos & Hs)]].
  - split; [done|]. split; [done|]. exists existed.
    rewrite Ho, Hl. by destruct st.
  - split; [done|].
    split; [by apply (save_keeps_env _ _ _ _ Hs)|]. exists true.
    apply (load_after_save _ w); [| |done].
    + apply deleteAll_wf. by apply (loadPortState_wf w st existed).
    + apply deleteAll_utf8. by apply (loadPortState_utf8 w st existed).
Qed.

(** ** [ListProjects] *)

(** X4 (listing): with the registry loaded, [ListProjects] returns one
    entry for every assignment and no other: as many entries as
    assignments, no path twice, each with the suffix of the registry, and
    marked as existing unless [os.Stat] reports that the path does not
    exist. *)
Theorem ListProjects_complete :
  forall (w : World) (st : PortState) (existed : bool)
         (order : list (string * Z)),
    loadPortState w = Ok (st, existed) -> range_order st order ->
    exists l,
      ListProjects w order = Ok l
      /\ length l = length (entries st)
      /\ NoDup (map Path l)
      /\ forall path suffix ex,
           mkProjectInfo path suffix ex ∈ l
           <-> project st path = Some suffix
               /\ ex = negb (isNotExist (statOf w path)).
Proof.
  intros w st existed order Hl Hord. unfold ListProjects. rewrite Hl.
  eexists. split; [done|]. split; [|split].
  - rewrite length_map. by apply Permutation_length.
  - rewrite map_map. cbn [Path].
    change (map (fun x : string * Z => x.1) order) with (map fst order).
    assert (map fst order ≡ₚ map fst (entries st)) as ->
      by by apply Permutation_map.
    unfold entries. destruct (Projects st) as [m|]; [|apply NoDup_nil_2].
    apply NoDup_fst_map_to_list.
  - intros path suffix ex. rewrite list_elem_of_In, in_map_iff. split.
    + intros ([k v] & Heq & Hin). injection Heq as <- <- <-. split.
      * apply (range_order_elem st order); [done|]. by apply list_elem_of_In.
      * simpl. by destruct (isNotExist (statOf w k)).
    + intros [Hp ->]. exists (path, suffix). split.
      * simpl. by destruct (isNotExist (statOf w path)).
      * apply list_elem_of_In. by apply (range_order_elem st order).
Qed.

Lemma ListProjects_complete_witness :
  exists l,
    ListProjects worldTwo [("/b", 52); ("/a", 51)] = Ok l
    /\ length l = length (entries twoProjects)
    /\ NoDup (map Path l)
    /\ forall path suffix ex,
         mkProjectInfo path suffix ex ∈ l
         <-> project twoProjects path = Some suffix
             /\ ex = negb (isNotExist (statOf worldTwo path)).
Proof.
  apply (ListProjects_complete worldTwo twoProjects true
           [("/b", 52); ("/a", 51)] worldTwo_loads).
  unfold range_order.
  change (entries twoProjects) with [("/a", 51); ("/b", 52)].
  apply perm_swap.
Defined.

Lemma ListProjects_loaded (w : World) (st : PortState) (existed : bool)
    (order : list (string * Z)) :
  loadPortState w = Ok (st, existed) ->
  ListProjects w order
  = Ok (map (fun entry : string * Z =>
               mkProjectInfo entry.1 entry.2
                 (if isNotExist (statOf w entry.1) then false else true))
          order).
Proof. intros Hl. unfold ListProjects. by rewrite Hl. Qed.

Lemma length_missing (w : World) (order : list (string * Z)) :
  length (filter (fun i => Exists i = false)
            (map (fun entry : string * Z =>
                    mkProjectInfo entry.1 entry.2
                      (if isNotExist (statOf w entry.1) then false else true))
               order))
  = length (orphans w order).
Proof.
  unfold orphans. induction order as [|[k v] order IH]; [done|].
  cbn [map fst]. rewrite !filter_cons. cbn [Exists fst].
  destruct (isNotExist (statOf w k)); repeat case_decide; try done;
    simpl; by rewrite IH.
Qed.

(** X5 (listing and cleaning): the count a successful
    [CleanOrphanedProjects] returns is the number of entries [ListProjects]
    marks as not existing in the same world; and afterwards [ListProjects]
    returns exactly the entries it marked as existing, all still marked
    so. *)
Theorem ListProjects_after_clean :
  forall (w w' : World) (st : PortState) (existed : bool)
         (order : list (string * Z)) (n : Z),
    loadPortState w = Ok (st, existed) -> range_order st order ->
    CleanOrphanedProjects w order = (Ok n, w') ->
    exists before,
      ListProjects w order = Ok before
      /\ n = Z.of_nat (length (filter (fun i => Exists i = false) before))
      /\ forall st' existed' order',
           loadPortState w' = Ok (st', existed') ->
           range_order st' order' ->
           exists after,
             ListProjects w' order' = Ok after
             /\ forall i, i ∈ after <-> i ∈ before /\ Exists i = true.
Proof.
  intros w w' st existed order n Hl Hord Hrun.
  destruct (ListProjects_complete w st existed order Hl Hord)
    as (before & Hb & _ & _ & Hin).
  exists before. split; [done|].
  destruct (CleanOrphanedProjects_post w w' st existed order n Hl Hrun)
    as (Hn & Hstat & e1 & Hl1).
  split.
  - rewrite (ListProjects_loaded w st existed order Hl) in Hb.
    injection Hb as <-. by rewrite length_missing.
  - intros st' existed' order' Hl' Hord'.
    rewrite Hl1 in Hl'. injection Hl' as <- <-.
    destruct (ListProjects_complete w' _ e1 order' Hl1 Hord')
      as (after & Ha & _ & _ & Hin').
    exists after. split; [done|]. intros [path suffix ex].
    rewrite Hin', Hin, Hstat, project_deleteAll.
    replace (project (mkPortState (MaxSuffix st) (Projects st)) path)
      with (project st path) by by destruct st.
    destruct (decide (path ∈ orphans w order)) as [Ho|Ho].
    + apply (elem_of_orphans w st order Hord) in Ho as [_ Hne].
      rewrite Hne. simpl. split; [by intros [? _]|].
      by intros [[_ ->] ?].
    + split.
      * intros [Hp ->]. simpl.
        destruct (isNotExist (statOf w path)) eqn:Hne; [|done].
        destruct Ho. apply (elem_of_orphans w st order Hord).
        split; [by exists suffix|done].
      * by intros [? _].
Qed.

Lemma ListProjects_after_clean_witness :
  exists before,
    ListProjects worldTwo [("/a", 51); ("/b", 52)] = Ok before
    /\ 1 = Z.of_nat (length (filter (fun i => Exists i = false) before))
    /\ forall st' existed' order',
         loadPortState (CleanOrphanedProjects worldTwo
                          [("/a", 51); ("/b", 52)]).2
         = Ok (st', existed') ->
         range_order st' order' ->
         exists after,
           ListProjects (CleanOrphanedProjects worldTwo
                           [("/a", 51); ("/b", 52)]).2 order' = Ok after
           /\ forall i, i ∈ after <-> i ∈ before /\ Exists i = true.
Proof.
  apply (ListProjects_after_clean worldTwo _ twoProjects true
           [("/a", 51); ("/b", 52)] 1 worldTwo_loads worldTwo_order).
  vm_compute. reflexivity.
Defined.

(** ** A state file that cannot be loaded *)

(** X6 (no overwrite of an unreadable registry): when [loadPortState]
    fails, whether the file is unreadable, is not JSON, or does not decode,
    every operation returns that same error, and those that write leave the
    world, the state file included, exactly as it was. *)
Theorem load_failure_is_returned :
  forall (w : World) (e : error),
    loadPortState w = Err e ->
    (forall p, getSuggestedSuffix w p = Err e)
    /\ (forall p s, saveProjectSuffix w p s = (Err e, w))
    /\ (forall p, RemoveProject w p = (Err e, w))
    /\ (forall order, CleanOrphanedProjects w order = (Err e, w))
    /\ (forall order, ListProjects w order = Err e).
Proof.
  intros w e He. repeat split; intros;
    unfold getSuggestedSuffix, saveProjectSuffix, RemoveProject,
      CleanOrphanedProjects, ListProjects; by rewrite He.
Qed.

Lemma load_failure_is_returned_witness :
  loadPortState (with_stateFile worldTwo FileGarbage) = Err ErrUnmarshal
  /\ saveProjectSuffix (with_stateFile worldTwo FileGarbage) "/a" 51
     = (Err ErrUnmarshal, with_stateFile worldTwo FileGarbage).
Proof.
  split; [reflexivity|].
  exact (proj1 (proj2 (load_failure_is_returned
                         (with_stateFile worldTwo FileGarbage) ErrUnmarshal
                         eq_refl)) "/a" 51).
Defined.

Lemma store_fields_defaults (members : list (string * json))
    (st0 st : PortState) :
  store_fields members st0 = Some st ->
  ((forall k v, (k, v) ∈ members -> field_of_key k <> Some FMaxSuffix) ->
   MaxSuffix st = MaxSuffix st0)
  /\ ((forall k v, (k, v) ∈ members -> field_of_key k <> Some FProjects) ->
      Projects st = Projects st0).
Proof.
  revert st0. induction members as [|[k v] members IH]; intros st0; simpl.
  - by intros [= <-].
  - intros Hst.
    assert (forall f : field,
              (forall k' v', (k', v') ∈ (k, v) :: members ->
                 field_of_key k' <> Some f) ->
              field_of_key k <> Some f
              /\ forall k' v', (k', v') ∈ members ->
                   field_of_key k' <> Some f) as Hsplit.
    { intros f Hall. split; [apply (Hall k v), list_elem_of_here|].
      intros k' v' Hin. by apply (Hall k' v'), list_elem_of_further. }
    destruct (field_of_key k) as [[]|] eqn:Hk.
    + destruct (store_int v (MaxSuffix st0)) as [z|]; [|discriminate].
      destruct (IH _ Hst) as [IH1 IH2]. split.
      * intros Hall. by destruct (Hsplit _ Hall) as [? _].
      * intros Hall. destruct (Hsplit _ Hall) as [_ Hrest].
        by rewrite (IH2 Hrest).
    + destruct (store_projects v (Projects st0)) as [ps|]; [|discriminate].
      destruct (IH _ Hst) as [IH1 IH2]. split.
      * intros Hall. destruct (Hsplit _ Hall) as [_ Hrest].
        by rewrite (IH1 Hrest).
      * intros Hall. by destruct (Hsplit _ Hall) as [? _].
    + destruct (IH _ Hst) as [IH1 IH2]. split.
      * intros Hall. destruct (Hsplit _ Hall) as [_ Hrest]. by apply IH1.
      * intros Hall. destruct (Hsplit _ Hall) as [_ Hrest]. by apply IH2.
Qed.

(** X7 (missing fields): a state file that holds a JSON object and loads
    gives the flag that it existed; without a member for [max_suffix] the
    loaded high-water mark is 0, and without a member for [projects] the
    loaded map is empty, not nil. The empty object loads as the empty
    registry. *)
Theorem loadPortState_defaults :
  forall (w : World) (members : list (string * json)) (st : PortState)
         (existed : bool),
    stateFile w = FileJSON (JObject members) ->
    loadPortState w = Ok (st, existed) ->
    existed = true
    /\ ((forall k v, (k, v) ∈ members ->
           field_of_key k <> Some FMaxSuffix) -> MaxSuffix st = 0)
    /\ ((forall k v, (k, v) ∈ members ->
           field_of_key k <> Some FProjects) -> Projects st = Some ∅)
    /\ (members = [] -> st = emptyState).
Proof.
  intros w members st existed Hf. unfold loadPortState. rewrite Hf.
  cbn [Unmarshal].
  destruct (store_fields members emptyState) as [st0|] eqn:Hst;
    [|discriminate].
  intros [= <- <-]. split; [done|].
  destruct (store_fields_defaults members emptyState st0 Hst) as [H1 H2].
  split; [exact H1|]. split; [exact H2|].
  intros ->. by injection Hst as <-.
Qed.

Lemma loadPortState_defaults_witness :
  stateFile (with_stateFile world0
               (FileJSON (JObject [("max_suffix", JInt 7)])))
  = FileJSON (JObject [("max_suffix", JInt 7)])
  /\ loadPortState (with_stateFile world0
                      (FileJSON (JObject [("max_suffix", JInt 7)])))
     = Ok (mkPortState 7 (Some ∅), true)
  /\ ((forall k v, (k, v) ∈ [("max_suffix", JInt 7)] ->
         field_of_key k <> Some FProjects) ->
      Projects (mkPortState 7 (Some ∅)) = Some ∅).
Proof.
  split; [reflexivity|]. split; [reflexivity|].
  exact (proj1 (proj2 (proj2 (loadPortState_defaults
           (with_stateFile world0
              (FileJSON (JObject [("max_suffix", JInt 7)])))
           [("max_suffix", JInt 7)] (mkPortState 7 (Some ∅)) true
           eq_refl eq_refl)))).
Defined.

(** ** [saveProjectSuffix] *)

(** X8 (what a save changes): after a successful [saveProjectSuffix p s]
    for a directory whose absolute path is UTF-8 text, the registry on file
    maps the absolute path of [p] to [s], maps every other path as the
    loaded registry did, and has the larger of [s] and the loaded
    high-water mark as its high-water mark. *)
Theorem saveProjectSuffix_changes_one :
  forall (w w' : World) (p : string) (s : Z),
    int_ok s -> utf8_dir w p -> saveProjectSuffix w p s = (Ok tt, w') ->
    exists st existed absDir st',
      loadPortState w = Ok (st, existed) /\ Abs w p = Ok absDir
      /\ loadPortState w' = Ok (st', true)
      /\ MaxSuffix st' = Z.max (MaxSuffix st) s
      /\ forall k, project st' k
                   = if decide (k = absDir) then Some s else project st k.
Proof.
  intros w w' p s Hs Hutf Hsave.
  destruct (saveProjectSuffix_post w w' p s Hs Hutf Hsave)
    as (st & existed & absDir & m & Hl & Ha & Hm & _ & _ & Hl').
  exists st, existed, absDir. eexists. split; [done|]. split; [done|].
  split; [exact Hl'|]. split; [done|]. intros k.
  rewrite project_inserted. destruct (decide (k = absDir)); [done|].
  unfold project. cbn [Projects]. by rewrite Hm.
Qed.

Lemma saveProjectSuffix_changes_one_witness :
  int_ok 48 /\ utf8_dir worldTwo "/c"
  /\ exists st existed absDir st',
       loadPortState worldTwo = Ok (st, existed)
       /\ Abs worldTwo "/c" = Ok absDir
       /\ loadPortState (saveProjectSuffix worldTwo "/c" 48).2
          = Ok (st', true)
       /\ MaxSuffix st' = Z.max (MaxSuffix st) 48
       /\ forall k, project st' k
                    = if decide (k = absDir) then Some 48 else project st k.
Proof.
  assert (utf8_dir worldTwo "/c") as Hutf by (by intros a [= <-]).
  split; [exact int_ok_48|]. split; [exact Hutf|].
  apply (saveProjectSuffix_changes_one worldTwo _ "/c" 48 int_ok_48 Hutf).
  vm_compute. reflexivity.
Defined.

(** X9 (no check in the store): [saveProjectSuffix] succeeds for every
    suffix, whether or not the validator accepts it and whether or not
    another project holds it, exactly when the registry loads with a map
    that is not nil, the directory can be made absolute, and the file can
    be written. *)
Theorem saveProjectSuffix_succeeds_iff :
  forall (w : World) (p : string) (s : Z),
    (exists w', saveProjectSuffix w p s = (Ok tt, w'))
    <-> (exists st existed m,
           loadPortState w = Ok (st, existed) /\ Projects st = Some m)
        /\ (exists absDir, Abs w p = Ok absDir)
        /\ onWrite w = WriteDone.
Proof.
  intros w p s. unfold saveProjectSuffix. split.
  - intros [w' Hrun].
    destruct (loadPortState w) as [[st existed]|e|] eqn:Hl;
      try discriminate.
    destruct (Abs w p) as [absDir|e|]; try discriminate.
    destruct (Projects st) as [m|] eqn:Hm; try discriminate.
    split; [by exists st, existed, m|]. split; [by exists absDir|].
    revert Hrun. unfold save.
    destruct (stateFile w), (onWrite w); done.
  - intros ((st & existed & m & Hl & Hm) & (absDir & Ha) & Hw).
    rewrite Hl, Ha, Hm. rewrite save_succeeds; [by eexists| |done].
    by apply (loaded_path_ok w st existed).
Qed.

(** X10 (two projects, one suffix): nothing in the store keeps suffixes
    apart: after [saveProjectSuffix] has succeeded for two directories with
    different absolute paths, both UTF-8 text, and the same suffix, the
    registry on file holds that suffix for both. *)
Theorem saveProjectSuffix_allows_duplicates :
  forall (w w1 w2 : World) (p q a b : string) (s : Z),
    int_ok s -> Abs w p = Ok a -> Abs w q = Ok b -> a <> b ->
    valid_utf8 a -> valid_utf8 b ->
    saveProjectSuffix w p s = (Ok tt, w1) ->
    saveProjectSuffix w1 q s = (Ok tt, w2) ->
    exists st2,
      loadPortState w2 = Ok (st2, true)
      /\ project st2 a = Some s /\ project st2 b = Some s.
Proof.
  intros w w1 w2 p q a b s Hs Ha Hb Hne Hva Hvb H1 H2.
  destruct (saveProjectSuffix_post w w1 p s Hs (utf8_dir_Abs w p a Ha Hva)
              H1)
    as (st & existed & a' & m & Hl & Ha' & Hm & Hw1 & _ & Hl1).
  rewrite Ha in Ha'. injection Ha' as <-.
  assert (Abs w1 q = Abs w q) as Hq
    by (apply Abs_same_cwd; by rewrite Hw1).
  assert (utf8_dir w1 q) as Hutf
    by (apply (utf8_dir_Abs w1 q b); [by rewrite Hq|done]).
  destruct (saveProjectSuffix_post w1 w2 q s Hs Hutf H2)
    as (st1 & existed1 & b' & m1 & Hl1' & Hb' & Hm1 & _ & _ & Hl2).
  rewrite Hl1 in Hl1'. injection Hl1' as <- <-.
  rewrite Hq, Hb in Hb'. injection Hb' as <-.
  cbn [Projects] in Hm1. injection Hm1 as <-.
  eexists. split; [exact Hl2|]. unfold project. cbn [Projects]. split.
  - rewrite lookup_insert_ne by done. apply lookup_insert_eq.
  - apply lookup_insert_eq.
Qed.

Lemma saveProjectSuffix_allows_duplicates_witness :
  exists st2,
    loadPortState
      (saveProjectSuffix (saveProjectSuffix world0 "/a" 48).2 "/b" 48).2
    = Ok (st2, true)
    /\ project st2 "/a" = Some 48 /\ project st2 "/b" = Some 48.
Proof.
  apply (saveProjectSuffix_allows_duplicates world0
           (saveProjectSuffix world0 "/a" 48).2 _ "/a" "/b" "/a" "/b" 48
           int_ok_48 eq_refl eq_refl).
  - discriminate.
  - reflexivity.
  - reflexivity.
  - vm_compute. reflexivity.
  - vm_compute. reflexivity.
Defined.

(** X11 (saving twice): for a directory whose absolute path is UTF-8
    text, a second [saveProjectSuffix] with the same directory and suffix,
    right after a successful first one, succeeds and leaves the world as
    the first one left it. *)
Theorem saveProjectSuffix_idempotent :
  forall (w w1 : World) (p : string) (s : Z),
    int_ok s -> utf8_dir w p -> saveProjectSuffix w p s = (Ok tt, w1) ->
    saveProjectSuffix w1 p s = (Ok tt, w1).
Proof.
  intros w w1 p s Hs Hutf H1.
  destruct (saveProjectSuffix_post w w1 p s Hs Hutf H1)
    as (st & existed & a & m & Hl & Ha & Hm & Hw1 & Hw & Hl1).
  unfold saveProjectSuffix. rewrite Hl1.
  assert (Abs w1 p = Abs w p) as ->
    by (apply Abs_same_cwd; by rewrite Hw1).
  rewrite Ha. cbn [Projects MaxSuffix].
  rewrite gtb_max, insert_insert_eq.
  replace (Z.max (Z.max (MaxSuffix st) s) s) with (Z.max (MaxSuffix st) s)
    by lia.
  rewrite save_succeeds.
  - by rewrite Hw1.
  - by rewrite Hw1.
  - by rewrite Hw1.
Qed.

Lemma saveProjectSuffix_idempotent_witness :
  int_ok 48 /\ utf8_dir worldTwo "/c"
  /\ saveProjectSuffix (saveProjectSuffix worldTwo "/c" 48).2 "/c" 48
     = (Ok tt, (saveProjectSuffix worldTwo "/c" 48).2).
Proof.
  assert (utf8_dir worldTwo "/c") as Hutf by (by intros a [= <-]).
  split; [exact int_ok_48|]. split; [exact Hutf|].
  apply (saveProjectSuffix_idempotent worldTwo _ "/c" 48 int_ok_48 Hutf).
  vm_compute. reflexivity.
Defined.

(** X12 (a nil map): [save] writes a registry whose map is nil with
    [null] for its projects, and such a file loads with a nil map again.
    On it [saveProjectSuffix] panics for every directory that can be made
    absolute and writes nothing, while the other operations treat it as an
    empty registry: nothing is registered, nothing is listed, nothing is
    cleaned. *)
Theorem nil_map_registry :
  forall (w : World) (h : Z),
    int_ok h ->
    stateFile w = FileJSON (Marshal (mkPortState h None)) ->
    Marshal (mkPortState h None)
    = JObject [("max_suffix", JInt h); ("projects", JNull)]
    /\ loadPortState w = Ok (mkPortState h None, true)
    /\ (forall p absDir s,
          Abs w p = Ok absDir ->
          saveProjectSuffix w p s = (Panic, w)
          /\ RemoveProject w p = (Err (ErrNotRegistered absDir), w))
    /\ CleanOrphanedProjects w [] = (Ok 0, w)
    /\ ListProjects w [] = Ok [].
Proof.
  intros w h Hh Hf.
  assert (loadPortState w = Ok (mkPortState h None, true)) as Hl.
  { unfold loadPortState. rewrite Hf.
    rewrite Unmarshal_Marshal; [done|by apply wf_state_intro|].
    by apply utf8_state_intro. }
  split; [done|]. split; [done|]. split; [|split].
  - intros p absDir s Ha.
    unfold saveProjectSuffix, RemoveProject. by rewrite Hl, Ha.
  - unfold CleanOrphanedProjects. by rewrite Hl.
  - unfold ListProjects. by rewrite Hl.
Qed.

Lemma nil_map_registry_witness :
  int_ok 50
  /\ (save (mkPortState 50 None) world0).1 = None
  /\ saveProjectSuffix (save (mkPortState 50 None) world0).2 "/a" 48
     = (Panic, (save (mkPortState 50 None) world0).2).
Proof.
  assert (int_ok 50) as H50 by (unfold int_ok, int_min, int_max; lia).
  split; [exact H50|]. split; [reflexivity|].
  exact (proj1 (proj1 (proj2 (proj2 (nil_map_registry
           (save (mkPortState 50 None) world0).2 50 H50 eq_refl)))
           "/a" "/a" 48 eq_refl)).
Defined.

(** X13 (one project, several spellings): the key of the registry is the
    absolute, cleaned path, so after a successful [saveProjectSuffix p s]
    every directory [q] with the same absolute path as [p], when that
    path is UTF-8 text, is suggested [s] as an existing assignment, and
    [RemoveProject q] removes the entry. *)
Theorem same_project_by_any_path :
  forall (w w1 : World) (p q absDir : string) (s : Z),
    int_ok s -> Abs w p = Ok absDir -> Abs w q = Ok absDir ->
    valid_utf8 absDir ->
    saveProjectSuffix w p s = (Ok tt, w1) ->
    getSuggestedSuffix w1 q = Ok (s, true, true)
    /\ exists w2 st2,
         RemoveProject w1 q = (Ok tt, w2)
         /\ loadPortState w2 = Ok (st2, true)
         /\ project st2 absDir = None.
Proof.
  intros w w1 p q absDir s Hs Hp Hq Hv Hsave.
  destruct (saveProjectSuffix_post w w1 p s Hs
              (utf8_dir_Abs w p absDir Hp Hv) Hsave)
    as (st & existed & a & m & Hl & Ha & Hm & Hw1 & Hw & Hl1).
  rewrite Hp in Ha. injection Ha as <-.
  assert (Abs w1 q = Ok absDir) as Hq1.
  { rewrite <- Hq. apply Abs_same_cwd. by rewrite Hw1. }
  assert (project (mkPortState (Z.max (MaxSuffix st) s)
                     (Some (<[absDir := s]> m))) absDir = Some s) as Hreg.
  { rewrite project_inserted. by rewrite decide_True. }
  split.
  - by apply (getSuggestedSuffix_registered w1 q absDir _ true s Hl1).
  - assert (exists w2, RemoveProject w1 q = (Ok tt, w2)) as [w2 Hrm].
    { unfold RemoveProject. rewrite Hl1, Hq1, Hreg.
      rewrite save_succeeds; [by eexists| |].
      - by apply (loaded_path_ok w1 _ true Hl1).
      - by rewrite Hw1. }
    destruct (RemoveProject_post w1 w2 q Hrm)
      as (st1 & e1 & a1 & v & Hl1' & Ha1 & _ & _ & _ & Hl2).
    rewrite Hl1 in Hl1'. injection Hl1' as <- <-.
    rewrite Hq1 in Ha1. injection Ha1 as <-.
    exists w2. eexists. split; [done|]. split; [exact Hl2|].
    rewrite project_delete_key. by rewrite decide_True.
Qed.

Lemma same_project_by_any_path_witness :
  int_ok 48
  /\ Abs world0 "/srv/app" = Ok "/srv/app"
  /\ Abs world0 "/srv//tmp/../app/." = Ok "/srv/app"
  /\ getSuggestedSuffix (saveProjectSuffix world0 "/srv/app" 48).2
       "/srv//tmp/../app/." = Ok (48, true, true).
Proof.
  split; [exact int_ok_48|]. split; [reflexivity|]. split; [reflexivity|].
  apply (proj1 (same_project_by_any_path world0
                  (saveProjectSuffix world0 "/srv/app" 48).2
                  "/srv/app" "/srv//tmp/../app/." "/srv/app" 48
                  int_ok_48 eq_refl eq_refl eq_refl eq_refl)).
Defined.

(** X14 (a saved suffix is defended): after a successful
    [saveProjectSuffix p s] for a directory whose absolute path is UTF-8
    text, and whatever order the [range] takes,
    [isSuffixInUseByOther] finds a conflict for every directory with another
    absolute path that asks for [s]; asked for [p] itself it reports a
    conflict only with a path that held [s] before the save. *)
Theorem saved_suffix_conflicts :
  forall (w w1 : World) (p absDir : string) (s : Z) (st st1 : PortState)
         (existed : bool) (order : list (string * Z)),
    int_ok s -> loadPortState w = Ok (st, existed) -> Abs w p = Ok absDir ->
    valid_utf8 absDir ->
    saveProjectSuffix w p s = (Ok tt, w1) ->
    loadPortState w1 = Ok (st1, true) -> range_order st1 order ->
    (forall q b, Abs w1 q = Ok b -> b <> absDir ->
       exists c, isSuffixInUseByOther w1 order q s = (c, true)
                 /\ c <> b /\ project st1 c = Some s)
    /\ (forall c, isSuffixInUseByOther w1 order p s = (c, true) ->
          c <> absDir /\ project st c = Some s).
Proof.
  intros w w1 p absDir s st st1 existed order Hs Hl0 Hp Hv Hsave Hl1 Hord.
  destruct (saveProjectSuffix_post w w1 p s Hs
              (utf8_dir_Abs w p absDir Hp Hv) Hsave)
    as (st' & existed' & a & m & Hl & Ha & Hm & Hw1 & Hw & Hl1').
  rewrite Hl0 in Hl. injection Hl as <- <-.
  rewrite Hp in Ha. injection Ha as <-.
  rewrite Hl1 in Hl1'. injection Hl1' as ->.
  assert (Abs w1 p = Ok absDir) as Hp1.
  { rewrite <- Hp. apply Abs_same_cwd. by rewrite Hw1. }
  split.
  - intros q b Hq Hne.
    rewrite (isSuffixInUseByOther_loaded w1 order q b s _ true Hl1 Hq).
    destruct (findOther_cases order b s)
      as [[_ Hall]|(c & Hc & Hin & Hcb)].
    + destruct Hne. symmetry. apply Hall.
      apply (range_order_elem _ order _ _ Hord).
      rewrite project_inserted. by rewrite decide_True.
    + exists c. split; [done|]. split; [done|].
      by apply (range_order_elem _ order _ _ Hord).
  - intros c.
    rewrite (isSuffixInUseByOther_loaded w1 order p absDir s _ true Hl1 Hp1).
    destruct (findOther_cases order absDir s)
      as [[-> _]|(c' & -> & Hin & Hc)]; [discriminate|].
    intros [= <-]. split; [done|].
    apply (range_order_elem _ order _ _ Hord) in Hin.
    rewrite project_inserted in Hin. rewrite decide_False in Hin by done.
    unfold project in *. cbn [Projects] in Hin. by rewrite Hm.
Qed.

Lemma saved_suffix_conflicts_witness :
  exists c,
    isSuffixInUseByOther (saveProjectSuffix world0 "/a" 48).2
      [("/a", 48)] "/b" 48 = (c, true)
    /\ c <> "/b"
    /\ project (mkPortState 48 (Some (<["/a" := 48]> ∅))) c = Some 48.
Proof.
  assert (loadPortState (saveProjectSuffix world0 "/a" 48).2
          = Ok (mkPortState 48 (Some (<["/a" := 48]> ∅)), true)) as Hl1
    by (vm_compute; reflexivity).
  assert (range_order (mkPortState 48 (Some (<["/a" := 48]> ∅)))
            [("/a", 48)]) as Hord
    by (unfold range_order; vm_compute; reflexivity).
  assert ("/b" <> "/a") as Hne by discriminate.
  exact (proj1 (saved_suffix_conflicts world0
                  (saveProjectSuffix world0 "/a" 48).2 "/a" "/a" 48
                  emptyState (mkPortState 48 (Some (<["/a" := 48]> ∅)))
                  false [("/a", 48)] int_ok_48 eq_refl eq_refl eq_refl
                  eq_refl Hl1 Hord)
           "/b" "/b" eq_refl Hne).
Defined.

(** ** The high-water mark covers the assignments *)

Lemma hwm_covers_delete (st : PortState) (removed : list string) :
  hwm_covers st ->
  hwm_covers (mkPortState (MaxSuffix st)
                (deleteAll removed (Projects st))).
Proof.
  intros Hc k v. rewrite project_deleteAll. case_decide; [done|].
  replace (project (mkPortState (MaxSuffix st) (Projects st)) k)
    with (project st k) by by destruct st.
  apply Hc.
Qed.

(** X15 (the high-water mark covers the assignments): the empty registry
    has no assignment above its high-water mark, and when the loaded
    registry has none, neither has the registry a successful
    [saveProjectSuffix], [RemoveProject] or [CleanOrphanedProjects] leaves
    on file. *)
Theorem hwm_covers_is_kept :
  hwm_covers emptyState
  /\ forall (w : World) (st : PortState) (existed : bool),
       loadPortState w = Ok (st, existed) -> hwm_covers st ->
       (forall p s w', int_ok s -> saveProjectSuffix w p s = (Ok tt, w') ->
          exists st', loadPortState w' = Ok (st', true) /\ hwm_covers st')
       /\ (forall p w', RemoveProject w p = (Ok tt, w') ->
             exists st', loadPortState w' = Ok (st', true)
                         /\ hwm_covers st')
       /\ (forall order n w',
             CleanOrphanedProjects w order = (Ok n, w') ->
             exists st' existed',
               loadPortState w' = Ok (st', existed') /\ hwm_covers st').
Proof.
  split; [by intros k v|].
  intros w st existed Hl Hc. split; [|split].
  - intros p s w' Hs Hsave.
    destruct (saveProjectSuffix_ok w w' p s Hsave)
      as (st0 & e0 & a & m & Hl0 & Ha & Hm & Hsv).
    rewrite Hl in Hl0. injection Hl0 as <- <-.
    rewrite gtb_max in Hsv.
    assert (wf_state (mkPortState (Z.max (MaxSuffix st) s)
                        (Some (<[a := s]> m)))) as Hwf.
    { rewrite <- gtb_max. apply saved_state_wf; [|done|done].
      by apply (loadPortState_wf w st existed). }
    destruct (load_after_save_any _ w w' Hwf Hsv)
      as (st' & Hl' & Hmx & Hfrom).
    exists st'. split; [exact Hl'|]. intros k v Hk.
    rewrite Hmx. cbn [MaxSuffix].
    destruct (Hfrom k v Hk) as (k0 & Hk0 & _).
    rewrite project_inserted in Hk0.
    destruct (decide (k0 = a)); [injection Hk0 as <-; lia|].
    assert (v <= MaxSuffix st); [|lia].
    apply (Hc k0). unfold project in *. cbn [Projects] in Hk0.
    by rewrite Hm.
  - intros p w' Hrm.
    destruct (RemoveProject_post w w' p Hrm)
      as (st0 & e0 & a & v & Hl0 & Ha & _ & _ & _ & Hl').
    rewrite Hl in Hl0. injection Hl0 as <- <-.
    eexists. split; [exact Hl'|].
    by apply (hwm_covers_delete st [a]).
  - intros order n w' Hrun.
    destruct (CleanOrphanedProjects_post w w' st existed order n Hl Hrun)
      as (_ & _ & e' & Hl').
    eexists _, e'. split; [exact Hl'|]. by apply hwm_covers_delete.
Qed.

Lemma twoProjects_covered : hwm_covers twoProjects.
Proof.
  intros k v. unfold project, twoProjects. cbn [Projects MaxSuffix].
  destruct (decide (k = "/a")) as [->|Ha].
  - rewrite lookup_insert_eq. intros [= <-]. lia.
  - rewrite lookup_insert_ne by done.
    destruct (decide (k = "/b")) as [->|Hb].
    + rewrite lookup_insert_eq. intros [= <-]. lia.
    + rewrite lookup_insert_ne by done. by rewrite lookup_empty.
Defined.

Lemma hwm_covers_is_kept_witness :
  hwm_covers twoProjects
  /\ exists st',
       loadPortState (saveProjectSuffix worldTwo "/c" 60).2 = Ok (st', true)
       /\ hwm_covers st'.
Proof.
  split; [exact twoProjects_covered|].
  apply (proj1 (proj2 hwm_covers_is_kept worldTwo twoProjects true
                  worldTwo_loads twoProjects_covered) "/c" 60).
  - unfold int_ok, int_min, int_max. lia.
  - vm_compute. reflexivity.
Defined.

(** X16 (a new suggestion is free): when no assignment of the loaded
    registry lies above its high-water mark, which is below the largest
    [int], a suggestion that [getSuggestedSuffix] flags as new is the
    high-water mark plus one, and [isSuffixInUseByOther] finds no conflict
    for it, for any directory and in any order. *)
Theorem new_suggestion_is_free :
  forall (w : World) (st : PortState) (existed existed' : bool)
         (p : string) (s : Z) (order : list (string * Z)),
    loadPortState w = Ok (st, existed) -> hwm_covers st ->
    MaxSuffix st < int_max -> range_order st order ->
    getSuggestedSuffix w p = Ok (s, false, existed') ->
    s = MaxSuffix st + 1
    /\ forall q, isSuffixInUseByOther w order q s = ("", false).
Proof.
  intros w st existed existed' p s order Hl Hc Hmax Hord Hsug.
  assert (s = MaxSuffix st + 1) as ->.
  { revert Hsug. unfold getSuggestedSuffix. rewrite Hl.
    destruct (Abs w p) as [a|e|] eqn:Ha; try discriminate.
    destruct (project st a) as [v|] eqn:Hv; [discriminate|].
    destruct (getSuggestedSuffix_unregistered w p a st existed Hl Ha Hv)
      as [(s0 & Hs0 & _)|[Hfresh _]].
    - unfold getSuggestedSuffix in Hs0. rewrite Hl, Ha, Hv in Hs0.
      rewrite Hs0. discriminate.
    - unfold getSuggestedSuffix in Hfresh. rewrite Hl, Ha, Hv in Hfresh.
      rewrite Hfresh. intros [= <- _].
      apply int_add_succ; [|done].
      apply (loadPortState_wf w st existed Hl). }
  split; [done|]. intros q. unfold isSuffixInUseByOther. rewrite Hl.
  destruct (Abs w q) as [b|e|]; try done.
  destruct (findOther_cases order b (MaxSuffix st + 1))
    as [[-> _]|(c & _ & Hin & _)]; [done|].
  apply (range_order_elem st order _ _ Hord) in Hin.
  apply Hc in Hin. lia.
Qed.

Lemma new_suggestion_is_free_witness :
  MaxSuffix twoProjects < int_max
  /\ getSuggestedSuffix worldTwo "/d" = Ok (53, false, true)
  /\ 53 = MaxSuffix twoProjects + 1
  /\ forall q,
       isSuffixInUseByOther worldTwo [("/a", 51); ("/b", 52)] q 53
       = ("", false).
Proof.
  assert (MaxSuffix twoProjects < int_max) as Hmax
    by (vm_compute; reflexivity).
  split; [exact Hmax|]. split; [reflexivity|].
  exact (new_suggestion_is_free worldTwo twoProjects true true "/d" 53
           [("/a", 51); ("/b", 52)] worldTwo_loads twoProjects_covered
           Hmax worldTwo_order eq_refl).
Defined.



(** ** The environment file *)

Lemma string_of_uint_digits (u : Decimal.uint) :
  DecimalString.NilEmpty.string_of_uint u = digits_text (uint_digits u).
Proof.
  unfold digits_text.
  induction u as [|u IH|u IH|u IH|u IH|u IH|u IH|u IH|u IH|u IH|u IH];
    cbn [DecimalString.NilEmpty.string_of_uint uint_digits map
         string_of_list_ascii]; [done|..]; by rewrite IH.
Qed.

Lemma uint_digits_range (u : Decimal.uint) :
  Forall (fun d => 0 <= d <= 9) (uint_digits u).
Proof.
  induction u; cbn [uint_digits]; [constructor|..];
    (constructor; [lia|done]).
Qed.

Lemma uint_digits_acc (u : Decimal.uint) (acc : positive) :
  fold_left (fun a d => 10 * a + d) (uint_digits u) (Z.pos acc)
  = Z.pos (Pos.of_uint_acc u acc).
Proof.
  revert acc.
  induction u as [|u IH|u IH|u IH|u IH|u IH|u IH|u IH|u IH|u IH|u IH];
    intros acc; cbn [uint_digits fold_left Pos.of_uint_acc]; [done|..];
    rewrite <- IH; f_equal; lia.
Qed.

Lemma uint_digits_number (u : Decimal.uint) :
  digits_number (uint_digits u) = Z.of_N (Pos.of_uint u).
Proof.
  unfold digits_number.
  induction u as [|u IH|u IH|u IH|u IH|u IH|u IH|u IH|u IH|u IH|u IH];
    cbn [uint_digits fold_left Pos.of_uint]; [done|exact IH|..];
    apply (uint_digits_acc u).
Qed.

(** The numeral [fmt] prints for a natural number is a sequence of decimal
    digits that denotes it. *)
Lemma Sprintf_d_digits (n : Z) :
  0 <= n ->
  exists ds, Sprintf_d n = digits_text ds /\ ds <> []
             /\ Forall (fun d => 0 <= d <= 9) ds /\ digits_number ds = n.
Proof.
  intros Hn. destruct n as [|p|p]; [| |lia].
  - exists [0]. split; [reflexivity|]. split; [done|].
    split; [|reflexivity]. constructor; [lia|constructor].
  - exists (uint_digits (Pos.to_uint p)).
    pose proof (DecimalPos.Unsigned.to_uint_nonnil p) as Hnil.
    split; [|split; [|split]].
    + unfold Sprintf_d. cbn [Z.to_int DecimalString.NilZero.string_of_int].
      rewrite <- string_of_uint_digits.
      unfold DecimalString.NilZero.string_of_uint.
      by destruct (Pos.to_uint p).
    + by destruct (Pos.to_uint p).
    + apply uint_digits_range.
    + rewrite uint_digits_number.
      by rewrite DecimalPos.Unsigned.of_to.
Qed.

(** The line that sets APP_PORT to the numeral of a natural number carries
    that number. *)
Lemma app_port_value_Sprintf (n : Z) :
  0 <= n <= int_max ->
  app_port_value ("APP_PORT=" ++ Sprintf_d n) = Some n.
Proof.
  intros [Hn Hmax].
  destruct (Sprintf_d_digits n Hn) as (ds & -> & Hne & Hds & Hnum).
  rewrite (app_port_value_digits ds Hne Hds); [by rewrite Hnum|lia].
Qed.

(** Two texts that start the same text: one starts the other. *)
Lemma prefix_comparable (t p q : string) :
  String.prefix p t = true -> String.prefix q t = true ->
  String.prefix p q = true \/ String.prefix q p = true.
Proof.
  revert p q. induction t as [|c t IH]; intros p q Hp Hq.
  - destruct p; [|discriminate]. destruct q; [|discriminate]. by left.
  - destruct p as [|a p]; [left; by destruct q|].
    destruct q as [|b q]; [by right|].
    cbn [String.prefix] in *.
    destruct (ascii_dec a c) as [->|]; [|discriminate].
    destruct (ascii_dec b c) as [->|]; [|discriminate].
    destruct (ascii_dec c c); [|done]. by apply IH.
Qed.

Ltac core_entries H :=
  unfold coreUpdates in H;
  repeat (apply elem_of_cons in H as [->|H]);
  [..|by apply elem_of_nil in H].

(** A line sets at most one of the database settings. *)
Lemma coreUpdates_exclusive (t : string) (kv kv' : string * string) :
  kv ∈ coreUpdates -> kv' ∈ coreUpdates ->
  HasPrefix t (kv.1 ++ "=") = true -> HasPrefix t (kv'.1 ++ "=") = true ->
  kv = kv'.
Proof.
  intros Hkv Hkv' H H'. unfold HasPrefix in *.
  core_entries Hkv; core_entries Hkv'; try reflexivity;
    destruct (prefix_comparable _ _ _ H H') as [Hc|Hc];
    vm_compute in Hc; discriminate.
Qed.

Lemma matchCore_Some (order : list (string * string)) (t : string)
    (kv : string * string) :
  matchCore order t = Some kv ->
  kv ∈ order /\ HasPrefix t (kv.1 ++ "=") = true.
Proof.
  unfold matchCore. intros H. apply find_some in H as [Hin H].
  split; [by apply list_elem_of_In|done].
Qed.

Lemma matchCore_None (order : list (string * string)) (t : string)
    (kv : string * string) :
  matchCore order t = None -> kv ∈ order ->
  HasPrefix t (kv.1 ++ "=") = false.
Proof.
  unfold matchCore. intros H Hin.
  apply (find_none _ _ H kv). by apply list_elem_of_In.
Qed.

(** The entry the inner loop finds does not depend on the order in which
    the [range] visits [coreUpdates]. *)
Lemma matchCore_order (order : list (string * string)) (t : string) :
  order ≡ₚ coreUpdates -> matchCore order t = matchCore coreUpdates t.
Proof.
  intros Hperm.
  destruct (matchCore order t) as [kv|] eqn:Ho;
    destruct (matchCore coreUpdates t) as [kv'|] eqn:Hc; [| | |done].
  - apply matchCore_Some in Ho as [Hin H].
    apply matchCore_Some in Hc as [Hin' H'].
    rewrite Hperm in Hin. f_equal. by apply (coreUpdates_exclusive t).
  - apply matchCore_Some in Ho as [Hin H]. rewrite Hperm in Hin.
    by rewrite (matchCore_None _ _ kv Hc Hin) in H.
  - apply matchCore_Some in Hc as [Hin H]. rewrite <- Hperm in Hin.
    by rewrite (matchCore_None _ _ kv' Ho Hin) in H.
Qed.

(** The first pass, line by line: what it appends is what [rewriteLine]
    makes of each line, and a key it notes has its entry among them. *)
Lemma firstPass_spec (applyDb : bool) (orders : nat -> list (string * string))
    (lines : list string) :
  (forall i, orders i ≡ₚ coreUpdates) ->
  forall (i : nat) (newLines : list string) (seen : gset string),
    (firstPass applyDb orders i lines newLines seen).1
    = (newLines ++ omap (rewriteLine applyDb) lines)%list
    /\ forall key,
         key ∈ (firstPass applyDb orders i lines newLines seen).2 ->
         key ∈ seen
         \/ exists val, (key, val) ∈ coreUpdates
                        /\ setting (key, val)
                           ∈ omap (rewriteLine applyDb) lines.
Proof.
  intros Hord. induction lines as [|line lines IH]; intros i newLines seen.
  - cbn [firstPass omap list_omap]. rewrite app_nil_r. split; [done|].
    intros key Hkey. by left.
  - cbn [firstPass omap list_omap].
    destruct (isSkipKey (TrimSpace line)) eqn:Hs.
    { assert (rewriteLine applyDb line = None) as ->
        by (unfold rewriteLine; by rewrite Hs).
      apply IH. }
    destruct applyDb.
    + rewrite (matchCore_order _ _ (Hord i)).
      destruct (matchCore coreUpdates (TrimSpace line)) as [[key val]|]
        eqn:Hm.
      * assert (rewriteLine true line = Some (setting (key, val))) as ->
          by (unfold rewriteLine; by rewrite Hs, Hm).
        change (key ++ "=" ++ val) with (setting (key, val)).
        destruct (IH (S i) (newLines ++ [setting (key, val)])%list
                    ({[key]} ∪ seen)) as [IH1 IH2].
        split; [rewrite IH1; by rewrite <- app_assoc|].
        intros k Hk. apply IH2 in Hk as [Hk|(v & Hv & Hin)].
        -- apply elem_of_union in Hk as [Hk|Hk]; [|by left].
           apply elem_of_singleton in Hk as ->. right. exists val.
           apply matchCore_Some in Hm as [Hm _].
           split; [done|]. apply list_elem_of_here.
        -- right. exists v. split; [done|]. by apply list_elem_of_further.
      * assert (rewriteLine true line = Some line) as ->
          by (unfold rewriteLine; by rewrite Hs, Hm).
        destruct (IH (S i) (newLines ++ [line])%list seen) as [IH1 IH2].
        split; [rewrite IH1; by rewrite <- app_assoc|].
        intros k Hk. apply IH2 in Hk as [Hk|(v & Hv & Hin)]; [by left|].
        right. exists v. split; [done|]. by apply list_elem_of_further.
    + assert (rewriteLine false line = Some line) as ->
        by (unfold rewriteLine; by rewrite Hs).
      destruct (IH (S i) (newLines ++ [line])%list seen) as [IH1 IH2].
      split; [rewrite IH1; by rewrite <- app_assoc|].
      intros k Hk. apply IH2 in Hk as [Hk|(v & Hv & Hin)]; [by left|].
      right. exists v. split; [done|]. by apply list_elem_of_further.
Qed.

(** Without the database settings the first pass is a filter. *)
Lemma omap_rewriteLine_false (lines : list string) :
  omap (rewriteLine false) lines
  = filter (fun l => isSkipKey (TrimSpace l) = false) lines.
Proof.
  induction lines as [|line lines IH]; [done|].
  cbn [omap list_omap]. rewrite filter_cons, IH. unfold rewriteLine.
  destruct (isSkipKey (TrimSpace line)).
  - by rewrite decide_False.
  - by rewrite decide_True.
Qed.

Lemma firstPass_false (orders : nat -> list (string * string))
    (lines : list string) (i : nat) (newLines : list string)
    (seen : gset string) :
  firstPass false orders i lines newLines seen
  = ((newLines ++ omap (rewriteLine false) lines)%list, seen).
Proof.
  revert i newLines. induction lines as [|line lines IH]; intros i newLines.
  - cbn [firstPass omap list_omap]. by rewrite app_nil_r.
  - cbn [firstPass omap list_omap]. unfold rewriteLine.
    destruct (isSkipKey (TrimSpace line)); [apply IH|].
    rewrite IH. by rewrite <- app_assoc.
Qed.

Lemma addMissing_spec (order : list (string * string)) (seen : gset string)
    (newLines : list string) :
  addMissing order seen newLines
  = (newLines ++ map setting (filter (fun kv => kv.1 ∉ seen) order))%list.
Proof.
  revert newLines. induction order as [|[key val] order IH]; intros newLines.
  - cbn [addMissing]. by rewrite app_nil_r.
  - cbn [addMissing]. rewrite filter_cons. cbn [fst].
    destruct (decide (key ∈ seen)) as [Hin|Hin].
    + rewrite decide_False by (by intros H). apply IH.
    + rewrite decide_True by done. rewrite IH. cbn [map].
      by rewrite <- app_assoc.
Qed.

Lemma elem_of_rev {A : Type} (x : A) (l : list A) : x ∈ rev l <-> x ∈ l.
Proof. rewrite !list_elem_of_In. symmetry. apply in_rev. Qed.

Lemma dropBlank_spec (lines : list string) :
  exists pre,
    lines = (pre ++ dropBlank lines)%list
    /\ Forall (fun l => TrimSpace l = "") pre
    /\ match dropBlank lines with
       | [] => True
       | l :: _ => TrimSpace l <> ""
       end.
Proof.
  induction lines as [|line lines IH].
  - by exists [].
  - cbn [dropBlank]. destruct (String.eqb_spec (TrimSpace line) "") as [H|H].
    + destruct IH as (pre & Heq & Hpre & Hhd). exists (line :: pre).
      split; [cbn [app]; by rewrite <- Heq|]. split; [|done].
      by constructor.
    + by exists [].
Qed.

(** The loop that removes trailing empty lines: what it takes off is
    blank, and what it leaves does not end in a blank line. *)
Lemma dropTrailingBlank_spec (lines : list string) :
  exists tail,
    lines = (dropTrailingBlank lines ++ tail)%list
    /\ Forall (fun l => TrimSpace l = "") tail
    /\ (dropTrailingBlank lines = []
        \/ exists init l, dropTrailingBlank lines = (init ++ [l])%list
                          /\ TrimSpace l <> "").
Proof.
  unfold dropTrailingBlank.
  destruct (dropBlank_spec (rev lines)) as (pre & Heq & Hpre & Hhd).
  exists (rev pre). split; [|split].
  - rewrite <- rev_app_distr, <- Heq. by rewrite rev_involutive.
  - rewrite Forall_forall in Hpre. apply Forall_forall. intros l Hl.
    rewrite elem_of_rev in Hl. by apply Hpre.
  - destruct (dropBlank (rev lines)) as [|l r]; [by left|].
    right. exists (rev r), l. by cbn [rev].
Qed.

Lemma dropTrailingBlank_elem (lines : list string) (l : string) :
  l ∈ dropTrailingBlank lines -> l ∈ lines.
Proof.
  destruct (dropTrailingBlank_spec lines) as (tail & Heq & _).
  intros H. rewrite Heq. apply elem_of_app. by left.
Qed.

Lemma dropTrailingBlank_keeps (lines : list string) (l : string) :
  l ∈ lines -> TrimSpace l <> "" -> l ∈ dropTrailingBlank lines.
Proof.
  destruct (dropTrailingBlank_spec lines) as (tail & Heq & Htail & _).
  intros H Hne. rewrite Heq in H. apply elem_of_app in H as [H|H]; [done|].
  rewrite Forall_forall in Htail. destruct Hne. by apply Htail.
Qed.

(** Nothing is taken off a list that ends in a line that is not blank. *)
Lemma dropTrailingBlank_id (init : list string) (l : string) :
  TrimSpace l <> "" ->
  dropTrailingBlank (init ++ [l]) = (init ++ [l])%list.
Proof.
  intros Hne. unfold dropTrailingBlank. rewrite rev_app_distr.
  cbn [rev app dropBlank].
  destruct (String.eqb_spec (TrimSpace l) "") as [H|_]; [done|].
  cbn [rev]. by rewrite rev_involutive.
Qed.

Lemma dropTrailingBlank_blank (lines tail : list string) :
  Forall (fun l => TrimSpace l = "") tail ->
  dropTrailingBlank (lines ++ tail) = dropTrailingBlank lines.
Proof.
  intros Htail. unfold dropTrailingBlank. f_equal.
  rewrite rev_app_distr.
  assert (Forall (fun l => TrimSpace l = "") (rev tail)) as Hrev.
  { rewrite Forall_forall in Htail. apply Forall_forall. intros l Hl.
    rewrite elem_of_rev in Hl. by apply Htail. }
  induction Hrev as [|l r Hl _ IH]; [done|].
  cbn [app dropBlank]. by rewrite Hl.
Qed.

(** The body of the new file, when the [range]s visit [coreUpdates] in
    any order. *)
Lemma envBody_spec (applyDb : bool) (orders : nat -> list (string * string))
    (order2 : list (string * string)) (lines : list string) :
  (forall i, orders i ≡ₚ coreUpdates) ->
  exists seen : gset string,
    envBody applyDb orders order2 lines
    = dropTrailingBlank
        (omap (rewriteLine applyDb) lines
         ++ (if applyDb
             then map setting (filter (fun kv => kv.1 ∉ seen) order2)
             else []))
    /\ forall key,
         key ∈ seen ->
         exists val, (key, val) ∈ coreUpdates
                     /\ setting (key, val)
                        ∈ omap (rewriteLine applyDb) lines.
Proof.
  intros Hord. unfold envBody.
  destruct (firstPass_spec applyDb orders lines Hord 0%nat [] ∅)
    as [H1 H2].
  destruct (firstPass applyDb orders 0 lines [] ∅) as [newLines seen].
  cbn [fst snd app] in *. subst newLines. exists seen. split.
  - destruct applyDb; [by rewrite addMissing_spec|by rewrite app_nil_r].
  - intros key Hkey. destruct (H2 key Hkey) as [H|H]; [|done].
    by apply not_elem_of_empty in H.
Qed.

Lemma envBody_false (orders : nat -> list (string * string))
    (order2 : list (string * string)) (lines : list string) :
  envBody false orders order2 lines
  = dropTrailingBlank
      (filter (fun l => isSkipKey (TrimSpace l) = false) lines).
Proof.
  unfold envBody. rewrite firstPass_false. cbn [app].
  by rewrite omap_rewriteLine_false.
Qed.

Lemma rewriteLine_Some (applyDb : bool) (line l : string) :
  rewriteLine applyDb line = Some l ->
  (l = line /\ isSkipKey (TrimSpace l) = false
   /\ (applyDb = true -> matchCore coreUpdates (TrimSpace l) = None))
  \/ (applyDb = true /\ exists kv, kv ∈ coreUpdates /\ l = setting kv).
Proof.
  unfold rewriteLine.
  destruct (isSkipKey (TrimSpace line)) eqn:Hs; [discriminate|].
  destruct applyDb.
  - destruct (matchCore coreUpdates (TrimSpace line)) as [kv|] eqn:Hm;
      intros [= <-].
    + right. split; [done|]. exists kv.
      by apply matchCore_Some in Hm as [Hm _].
    + by left.
  - intros [= <-]. left. by split; [|split].
Qed.

(** Where a line of the body comes from: it is a line of the old file
    that is no port or debug entry, and no database setting when these are
    applied; or it is one of the database settings as applied. *)
Lemma envBody_elem (applyDb : bool) (orders : nat -> list (string * string))
    (order2 : list (string * string)) (lines : list string) (l : string) :
  (forall i, orders i ≡ₚ coreUpdates) -> order2 ≡ₚ coreUpdates ->
  l ∈ envBody applyDb orders order2 lines ->
  (l ∈ lines /\ isSkipKey (TrimSpace l) = false
   /\ (applyDb = true -> matchCore coreUpdates (TrimSpace l) = None))
  \/ (applyDb = true /\ exists kv, kv ∈ coreUpdates /\ l = setting kv).
Proof.
  intros Hord Hord2 Hl.
  destruct (envBody_spec applyDb orders order2 lines Hord)
    as (seen & Heq & _).
  rewrite Heq in Hl. apply dropTrailingBlank_elem in Hl.
  apply elem_of_app in Hl as [Hl|Hl].
  - apply list_elem_of_omap in Hl as (line & Hline & Hl).
    apply rewriteLine_Some in Hl as [(-> & Hs & Hm)|Hl]; [left|by right].
    done.
  - destruct applyDb; [|by apply elem_of_nil in Hl]. right. split; [done|].
    apply list_elem_of_fmap in Hl as (kv & -> & Hkv).
    apply list_elem_of_filter in Hkv as [_ Hkv]. rewrite Hord2 in Hkv.
    by exists kv.
Qed.

Lemma no_LF_check (s : string) :
  forallb (fun c => negb (Ascii.eqb c LF)) (list_ascii_of_string s) = true ->
  no_LF s.
Proof.
  unfold no_LF. induction (list_ascii_of_string s) as [|c l IH]; intros H.
  - constructor.
  - cbn [forallb] in H. apply andb_true_iff in H as [Hc H].
    constructor; [|by apply IH].
    intros ->. by rewrite Ascii.eqb_refl in Hc.
Qed.

Lemma no_LF_app (s t : string) : no_LF s -> no_LF t -> no_LF (s ++ t).
Proof.
  unfold no_LF. intros Hs Ht. rewrite list_ascii_app.
  by apply Forall_app.
Qed.

Lemma no_LF_uint (u : Decimal.uint) :
  no_LF (DecimalString.NilEmpty.string_of_uint u).
Proof.
  unfold no_LF.
  induction u; cbn [DecimalString.NilEmpty.string_of_uint
                    list_ascii_of_string];
    [constructor|..]; (constructor; [discriminate|done]).
Qed.

Lemma no_LF_Sprintf_d (n : Z) : no_LF (Sprintf_d n).
Proof.
  assert (forall u, no_LF (DecimalString.NilZero.string_of_uint u)) as Hu.
  { intros u. unfold DecimalString.NilZero.string_of_uint.
    destruct u; try apply no_LF_uint. by apply no_LF_check. }
  unfold Sprintf_d.
  destruct n as [|p|p]; cbn [Z.to_int DecimalString.NilZero.string_of_int].
  - by apply no_LF_check.
  - apply Hu.
  - constructor; [discriminate|apply Hu].
Qed.

Lemma splitLines_from_no_LF (s : string) (cur : list ascii) :
  Forall (fun c => c <> LF) cur -> Forall no_LF (splitLines_from s cur).
Proof.
  assert (forall cur, Forall (fun c => c <> LF) cur ->
            no_LF (close_line cur)) as Hclose.
  { intros l Hl. unfold no_LF, close_line.
    rewrite list_ascii_of_string_of_list_ascii.
    rewrite Forall_forall in Hl. apply Forall_forall. intros c Hc.
    rewrite elem_of_rev in Hc. apply Hl.
    destruct l as [|x l]; [done|]. cbn [drop_cr] in Hc.
    destruct (Ascii.eqb x CR); [by apply list_elem_of_further|done]. }
  revert cur. induction s as [|c s IH]; intros cur Hcur.
  - cbn [splitLines_from]. destruct cur; [constructor|].
    constructor; [by apply Hclose|constructor].
  - cbn [splitLines_from]. destruct (Ascii.eqb_spec c LF) as [->|Hc].
    + constructor; [by apply Hclose|]. apply IH. constructor.
    + apply IH. by constructor.
Qed.

(** No line [splitLines] hands back holds a line feed. *)
Lemma splitLines_no_LF (s : string) : Forall no_LF (splitLines s).
Proof. apply splitLines_from_no_LF. constructor. Qed.

Lemma setting_facts (kv : string * string) :
  kv ∈ coreUpdates ->
  no_LF (setting kv) /\ isSkipKey (TrimSpace (setting kv)) = false
  /\ app_port_value (setting kv) = None /\ TrimSpace (setting kv) <> ""
  /\ chomp (setting kv) = setting kv.
Proof.
  intros H. core_entries H;
    (split; [by apply no_LF_check|]); by vm_compute.
Qed.

Lemma envBlock_no_LF (suffix : Z) : Forall no_LF (envBlock suffix).
Proof.
  unfold envBlock, portLines. cbn [app].
  repeat (constructor;
          [first [by apply no_LF_check
                 |apply no_LF_app; [by apply no_LF_check
                                   |apply no_LF_Sprintf_d]]|]).
  constructor.
Qed.

Lemma envBody_no_LF (applyDb : bool) (orders : nat -> list (string * string))
    (order2 : list (string * string)) (data : string) :
  (forall i, orders i ≡ₚ coreUpdates) -> order2 ≡ₚ coreUpdates ->
  Forall no_LF (envBody applyDb orders order2 (splitLines data)).
Proof.
  intros Hord Hord2. apply Forall_forall. intros l Hl.
  apply envBody_elem in Hl as [(Hl & _)|(_ & kv & Hkv & ->)]; [|..|done|done].
  - pose proof (splitLines_no_LF data) as Hno.
    rewrite Forall_forall in Hno. by apply Hno.
  - by apply setting_facts.
Qed.

Lemma not_skip_no_port (l : string) :
  isSkipKey (TrimSpace l) = false -> app_port_value l = None.
Proof.
  unfold isSkipKey, app_port_value, portKeys. cbn [existsb].
  intros H. apply orb_false_iff in H as [H _].
  apply orb_false_iff in H as [H _].
  change ("APP_PORT" ++ "=") with "APP_PORT=" in H. by rewrite H.
Qed.

Lemma with_file_read (w : World) (path data : string) :
  readFileOf (with_file w path data) path = Some data
  /\ statOf (with_file w path data) path = StatOk.
Proof.
  unfold with_file. cbn [readFileOf statOf]. by rewrite String.eqb_refl.
Qed.

Lemma written_read (w : World) (place : string -> standing)
    (path data : string) :
  readFileOf (written w place path data) path = Some data
  /\ statOf (written w place path data) path = StatOk.
Proof.
  unfold written. cbn [readFileOf statOf]. by rewrite String.eqb_refl.
Qed.

Lemma written_other (w : World) (place : string -> standing)
    (path data p : string) :
  p <> path -> place p = Apart ->
  readFileOf (written w place path data) p = readFileOf w p
  /\ statOf (written w place path data) p = statOf w p.
Proof.
  intros Hp Hs. unfold written. cbn [readFileOf statOf]. rewrite Hs.
  by destruct (String.eqb_spec p path).
Qed.

Lemma written_same (w : World) (place : string -> standing)
    (path data p : string) :
  place p = SameFile ->
  readFileOf (written w place path data) p = Some data
  /\ statOf (written w place path data) p = StatOk.
Proof.
  intros Hs. unfold written. cbn [readFileOf statOf]. rewrite Hs.
  by destruct (String.eqb p path).
Qed.

Lemma written_below (w : World) (place : string -> standing)
    (path data p : string) :
  p <> path -> place p = Below ->
  readFileOf (written w place path data) p = None
  /\ statOf (written w place path data) p = StatError.
Proof.
  intros Hp Hs. unfold written. cbn [readFileOf statOf]. rewrite Hs.
  by destruct (String.eqb_spec p path).
Qed.

(** A run of [setupEnv] that succeeds: the text it started from could be
    read, and the environment file now holds the body made from its lines
    followed by the final block. *)
Lemma setupEnv_ok (w w' : World) (createOk writeOk : bool)
    (place : string -> standing)
    (orders : nat -> list (string * string)) (order2 : list (string * string))
    (projectDir : string) (suffix : Z) (resetDb : bool) :
  setupEnv w createOk writeOk place orders order2 projectDir suffix resetDb
  = (Ok tt, w') ->
  exists data,
    envSource w projectDir = Some data
    /\ readFileOf w' (Join projectDir ".env")
       = Some (joinLines
                 (envBody (appliesDb w projectDir resetDb) orders order2
                    (splitLines data) ++ envBlock suffix))
    /\ statOf w' (Join projectDir ".env") = StatOk.
Proof.
  unfold setupEnv, envSource, appliesDb, writeEnvFile. cbv zeta.
  destruct (isNotExist (statOf w (Join projectDir ".env"))).
  - destruct (statOf w (Join projectDir ".env.example"));
      [destruct (readFileOf w (Join projectDir ".env.example")) as [data|];
       [|discriminate]|..];
      (destruct createOk; [|discriminate]);
      rewrite (proj1 (written_read _ _ _ _));
      (destruct writeOk; [|discriminate]); cbn [orb];
      intros [= <-]; eexists; (split; [done|]); apply written_read.
  - destruct (readFileOf w (Join projectDir ".env")) as [data|];
      [|discriminate].
    destruct writeOk; [|discriminate]. cbn [orb].
    intros [= <-]. exists data. split; [done|]. apply written_read.
Qed.

(** [setupEnv] writes the environment file and nothing else. *)
Lemma setupEnv_frame (w w' : World) (createOk writeOk : bool)
    (place : string -> standing)
    (orders : nat -> list (string * string)) (order2 : list (string * string))
    (projectDir : string) (suffix : Z) (resetDb : bool) (r : result unit) :
  setupEnv w createOk writeOk place orders order2 projectDir suffix resetDb
  = (r, w') ->
  stateFile w' = stateFile w /\ onWrite w' = onWrite w /\ cwd w' = cwd w
  /\ forall p, p <> Join projectDir ".env" -> place p = Apart ->
       readFileOf w' p = readFileOf w p /\ statOf w' p = statOf w p.
Proof.
  assert (forall d1 d2 p,
            p <> Join projectDir ".env" -> place p = Apart ->
            readFileOf (written (written w place (Join projectDir ".env")
                                   d1)
                          place (Join projectDir ".env") d2) p
            = readFileOf w p
            /\ statOf (written (written w place (Join projectDir ".env")
                                  d1)
                         place (Join projectDir ".env") d2) p
               = statOf w p) as H2.
  { intros d1 d2 p Hp Hs.
    destruct (written_other (written w place (Join projectDir ".env") d1)
                place (Join projectDir ".env") d2 p Hp Hs) as [-> ->].
    by apply written_other. }
  unfold setupEnv, writeEnvFile. cbv zeta.
  destruct (isNotExist (statOf w (Join projectDir ".env")));
    [destruct (statOf w (Join projectDir ".env.example"));
     [destruct (readFileOf w (Join projectDir ".env.example"))|..];
     destruct createOk|];
    rewrite ?(proj1 (written_read _ _ _ _));
    try destruct (readFileOf w (Join projectDir ".env"));
    destruct writeOk;
    intros [= <- <-]; repeat split; try done;
    try (by apply H2); try (by apply written_other).
Qed.

(** After a run that succeeds, another name of the environment file reads
    what the file reads, and a path that runs through the file is
    refused. *)
Lemma setupEnv_other_names (w w' : World) (createOk writeOk : bool)
    (place : string -> standing)
    (orders : nat -> list (string * string)) (order2 : list (string * string))
    (projectDir : string) (suffix : Z) (resetDb : bool) (p : string) :
  setupEnv w createOk writeOk place orders order2 projectDir suffix resetDb
  = (Ok tt, w') ->
  (place p = SameFile ->
   readFileOf w' p = readFileOf w' (Join projectDir ".env")
   /\ statOf w' p = StatOk)
  /\ (p <> Join projectDir ".env" -> place p = Below ->
      readFileOf w' p = None /\ statOf w' p = StatError).
Proof.
  unfold setupEnv, writeEnvFile. cbv zeta.
  destruct (isNotExist (statOf w (Join projectDir ".env")));
    [destruct (statOf w (Join projectDir ".env.example"));
     [destruct (readFileOf w (Join projectDir ".env.example"))|..];
     (destruct createOk; [|discriminate])|];
    rewrite ?(proj1 (written_read _ _ _ _));
    try (destruct (readFileOf w (Join projectDir ".env")); [|discriminate]);
    try discriminate;
    (destruct writeOk; [|discriminate]);
    intros [= <-]; (split; [intros Hs|intros Hp Hs]);
    rewrite ?(proj1 (written_read _ _ _ _));
    try (by apply written_same); by apply written_below.
Qed.

Lemma dropTrailingBlank_nonblank (lines : list string) :
  Forall (fun l => TrimSpace l <> "") lines ->
  dropTrailingBlank lines = lines.
Proof.
  intros Hall.
  destruct (dropTrailingBlank_spec lines) as (tail & Heq & Htail & _).
  destruct tail as [|l tail]; [by rewrite app_nil_r in Heq|].
  apply Forall_cons in Htail as [Hl _]. rewrite Forall_forall in Hall.
  destruct (Hall l); [|done]. rewrite Heq. apply elem_of_app. right.
  apply list_elem_of_here.
Qed.

Lemma filter_all {A : Type} (P : A -> Prop) `{forall x, Decision (P x)}
    (l : list A) :
  (forall x, P x) -> filter P l = l.
Proof.
  intros HP. induction l as [|x l IH]; [done|].
  rewrite filter_cons_True by done. by rewrite IH.
Qed.

Lemma firstPass_order (applyDb : bool)
    (orders orders' : nat -> list (string * string)) (lines : list string) :
  (forall i, orders i ≡ₚ coreUpdates) ->
  (forall i, orders' i ≡ₚ coreUpdates) ->
  forall (i j : nat) (newLines : list string) (seen : gset string),
    firstPass applyDb orders i lines newLines seen
    = firstPass applyDb orders' j lines newLines seen.
Proof.
  intros Hord Hord'.
  induction lines as [|line lines IH]; intros i j newLines seen; [done|].
  cbn [firstPass]. destruct (isSkipKey (TrimSpace line)); [apply IH|].
  destruct applyDb; [|apply IH].
  rewrite (matchCore_order _ _ (Hord i)), (matchCore_order _ _ (Hord' j)).
  destruct (matchCore coreUpdates (TrimSpace line)) as [[key val]|];
    apply IH.
Qed.

Lemma envBlock_nonempty (body : list string) (suffix : Z) :
  (body ++ envBlock suffix)%list <> [].
Proof. by destruct body. Qed.

(** X18 (layout of the environment file): when [setupEnv] succeeds, the
    file holds a body followed by the final block: an empty line, the
    seven port settings, an empty line and the debug mode. No line of the
    body is a port or debug entry, so each of these is set once, in the
    block, and the body does not end in a blank line. The ports written
    are the ports [CheckSuffixPortsAvailable] probes for the suffix, in
    the same order. *)
Theorem setupEnv_layout (w w' : World) (createOk writeOk : bool)
    (place : string -> standing)
    (orders : nat -> list (string * string)) (order2 : list (string * string))
    (projectDir : string) (suffix : Z) (resetDb : bool) :
  (forall i, orders i ≡ₚ coreUpdates) -> order2 ≡ₚ coreUpdates ->
  setupEnv w createOk writeOk place orders order2 projectDir suffix resetDb
  = (Ok tt, w') ->
  exists body,
    readFileOf w' (Join projectDir ".env")
    = Some (joinLines (body ++ envBlock suffix))
    /\ Forall (fun l => isSkipKey (TrimSpace l) = false) body
    /\ (body = []
        \/ exists init l, body = (init ++ [l])%list /\ TrimSpace l <> "")
    /\ envBlock suffix
       = ([""]
          ++ map (fun p : string * Z => (p.1 ++ "=" ++ Sprintf_d p.2)%string)
               (suffixPorts suffix)
          ++ [""; "SAIL_XDEBUG_MODE=develop,debug,coverage"])%list.
Proof.
  intros Hord Hord2 Hrun.
  destruct (setupEnv_ok _ _ _ _ _ _ _ _ _ _ Hrun) as (data & _ & Hread & _).
  exists (envBody (appliesDb w projectDir resetDb) orders order2
            (splitLines data)).
  split; [done|]. split; [|split; [|reflexivity]].
  - apply Forall_forall. intros l Hl.
    apply envBody_elem in Hl as [(_ & Hs & _)|(_ & kv & Hkv & ->)];
      [done| |done|done].
    by apply setting_facts.
  - unfold envBody.
    destruct (firstPass _ orders 0 (splitLines data) [] ∅) as [nl seen].
    match goal with
    | |- context [dropTrailingBlank ?x] =>
        destruct (dropTrailingBlank_spec x) as (_ & _ & _ & H)
    end.
    exact H.
Qed.

Lemma setupEnv_layout_witness :
  exists body,
    readFileOf (setupEnv envWorld true true noLinks sourceOrder coreUpdates
        "/c" 55
                  false).2 (Join "/c" ".env")
    = Some (joinLines (body ++ envBlock 55))
    /\ Forall (fun l => isSkipKey (TrimSpace l) = false) body
    /\ (body = []
        \/ exists init l, body = (init ++ [l])%list /\ TrimSpace l <> "")
    /\ envBlock 55
       = ([""]
          ++ map (fun p : string * Z => (p.1 ++ "=" ++ Sprintf_d p.2)%string)
               (suffixPorts 55)
          ++ [""; "SAIL_XDEBUG_MODE=develop,debug,coverage"])%list.
Proof.
  apply (setupEnv_layout envWorld _ true true noLinks sourceOrder coreUpdates
      "/c" 55
           false).
  - intros i. reflexivity.
  - reflexivity.
  - vm_compute. reflexivity.
Defined.

(** X19 (the suffix comes back from the file): after [setupEnv] has
    written the file for a suffix from 0 to the largest one for which
    8000 + suffix is an [int], [extractSuffixFromEnv] recovers that suffix
    from it, whatever the file held before; so for a project that is not
    in the registry [getSuggestedSuffix] hands the suffix back as an
    existing one. *)
Theorem setupEnv_then_extract (w w' : World) (createOk writeOk : bool)
    (place : string -> standing)
    (orders : nat -> list (string * string)) (order2 : list (string * string))
    (projectDir : string) (suffix : Z) (resetDb : bool) :
  (forall i, orders i ≡ₚ coreUpdates) -> order2 ≡ₚ coreUpdates ->
  0 <= suffix <= int_max - 8000 ->
  setupEnv w createOk writeOk place orders order2 projectDir suffix resetDb
  = (Ok tt, w') ->
  extractSuffixFromEnv w' (Join projectDir ".env") = (suffix, true)
  /\ forall (state : PortState) (existed : bool) (absDir : string),
       loadPortState w = Ok (state, existed) ->
       Abs w projectDir = Ok absDir ->
       project state absDir = None ->
       getSuggestedSuffix w' projectDir = Ok (suffix, true, existed).
Proof.
  intros Hord Hord2 Hs Hrun.
  destruct (setupEnv_ok _ _ _ _ _ _ _ _ _ _ Hrun)
    as (data & _ & Hread & Hstat).
  destruct (setupEnv_frame _ _ _ _ _ _ _ _ _ _ _ Hrun)
    as (Hfile & _ & Hcwd & _).
  set (body := envBody (appliesDb w projectDir resetDb) orders order2
                 (splitLines data)) in *.
  assert (extractSuffixFromEnv w' (Join projectDir ".env") = (suffix, true))
    as Hextract.
  { unfold extractSuffixFromEnv. rewrite Hread.
    rewrite splitLines_joinLines_chomp;
      [|apply envBlock_nonempty
       |apply Forall_app; split;
        [by apply envBody_no_LF|apply envBlock_no_LF]].
    rewrite map_app, scanEnvLines_skip.
    - unfold envBlock, portLines. cbn [app map].
      rewrite scanEnvLines_cons, app_port_value_chomp.
      assert (app_port_value "" = None) as -> by reflexivity.
      rewrite scanEnvLines_cons, app_port_value_chomp.
      assert (int_add 8000 suffix = 8000 + suffix) as ->.
      { unfold int_add. apply wrap_int_ok. int_range. }
      rewrite app_port_value_Sprintf by lia.
      destruct (Z.leb_spec 8000 (8000 + suffix)) as [_|Hlt]; [|lia].
      f_equal. lia.
    - apply Forall_forall. intros l Hl.
      apply list_elem_of_fmap in Hl as (l0 & -> & Hl).
      rewrite app_port_value_chomp.
      apply envBody_elem in Hl as [(_ & Hskip & _)|(_ & kv & Hkv & ->)];
        [by apply not_skip_no_port| |done|done].
      by apply setting_facts. }
  split; [done|].
  intros state existed absDir Hload Habs Hproj.
  unfold getSuggestedSuffix.
  assert (loadPortState w' = loadPortState w) as ->
    by (unfold loadPortState; by rewrite Hfile).
  assert (Abs w' projectDir = Abs w projectDir) as ->
    by (unfold Abs; by rewrite Hcwd).
  rewrite Hload, Habs, Hproj. cbv zeta. by rewrite Hstat, Hextract.
Qed.

Lemma setupEnv_then_extract_witness :
  extractSuffixFromEnv
    (setupEnv envWorld true true noLinks sourceOrder coreUpdates
        "/c" 55 false).2
    (Join "/c" ".env") = (55, true)
  /\ getSuggestedSuffix
       (setupEnv envWorld true true noLinks sourceOrder coreUpdates
           "/c" 55 false).2
       "/c" = Ok (55, true, false).
Proof.
  assert (forall i, sourceOrder i ≡ₚ coreUpdates) as Hord by (by intros i).
  assert (coreUpdates ≡ₚ coreUpdates) as Hord2 by done.
  assert (0 <= 55 <= int_max - 8000) as Hs by (unfold int_max; lia).
  assert (setupEnv envWorld true true noLinks sourceOrder coreUpdates
      "/c" 55 false
          = (Ok tt,
             (setupEnv envWorld true true noLinks sourceOrder coreUpdates
                 "/c" 55
                false).2)) as Hrun by (vm_compute; reflexivity).
  split.
  - exact (proj1 (setupEnv_then_extract envWorld _ true true noLinks sourceOrder
                    coreUpdates "/c" 55 false Hord Hord2 Hs Hrun)).
  - apply (proj2 (setupEnv_then_extract envWorld _ true true noLinks sourceOrder
                    coreUpdates "/c" 55 false Hord Hord2 Hs Hrun)
             emptyState false "/c"); reflexivity.
Defined.

Lemma setupEnv_existing (w : World) (createOk : bool)
    (place : string -> standing)
    (orders : nat -> list (string * string)) (order2 : list (string * string))
    (projectDir : string) (suffix : Z) (resetDb : bool) (data : string) :
  isNotExist (statOf w (Join projectDir ".env")) = false ->
  readFileOf w (Join projectDir ".env") = Some data ->
  setupEnv w createOk true place orders order2 projectDir suffix resetDb
  = (Ok tt,
     written w place (Join projectDir ".env")
       (joinLines (envBody resetDb orders order2 (splitLines data)
                   ++ envBlock suffix))).
Proof.
  intros Hstat Hread. unfold setupEnv, writeEnvFile. cbv zeta.
  by rewrite Hstat, Hread.
Qed.

(** X20 (existing settings are kept): when the environment file exists,
    can be read, and the database settings are not reset, [setupEnv]
    succeeds as soon as its write does, and the body of the new file is
    the old lines in their order, without the port and debug entries and
    without blank lines at the end; no database setting is changed or
    added. *)
Theorem setupEnv_keeps_settings (w : World) (createOk : bool)
    (place : string -> standing)
    (orders : nat -> list (string * string)) (order2 : list (string * string))
    (projectDir : string) (suffix : Z) (data : string) :
  isNotExist (statOf w (Join projectDir ".env")) = false ->
  readFileOf w (Join projectDir ".env") = Some data ->
  (setupEnv w createOk true place orders order2
      projectDir suffix false).1 = Ok tt
  /\ readFileOf
       (setupEnv w createOk true place orders order2
           projectDir suffix false).2
       (Join projectDir ".env")
     = Some (joinLines
               (dropTrailingBlank
                  (filter (fun l => isSkipKey (TrimSpace l) = false)
                     (splitLines data))
                ++ envBlock suffix)).
Proof.
  intros Hstat Hread.
  rewrite (setupEnv_existing w createOk place orders order2 projectDir
             suffix false data Hstat Hread).
  cbn [fst snd]. split; [done|].
  rewrite (proj1 (written_read _ _ _ _)).
  by rewrite envBody_false.
Qed.

Lemma setupEnv_keeps_settings_witness :
  (setupEnv envWorld true true noLinks sourceOrder coreUpdates "/c" 55 false).1
  = Ok tt
  /\ readFileOf
       (setupEnv envWorld true true noLinks sourceOrder coreUpdates
           "/c" 55 false).2
       (Join "/c" ".env")
     = Some (joinLines
               (dropTrailingBlank
                  (filter (fun l => isSkipKey (TrimSpace l) = false)
                     (splitLines
                        ("APP_NAME=MyApp" ++ String LF "DB_HOST=postgres"
                         ++ String LF "  APP_PORT=80"
                         ++ String LF "DB_PORT=5432"
                         ++ String LF "" ++ String LF "")))
                ++ envBlock 55)).
Proof.
  apply (setupEnv_keeps_settings envWorld true noLinks sourceOrder
      coreUpdates "/c"
           55); reflexivity.
Defined.

(** X21 (the database settings are applied): when the environment file
    is new or the database settings are reset, the body of the file
    [setupEnv] writes holds each of the six settings with the value of
    [coreUpdates], and every line of the body that sets one of the six
    keys is that entry: no other value for them is left. *)
Theorem setupEnv_database_settings (w w' : World) (createOk writeOk : bool)
    (place : string -> standing)
    (orders : nat -> list (string * string)) (order2 : list (string * string))
    (projectDir : string) (suffix : Z) (resetDb : bool) :
  (forall i, orders i ≡ₚ coreUpdates) -> order2 ≡ₚ coreUpdates ->
  appliesDb w projectDir resetDb = true ->
  setupEnv w createOk writeOk place orders order2 projectDir suffix resetDb
  = (Ok tt, w') ->
  exists body,
    readFileOf w' (Join projectDir ".env")
    = Some (joinLines (body ++ envBlock suffix))
    /\ (forall kv, kv ∈ coreUpdates -> setting kv ∈ body)
    /\ forall l kv,
         l ∈ body -> kv ∈ coreUpdates -> sets_key l kv.1 = true ->
         l = setting kv.
Proof.
  intros Hord Hord2 Happly Hrun.
  destruct (setupEnv_ok _ _ _ _ _ _ _ _ _ _ Hrun) as (data & _ & Hread & _).
  rewrite Happly in Hread.
  exists (envBody true orders order2 (splitLines data)).
  split; [done|]. split.
  - intros kv Hkv.
    destruct (envBody_spec true orders order2 (splitLines data) Hord)
      as (seen & -> & Hseen).
    apply dropTrailingBlank_keeps; [|by apply setting_facts].
    apply elem_of_app. destruct (decide (kv.1 ∈ seen)) as [Hin|Hin].
    + left. destruct (Hseen _ Hin) as (val & Hval & Hset).
      assert (kv = (kv.1, val)) as ->; [|done].
      clear -Hkv Hval. unfold coreUpdates in Hval.
      core_entries Hkv; cbn [fst] in *;
        repeat (apply elem_of_cons in Hval as [Heq|Hval];
                [by simplify_eq|]);
        by apply elem_of_nil in Hval.
    + right. apply list_elem_of_fmap. exists kv. split; [done|].
      apply list_elem_of_filter. split; [done|]. by rewrite Hord2.
  - intros l kv Hl Hkv Hsets.
    apply envBody_elem in Hl as [(_ & _ & Hm)|(_ & kv' & Hkv' & ->)];
      [| |done|done].
    + unfold sets_key in Hsets.
      by rewrite (matchCore_None _ _ kv (Hm eq_refl) Hkv) in Hsets.
    + clear -Hkv Hkv' Hsets.
      core_entries Hkv; core_entries Hkv'; try reflexivity;
        vm_compute in Hsets; discriminate.
Qed.

Lemma setupEnv_database_settings_witness :
  exists body,
    readFileOf
      (setupEnv envWorld true true noLinks sourceOrder coreUpdates
          "/c" 55 true).2
      (Join "/c" ".env")
    = Some (joinLines (body ++ envBlock 55))
    /\ (forall kv, kv ∈ coreUpdates -> setting kv ∈ body)
    /\ forall l kv,
         l ∈ body -> kv ∈ coreUpdates -> sets_key l kv.1 = true ->
         l = setting kv.
Proof.
  apply (setupEnv_database_settings envWorld _ true true noLinks sourceOrder
           coreUpdates "/c" 55 true).
  - intros i. reflexivity.
  - reflexivity.
  - reflexivity.
  - vm_compute. reflexivity.
Defined.

(** X22 (the order of the map does not show in the lines that are
    replaced): Go visits the entries of [coreUpdates] in an order of its
    own at every [range]. Whatever orders the first pass meets, with the
    same order in the loop that adds the missing settings [setupEnv]
    writes the same file and returns the same result. *)
Theorem setupEnv_order_independent (w : World) (createOk writeOk : bool)
    (place : string -> standing)
    (orders orders' : nat -> list (string * string))
    (order2 : list (string * string)) (projectDir : string) (suffix : Z)
    (resetDb : bool) :
  (forall i, orders i ≡ₚ coreUpdates) ->
  (forall i, orders' i ≡ₚ coreUpdates) ->
  setupEnv w createOk writeOk place orders order2 projectDir suffix resetDb
  = setupEnv w createOk writeOk place orders' order2
      projectDir suffix resetDb.
Proof.
  intros Hord Hord'. unfold setupEnv, envBody. cbv zeta.
  assert (forall a lines,
            firstPass a orders 0 lines [] ∅
            = firstPass a orders' 0 lines [] ∅) as Heq
    by (intros; by apply firstPass_order).
  destruct (isNotExist (statOf w (Join projectDir ".env")));
    [destruct (statOf w (Join projectDir ".env.example"));
     [destruct (readFileOf w (Join projectDir ".env.example"))|..];
     try done;
     destruct (writeEnvFile createOk w place (Join projectDir ".env") _)
       as [[e|] w1]; try done|];
    match goal with
    | |- context [readFileOf ?w0 (Join projectDir ".env")] =>
        destruct (readFileOf w0 (Join projectDir ".env")); [|done]
    end;
    by rewrite Heq.
Qed.

Lemma setupEnv_order_independent_witness :
  setupEnv envWorld true true noLinks sourceOrder coreUpdates "/c" 55 true
  = setupEnv envWorld true true noLinks (fun _ => rev coreUpdates)
      coreUpdates "/c"
      55 true.
Proof.
  apply setupEnv_order_independent.
  - intros i. reflexivity.
  - intros i. symmetry. apply Permutation_rev.
Defined.

(** X23 (what [setupEnv] leaves alone): whether it succeeds or fails, the
    working directory is as before, and so is every path that leads
    elsewhere than to the environment file of the project, that is, a path
    that is not the path of the file, names no link to it or other
    spelling of it, and does not run through it: it reads and stats as
    before. *)
Theorem setupEnv_only_env_file (w : World) (createOk writeOk : bool)
    (place : string -> standing)
    (orders : nat -> list (string * string)) (order2 : list (string * string))
    (projectDir : string) (suffix : Z) (resetDb : bool) :
  let w' := (setupEnv w createOk writeOk place orders order2 projectDir
               suffix resetDb).2 in
  (forall p, Abs w' p = Abs w p)
  /\ forall p, p <> Join projectDir ".env" -> place p = Apart ->
       readFileOf w' p = readFileOf w p /\ statOf w' p = statOf w p.
Proof.
  intros w'.
  destruct (setupEnv w createOk writeOk place orders order2 projectDir
              suffix resetDb) as [r w1] eqn:Hrun.
  subst w'. cbn [snd].
  destruct (setupEnv_frame _ _ _ _ _ _ _ _ _ _ _ Hrun)
    as (_ & _ & Hcwd & Hother).
  split; [intros p; unfold Abs; by rewrite Hcwd|done].
Qed.

Lemma setupEnv_only_env_file_witness :
  "/c/.env" <> Join "/a" ".env"
  /\ aliasDot "/c/.env" = Apart
  /\ readFileOf
       (setupEnv worldTwo true true aliasDot sourceOrder coreUpdates "/a" 55
          false).2
       "/c/.env" = readFileOf worldTwo "/c/.env"
  /\ statOf
       (setupEnv worldTwo true true aliasDot sourceOrder coreUpdates "/a" 55
          false).2
       "/c/.env" = statOf worldTwo "/c/.env".
Proof.
  assert ("/c/.env" <> Join "/a" ".env") as Hp by (vm_compute; discriminate).
  assert (aliasDot "/c/.env" = Apart) as Ha by reflexivity.
  split; [exact Hp|]. split; [exact Ha|].
  exact (proj2 (setupEnv_only_env_file worldTwo true true aliasDot
                  sourceOrder coreUpdates "/a" 55 false) "/c/.env" Hp Ha).
Defined.

(** X24 (a project with no environment file and no example): when
    [os.Stat] finds neither the environment file nor the example file and
    the two writes succeed, [setupEnv] succeeds, and the file it leaves
    holds the six database settings, in the order the [range] met them,
    followed by the final block. A missing example file is no error. *)
Theorem setupEnv_fresh_project (w : World) (place : string -> standing)
    (orders : nat -> list (string * string)) (order2 : list (string * string))
    (projectDir : string) (suffix : Z) (resetDb : bool) :
  order2 ≡ₚ coreUpdates ->
  statOf w (Join projectDir ".env") = StatNotExist ->
  statOf w (Join projectDir ".env.example") <> StatOk ->
  (setupEnv w true true place orders order2
      projectDir suffix resetDb).1 = Ok tt
  /\ readFileOf
       (setupEnv w true true place orders order2 projectDir suffix resetDb).2
       (Join projectDir ".env")
     = Some (joinLines (map setting order2 ++ envBlock suffix)).
Proof.
  intros Hord2 Henv Hex. unfold setupEnv, writeEnvFile. cbv zeta.
  rewrite Henv. cbn [isNotExist].
  assert (dropTrailingBlank (map setting order2) = map setting order2)
    as Hbody.
  { apply dropTrailingBlank_nonblank. apply Forall_forall. intros l Hl.
    apply list_elem_of_fmap in Hl as (kv & -> & Hkv). rewrite Hord2 in Hkv.
    by apply setting_facts. }
  assert (envBody true orders order2 (splitLines "") = map setting order2)
    as Hempty.
  { unfold envBody. cbn [splitLines splitLines_from firstPass].
    rewrite addMissing_spec. cbn [app].
    rewrite filter_all; [done|]. intros kv. apply not_elem_of_empty. }
  destruct (statOf w (Join projectDir ".env.example")); [done|..];
    rewrite (proj1 (written_read _ _ _ _)); cbn [orb fst snd];
    (split; [done|]); rewrite Hempty; apply written_read.
Qed.

Lemma setupEnv_fresh_project_witness :
  (setupEnv world0 true true noLinks sourceOrder coreUpdates "/t" 55 false).1
  = Ok tt
  /\ readFileOf
       (setupEnv world0 true true noLinks sourceOrder coreUpdates
           "/t" 55 false).2
       (Join "/t" ".env")
     = Some (joinLines (map setting coreUpdates ++ envBlock 55)).
Proof.
  apply (setupEnv_fresh_project world0 noLinks sourceOrder coreUpdates "/t" 55
           false); [reflexivity|reflexivity|discriminate].
Defined.

(** X25 (the range of a recovered suffix): the suffix
    [extractSuffixFromEnv] returns lies between 0 and the largest [int]
    minus 8000, and is 0 when nothing was found; every suffix of that
    range comes back from a file that sets APP_PORT to 8000 plus it. So a
    recovered suffix is never negative, but it can lie above
    [MaxPortSuffix]. *)
Theorem extractSuffixFromEnv_range (w : World) (envPath : string) :
  0 <= (extractSuffixFromEnv w envPath).1 <= int_max - 8000
  /\ ((extractSuffixFromEnv w envPath).2 = false ->
      (extractSuffixFromEnv w envPath).1 = 0)
  /\ forall s,
       0 <= s <= int_max - 8000 ->
       extractSuffixFromEnv
         (with_file w envPath (joinLines ["APP_PORT=" ++ Sprintf_d (8000 + s)]))
         envPath = (s, true).
Proof.
  assert (forall lines,
            0 <= (scanEnvLines lines).1 <= int_max - 8000
            /\ ((scanEnvLines lines).2 = false ->
                (scanEnvLines lines).1 = 0)) as Hscan.
  { induction lines as [|line lines IH].
    - cbn [scanEnvLines fst snd]. unfold int_max. split; [lia|done].
    - rewrite scanEnvLines_cons.
      destruct (app_port_value line) as [p|] eqn:Hv; [|done].
      destruct (Z.leb_spec 8000 p) as [Hge|_]; [|done].
      cbn [fst snd]. apply app_port_value_ok in Hv.
      unfold int_ok in Hv. split; [lia|done]. }
  assert (0 <= (extractSuffixFromEnv w envPath).1 <= int_max - 8000
          /\ ((extractSuffixFromEnv w envPath).2 = false ->
              (extractSuffixFromEnv w envPath).1 = 0)) as [H1 H2].
  { unfold extractSuffixFromEnv.
    destruct (readFileOf w envPath) as [content|]; [apply Hscan|].
    cbn [fst snd]. unfold int_max. split; [lia|done]. }
  split; [done|]. split; [done|]. intros s Hs.
  unfold extractSuffixFromEnv. rewrite (proj1 (with_file_read _ _ _)).
  rewrite splitLines_joinLines_chomp; [|done|].
  - cbn [map]. rewrite scanEnvLines_cons, app_port_value_chomp.
    rewrite app_port_value_Sprintf by lia.
    destruct (Z.leb_spec 8000 (8000 + s)) as [_|Hlt]; [|lia].
    f_equal. lia.
  - constructor; [|constructor].
    apply no_LF_app; [by apply no_LF_check|apply no_LF_Sprintf_d].
Qed.

Lemma extractSuffixFromEnv_range_witness :
  (extractSuffixFromEnv world0 "/c/.env").1 = 0
  /\ extractSuffixFromEnv
       (with_file world0 "/c/.env"
          (joinLines ["APP_PORT=" ++ Sprintf_d (8000 + 50000)]))
       "/c/.env" = (50000, true).
Proof.
  split.
  - apply (proj1 (proj2 (extractSuffixFromEnv_range world0 "/c/.env"))).
    reflexivity.
  - apply (proj2 (proj2 (extractSuffixFromEnv_range world0 "/c/.env"))).
    unfold int_max. lia.
Defined.

Lemma filter_Forall {A : Type} (P : A -> Prop) `{forall x, Decision (P x)}
    (l : list A) :
  Forall P l -> filter P l = l.
Proof.
  induction 1 as [|x l Hx _ IH]; [done|].
  rewrite filter_cons_True by done. by rewrite IH.
Qed.

(** The numeral [fmt] prints ends in a digit. *)
Lemma Sprintf_d_last (n : Z) :
  exists s d, 0 <= d <= 9 /\ Sprintf_d n = s ++ String (digit_char d) "".
Proof.
  assert (forall p : positive, exists s d,
            0 <= d <= 9
            /\ DecimalString.NilZero.string_of_uint (Pos.to_uint p)
               = s ++ String (digit_char d) "") as Hpos.
  { intros p.
    pose proof (DecimalPos.Unsigned.to_uint_nonnil p) as Hnil.
    assert (DecimalString.NilZero.string_of_uint (Pos.to_uint p)
            = digits_text (uint_digits (Pos.to_uint p))) as ->.
    { rewrite <- string_of_uint_digits.
      unfold DecimalString.NilZero.string_of_uint.
      by destruct (Pos.to_uint p). }
    assert (uint_digits (Pos.to_uint p) <> []) as Hne
      by (by destruct (Pos.to_uint p)).
    pose proof (uint_digits_range (Pos.to_uint p)) as Hds.
    destruct (exists_last Hne) as (ds & d & Heq). rewrite Heq in *.
    apply Forall_app in Hds as [_ Hd]. apply Forall_cons in Hd as [Hd _].
    exists (digits_text ds), d. split; [done|apply digits_text_snoc]. }
  unfold Sprintf_d.
  destruct n as [|p|p]; cbn [Z.to_int DecimalString.NilZero.string_of_int].
  - exists "", 0. split; [lia|reflexivity].
  - apply Hpos.
  - destruct (Hpos p) as (s & d & Hd & ->).
    by exists (String "-" s), d.
Qed.

(** A line of the port block is a port entry for the first pass. *)
Lemma portLines_skipped (suffix : Z) :
  Forall (fun l => isSkipKey (TrimSpace (chomp l)) = true)
    (portLines suffix).
Proof.
  assert (forall key n,
            TrimLeftSpace (key ++ Sprintf_d n) = key ++ Sprintf_d n ->
            isSkipKey (key ++ Sprintf_d n) = true ->
            isSkipKey (TrimSpace (chomp (key ++ Sprintf_d n))) = true)
    as Hline.
  { intros key n Hleft Hskip. rewrite TrimSpace_chomp. unfold TrimSpace.
    rewrite Hleft. destruct (Sprintf_d_last n) as (s & d & Hd & Hn).
    rewrite Hn in *. rewrite <- append_assoc in *.
    by rewrite TrimRightSpace_digit_end. }
  unfold portLines.
  repeat (constructor;
          [apply Hline;
           [reflexivity
           |by destruct (Sprintf_d _)]|]).
  constructor.
Qed.

(** The final block, read back by the first pass: the two empty lines
    stay, the port settings and the debug mode go. *)
Lemma envBlock_filtered (suffix : Z) :
  filter (fun l => isSkipKey (TrimSpace l) = false)
    (map chomp (envBlock suffix)) = [""; ""].
Proof.
  pose proof (portLines_skipped suffix) as Hports.
  unfold envBlock, portLines in *. cbn [app map].
  repeat match goal with
         | H : Forall _ (_ :: _) |- _ =>
             apply Forall_cons in H as [? H]
         end.
  rewrite filter_cons_True by reflexivity.
  do 7 (rewrite filter_cons_False by (by rewrite not_false_iff_true)).
  rewrite filter_cons_True by reflexivity.
  by rewrite filter_cons_False.
Qed.

Lemma chomp_snoc_CR (line : string) : chomp (line ++ String CR "") = line.
Proof.
  unfold chomp, close_line. rewrite list_ascii_app, rev_app_distr.
  change (rev (list_ascii_of_string (String CR ""))) with [CR].
  cbn [app drop_cr]. rewrite Ascii.eqb_refl, rev_involutive.
  apply string_of_list_ascii_of_string.
Qed.

(** X26 (running [setupEnv] again): once [setupEnv] has written the
    file, a later run that does not reset the database settings succeeds
    as soon as its write does, and only swaps the final block for the one
    of its own suffix: the body stays line for line, apart from one
    carriage return that reading takes off the end of a line. With the
    same suffix and no carriage returns the file is written back
    unchanged. *)
Theorem setupEnv_rerun (w w1 : World) (createOk writeOk : bool)
    (place : string -> standing)
    (orders : nat -> list (string * string)) (order2 : list (string * string))
    (projectDir : string) (suffix : Z) (resetDb : bool) :
  (forall i, orders i ≡ₚ coreUpdates) -> order2 ≡ₚ coreUpdates ->
  setupEnv w createOk writeOk place orders order2 projectDir suffix resetDb
  = (Ok tt, w1) ->
  exists body,
    readFileOf w1 (Join projectDir ".env")
    = Some (joinLines (body ++ envBlock suffix))
    /\ forall (createOk' : bool) (place' : string -> standing)
         (orders' : nat -> list (string * string))
         (order2' : list (string * string)) (suffix' : Z),
         (setupEnv w1 createOk' true place' orders' order2' projectDir
            suffix' false).1 = Ok tt
         /\ readFileOf
              (setupEnv w1 createOk' true place' orders' order2'
                 projectDir suffix' false).2 (Join projectDir ".env")
            = Some (joinLines (map chomp body ++ envBlock suffix'))
         /\ (suffix' = suffix -> Forall (fun l => chomp l = l) body ->
             readFileOf
               (setupEnv w1 createOk' true place' orders' order2'
                  projectDir suffix' false).2 (Join projectDir ".env")
             = readFileOf w1 (Join projectDir ".env")).
Proof.
  intros Hord Hord2 Hrun.
  destruct (setupEnv_ok _ _ _ _ _ _ _ _ _ _ Hrun)
    as (data & _ & Hread & Hstat).
  set (body := envBody (appliesDb w projectDir resetDb) orders order2
                 (splitLines data)) in *.
  exists body. split; [done|].
  intros createOk' place' orders' order2' suffix'.
  assert (isNotExist (statOf w1 (Join projectDir ".env")) = false) as Hex
    by (by rewrite Hstat).
  rewrite (setupEnv_existing w1 createOk' place' orders' order2'
             projectDir suffix' false _ Hex Hread).
  cbn [fst snd]. rewrite (proj1 (written_read _ _ _ _)), envBody_false.
  split; [done|].
  assert (dropTrailingBlank
            (filter (fun l => isSkipKey (TrimSpace l) = false)
               (splitLines (joinLines (body ++ envBlock suffix))))
          = map chomp body) as Hsame;
    [|rewrite Hsame; split; [done|];
      intros -> Hcr; rewrite Hread; do 3 f_equal;
      rewrite <- (map_id body) at 2; apply map_ext_Forall;
      by rewrite Forall_forall in Hcr |- *].
  rewrite splitLines_joinLines_chomp;
    [|apply envBlock_nonempty
     |apply Forall_app; split;
      [by apply envBody_no_LF|apply envBlock_no_LF]].
  assert (Forall (fun l => isSkipKey (TrimSpace l) = false) body) as Hbody.
  { apply Forall_forall. intros l Hl.
    apply envBody_elem in Hl as [(_ & Hs & _)|(_ & kv & Hkv & ->)];
      [done| |done|done].
    by apply setting_facts. }
  rewrite map_app, filter_app, envBlock_filtered.
  rewrite filter_Forall.
  2:{ apply Forall_forall. intros l Hl.
      apply list_elem_of_fmap in Hl as (l0 & -> & Hl).
      rewrite TrimSpace_chomp. rewrite Forall_forall in Hbody.
      by apply Hbody. }
  rewrite dropTrailingBlank_blank
    by (constructor; [reflexivity|constructor; [reflexivity|constructor]]).
  subst body. unfold envBody.
  destruct (firstPass _ orders 0 (splitLines data) [] ∅) as [nl seen].
  match goal with
  | |- context [map chomp (dropTrailingBlank ?x)] =>
      destruct (dropTrailingBlank_spec x) as (_ & _ & _ & [->|Hlast])
  end; [done|].
  destruct Hlast as (init & l & -> & Hl).
  rewrite map_app. cbn [map]. apply dropTrailingBlank_id.
  by rewrite TrimSpace_chomp.
Qed.

Lemma setupEnv_rerun_witness :
  exists body,
    readFileOf
      (setupEnv envWorld true true noLinks sourceOrder coreUpdates "/c" 55
         false).2 (Join "/c" ".env")
    = Some (joinLines (body ++ envBlock 55))
    /\ forall (createOk' : bool) (place' : string -> standing)
         (orders' : nat -> list (string * string))
         (order2' : list (string * string)) (suffix' : Z),
         (setupEnv
            (setupEnv envWorld true true noLinks sourceOrder coreUpdates "/c"
               55 false).2 createOk' true place' orders' order2' "/c"
            suffix' false).1 = Ok tt
         /\ readFileOf
              (setupEnv
                 (setupEnv envWorld true true noLinks sourceOrder coreUpdates
                    "/c" 55 false).2 createOk' true place' orders' order2'
                 "/c" suffix' false).2 (Join "/c" ".env")
            = Some (joinLines (map chomp body ++ envBlock suffix'))
         /\ (suffix' = 55 -> Forall (fun l => chomp l = l) body ->
             readFileOf
               (setupEnv
                  (setupEnv envWorld true true noLinks sourceOrder coreUpdates
                     "/c" 55 false).2 createOk' true place' orders'
                  order2' "/c" suffix' false).2 (Join "/c" ".env")
             = readFileOf
                 (setupEnv envWorld true true noLinks sourceOrder coreUpdates
                    "/c" 55 false).2 (Join "/c" ".env")).
Proof.
  apply (setupEnv_rerun envWorld _ true true noLinks sourceOrder coreUpdates
           "/c" 55 false).
  - intros i. reflexivity.
  - reflexivity.
  - vm_compute. reflexivity.
Defined.

Lemma concat_CRLF (lines : list string) :
  lines <> [] ->
  String.concat (String CR (String LF "")) lines ++ String CR (String LF "")
  = joinLines (map (fun l => l ++ String CR "") lines).
Proof.
  intros Hne. induction lines as [|line lines IH]; [done|].
  destruct lines as [|l2 lines].
  - unfold joinLines. cbn [String.concat map].
    by rewrite append_assoc.
  - rewrite (map_cons _ line). rewrite joinLines_cons by done.
    rewrite <- IH by done.
    change (String.concat (String CR (String LF "")) (line :: l2 :: lines))
      with (line ++ String CR (String LF "")
            ++ String.concat (String CR (String LF "")) (l2 :: lines)).
    rewrite !append_assoc. f_equal.
Qed.

(** X27 ([splitLines] reads back what was joined): for lines that hold
    no line feed, [splitLines] gives the lines back from their text with
    DOS line ends; from their text with Unix line ends it gives each line
    without one carriage return at its end, so the lines themselves when
    none ends in a carriage return. *)
Theorem splitLines_round_trip (lines : list string) :
  lines <> [] -> Forall no_LF lines ->
  splitLines
    (String.concat (String CR (String LF "")) lines
     ++ String CR (String LF "")) = lines
  /\ splitLines (joinLines lines) = map chomp lines
  /\ (Forall (fun l => chomp l = l) lines ->
      splitLines (joinLines lines) = lines).
Proof.
  intros Hne Hno. split; [|split].
  - rewrite concat_CRLF by done.
    rewrite splitLines_joinLines_chomp.
    + rewrite map_map. rewrite <- (map_id lines) at 2.
      apply map_ext. intros l. apply chomp_snoc_CR.
    + by destruct lines.
    + rewrite Forall_forall in Hno. apply Forall_forall. intros l Hl.
      apply list_elem_of_fmap in Hl as (l0 & -> & Hl).
      apply no_LF_app; [by apply Hno|by apply no_LF_check].
  - by apply splitLines_joinLines_chomp.
  - intros Hcr. rewrite splitLines_joinLines_chomp by done.
    rewrite <- (map_id lines) at 2. apply map_ext_Forall.
    by rewrite Forall_forall in Hcr |- *.
Qed.

Lemma splitLines_round_trip_witness :
  splitLines
    (String.concat (String CR (String LF "")) ["APP_PORT=8051"; "A=1"]
     ++ String CR (String LF "")) = ["APP_PORT=8051"; "A=1"]
  /\ splitLines (joinLines ["APP_PORT=8051"; "A=1"])
     = ["APP_PORT=8051"; "A=1"].
Proof.
  assert (["APP_PORT=8051"; "A=1"] <> []) as Hne by done.
  assert (Forall no_LF ["APP_PORT=8051"; "A=1"]) as Hno
    by (repeat constructor; discriminate).
  split.
  - exact (proj1 (splitLines_round_trip _ Hne Hno)).
  - apply (proj2 (proj2 (splitLines_round_trip _ Hne Hno))).
    repeat constructor.
Defined.

